(** * Epitech Calendar Sync: normalizer, ICS codec, reconciliation, orchestrator

    A shallow embedding of the TypeScript sources

      - [src/utils/date.ts]            (module [DateUtil])
      - [src/background/epitech-api.ts] (module [EpitechApi])
      - [src/services/ics-generator.ts] (module [IcsGenerator])
      - [src/services/google-calendar.ts] (module [GoogleCalendar])
      - [src/background/sync-manager.ts]  (module [SyncManager])

    followed by the properties of the specification that concern them. *)

From Stdlib Require Import ZArith List Bool Arith Lia String Ascii.
From Stdlib Require Import DecimalString Permutation.
Import ListNotations.

Local Open Scope string_scope.
Local Open Scope Z_scope.

(* ================================================================== *)
(** * JavaScript values used by the sources *)
(* ================================================================== *)

(** A JavaScript string is a sequence of UTF-16 code units.  The embedding
    keeps the code units of the Latin-1 range (U+0000 .. U+00FF): one
    [ascii] is one code unit, so [String.length] is the [.length] of the
    source and positions are the positions of [substring].  The accented
    capitals of the warning marker of the normalizer (U+00C9) live in that
    range. *)
Module JS.

Definition codeUnit (c : ascii) : N := N_of_ascii c.

(** Number of octets of the UTF-8 encoding of one code unit: one below
    U+0080, two from U+0080 to U+00FF. *)
Definition utf8Octets (c : ascii) : nat :=
  if (codeUnit c <? 128)%N then 1%nat else 2%nat.

Fixpoint octets (s : string) : nat :=
  match s with
  | EmptyString => 0%nat
  | String c s' => (utf8Octets c + octets s')%nat
  end.

Definition isAscii (c : ascii) : bool := (codeUnit c <? 128)%N.

Fixpoint allAscii (s : string) : bool :=
  match s with
  | EmptyString => true
  | String c s' => isAscii c && allAscii s'
  end.

(** [s.substring(0, n)] *)
Fixpoint take (n : nat) (s : string) : string :=
  match n, s with
  | O, _ => EmptyString
  | S _, EmptyString => EmptyString
  | S n', String c s' => String c (take n' s')
  end.

(** [s.substring(n)] *)
Fixpoint drop (n : nat) (s : string) : string :=
  match n, s with
  | O, _ => s
  | S _, EmptyString => EmptyString
  | S n', String _ s' => drop n' s'
  end.

(** [s.split(sep)] for a separator of one code unit: never empty. *)
Fixpoint split (sep : ascii) (s : string) : list string :=
  match s with
  | EmptyString => [EmptyString]
  | String c s' =>
      if Ascii.eqb c sep then EmptyString :: split sep s'
      else match split sep s' with
           | [] => [String c EmptyString]
           | p :: ps => String c p :: ps
           end
  end.

(** [parts.join(sep)] *)
Definition join (sep : string) (parts : list string) : string :=
  String.concat sep parts.

(** [s.replace(/c/g, r)] for a pattern of one literal code unit. *)
Fixpoint replaceAll (c : ascii) (r : string) (s : string) : string :=
  match s with
  | EmptyString => EmptyString
  | String d s' =>
      if Ascii.eqb d c then r ++ replaceAll c r s'
      else String d (replaceAll c r s')
  end.

(** A string is truthy when it is not empty. *)
Definition truthy (s : string) : bool :=
  match s with EmptyString => false | _ => true end.

(** [a || b] on two nullable strings. *)
Definition orElse (a b : option string) : option string :=
  match a with
  | Some s => if truthy s then a else b
  | None => b
  end.

(** White space of [\s] and of [trim]: TAB, LF, VT, FF, CR, SPACE, NBSP. *)
Definition isSpace (c : ascii) : bool :=
  let n := codeUnit c in
  ((9 <=? n) && (n <=? 13) || (n =? 32) || (n =? 160))%N.

Fixpoint trimStart (s : string) : string :=
  match s with
  | EmptyString => EmptyString
  | String c s' => if isSpace c then trimStart s' else s
  end.

Fixpoint trimEnd (s : string) : string :=
  match s with
  | EmptyString => EmptyString
  | String c s' =>
      match trimEnd s' with
      | EmptyString => if isSpace c then EmptyString else String c EmptyString
      | t => String c t
      end
  end.

Definition trim (s : string) : string := trimEnd (trimStart s).

(** ASCII upper case of one code unit (what [/i] compares by). *)
Definition upper (c : ascii) : ascii :=
  let n := codeUnit c in
  if ((97 <=? n) && (n <=? 122))%N then ascii_of_N (n - 32) else c.

(** [n.toString()] for an integral number. *)
Definition toString (n : Z) : string :=
  NilZero.string_of_int (Z.to_int n).

(** [s.padStart(2, '0')] *)
Definition padStart2 (s : string) : string :=
  match String.length s with
  | O => "00"
  | S O => "0" ++ s
  | _ => s
  end.

Definition digitValue (c : ascii) : option Z :=
  let n := codeUnit c in
  if ((48 <=? n) && (n <=? 57))%N then Some (Z.of_N (n - 48)) else None.

Fixpoint digitsValue (acc : Z) (s : string) : option Z :=
  match s with
  | EmptyString => Some acc
  | String c s' =>
      match digitValue c with
      | Some d => digitsValue (10 * acc + d) s'
      | None => None
      end
  end.

(** [Number(s)] on the strings the date fields are made of.  White space
    around the text is dropped; what is left is a run of decimal digits,
    with or without a sign before it, and has its value, or is empty and
    has the value 0.  [NaN] is [None] here: [Number(undefined)], a sign
    alone, and a text that is no numeric literal.  The literals with a
    fraction, an exponent or a radix prefix, and [Infinity], are not
    modelled: they are taken to [None] as well. *)
Definition Number (s : option string) : option Z :=
  match s with
  | None => None
  | Some s =>
      match trim s with
      | String "+" digits =>
          if truthy digits then digitsValue 0 digits else None
      | String "-" digits =>
          if truthy digits then option_map Z.opp (digitsValue 0 digits) else None
      | digits => digitsValue 0 digits
      end
  end.

End JS.

(* ================================================================== *)
(** * Completion of a call: a value or a thrown [Error] *)
(* ================================================================== *)

Inductive Outcome (A : Type) : Type :=
| Return (a : A)
| Throw (message : string).
Arguments Return {A} a.
Arguments Throw {A} message.

Definition bindO {A B : Type} (o : Outcome A) (k : A -> Outcome B) : Outcome B :=
  match o with
  | Return a => k a
  | Throw m => Throw m
  end.

Fixpoint mapO {A B : Type} (f : A -> Outcome B) (l : list A) : Outcome (list B) :=
  match l with
  | [] => Return []
  | a :: l' =>
      bindO (f a) (fun b => bindO (mapO f l') (fun bs => Return (b :: bs)))
  end.

(* ================================================================== *)
(** * The [Date] object of the host (ECMAScript, clause "Date Objects") *)
(* ================================================================== *)

(** A [Date] holds a time value: milliseconds since the epoch in UTC, or
    [NaN] for an invalid date ([None]).  Local time is the local time of
    the host the extension runs on: the functions that read or write local
    time take the time zone of the host, [TimeZone], as an argument. *)
Module DateUtil.

Definition Date : Type := option Z.

Definition msPerDay : Z := 86400000.

(** The time zone of the host.  [LocalTZA t isUTC] is the abstract
    operation of ECMAScript: the offset of local time from UTC, in
    milliseconds, at the time value [t], which is a UTC time value when
    [isUTC] holds and a local one otherwise.  The offset of a zone changes
    with [t] where the zone has daylight saving time; no zone is a day or
    more away from UTC. *)
Class TimeZone := {
  LocalTZA : Z -> bool -> Z;
  LocalTZA_range : forall t isUTC, - msPerDay < LocalTZA t isUTC < msPerDay
}.

(** A zone at a constant offset from UTC. *)
Definition fixedRange (offset : Z) : Prop := - msPerDay < offset < msPerDay.

Definition fixedOffset (offset : Z) (Hrange : fixedRange offset) : TimeZone :=
  {| LocalTZA := fun _ _ => offset;
     LocalTZA_range := fun _ _ => Hrange |}.

Section Zone.
Context {zone : TimeZone}.

Definition Day (t : Z) : Z := t / msPerDay.
Definition TimeWithinDay (t : Z) : Z := t mod msPerDay.

Definition DayFromYear (y : Z) : Z :=
  365 * (y - 1970) + (y - 1969) / 4 - (y - 1901) / 100 + (y - 1601) / 400.

Definition InLeapYear (y : Z) : bool :=
  ((y mod 4 =? 0) && negb (y mod 100 =? 0)) || (y mod 400 =? 0).

(** Days of the year before the first of month [mn] (0 = January). *)
Definition DaysBeforeMonth (leap : bool) (mn : Z) : Z :=
  let l := if leap then 1 else 0 in
  if mn =? 0 then 0
  else if mn =? 1 then 31
  else if mn =? 2 then 59 + l
  else if mn =? 3 then 90 + l
  else if mn =? 4 then 120 + l
  else if mn =? 5 then 151 + l
  else if mn =? 6 then 181 + l
  else if mn =? 7 then 212 + l
  else if mn =? 8 then 243 + l
  else if mn =? 9 then 273 + l
  else if mn =? 10 then 304 + l
  else 334 + l.

Definition MakeDay (year month date : Z) : Z :=
  let ym := year + month / 12 in
  let mn := month mod 12 in
  DayFromYear ym + DaysBeforeMonth (InLeapYear ym) mn + date - 1.

Definition MakeTime (hour min sec ms : Z) : Z :=
  hour * 3600000 + min * 60000 + sec * 1000 + ms.

Definition MakeDate (day time : Z) : Z := day * msPerDay + time.

Definition TimeClip (t : Z) : Date :=
  if Z.abs t >? 8640000000000000 then None else Some t.

Definition UTC (t : Z) : Z := t - LocalTZA t false.
Definition LocalTime (t : Z) : Z := t + LocalTZA t true.

(** [new Date(year, month, day, hours, minutes, seconds)]: any [NaN]
    argument gives an invalid date; a year from 0 to 99 means 1900 + year. *)
Definition newDate (year month day hours minutes seconds : option Z) : Date :=
  match year, month, day, hours, minutes, seconds with
  | Some y, Some m, Some d, Some h, Some mi, Some s =>
      let yr := if (0 <=? y) && (y <=? 99) then 1900 + y else y in
      TimeClip (UTC (MakeDate (MakeDay yr m d) (MakeTime h mi s 0)))
  | _, _, _, _, _, _ => None
  end.

(** Civil date (year, month from 0, day of month) of a day number. *)
Definition civilFromDay (day : Z) : Z * Z * Z :=
  let z := day + 719468 in
  let era := z / 146097 in
  let doe := z - era * 146097 in
  let yoe := (doe - doe / 1460 + doe / 36524 - doe / 146096) / 365 in
  let doy := doe - (365 * yoe + yoe / 4 - yoe / 100) in
  let mp := (5 * doy + 2) / 153 in
  let d := doy - (153 * mp + 2) / 5 + 1 in
  let m := if mp <? 10 then mp + 3 else mp - 9 in
  let y := yoe + era * 400 + (if m <=? 2 then 1 else 0) in
  (y, m - 1, d).

Definition YearFromTime (t : Z) : Z := fst (fst (civilFromDay (Day t))).
Definition MonthFromTime (t : Z) : Z := snd (fst (civilFromDay (Day t))).
Definition DateFromTime (t : Z) : Z := snd (civilFromDay (Day t)).
Definition HourFromTime (t : Z) : Z := (t / 3600000) mod 24.
Definition MinFromTime (t : Z) : Z := (t / 60000) mod 60.
Definition SecFromTime (t : Z) : Z := (t / 1000) mod 60.
Definition msFromTime (t : Z) : Z := t mod 1000.

(** [d.getTime()] *)
Definition getTime (d : Date) : option Z := d.

Definition pad (n : Z) : string := JS.padStart2 (JS.toString n).

Definition pad3 (n : Z) : string :=
  let s := JS.toString n in
  match String.length s with
  | O => "000"
  | S O => "00" ++ s
  | S (S O) => "0" ++ s
  | _ => s
  end.

Fixpoint zeros (n : nat) : string :=
  match n with
  | O => EmptyString
  | S n' => String "0" (zeros n')
  end.

Definition padYear (width : nat) (n : Z) : string :=
  let s := JS.toString n in
  zeros (width - String.length s) ++ s.

(** [d.toISOString()]: throws a [RangeError] on an invalid date. *)
Definition toISOString (d : Date) : Outcome string :=
  match d with
  | None => Throw "Invalid time value"
  | Some t =>
      let y := YearFromTime t in
      let ys := if (0 <=? y) && (y <=? 9999) then padYear 4 y
                else if y <? 0 then "-" ++ padYear 6 (- y)
                else "+" ++ padYear 6 y in
      Return (ys ++ "-" ++ pad (MonthFromTime t + 1) ++ "-" ++ pad (DateFromTime t)
                 ++ "T" ++ pad (HourFromTime t) ++ ":" ++ pad (MinFromTime t)
                 ++ ":" ++ pad (SecFromTime t) ++ "." ++ pad3 (msFromTime t) ++ "Z")
  end.

(** [parseEpitechDate]: "YYYY-MM-DD HH:MM:SS", read as local time. *)
Definition parseEpitechDate (dateStr : string) : Date :=
  let parts := JS.split " " dateStr in
  let datePart := nth 0 parts EmptyString in
  let timePart := nth_error parts 1 in
  let ymd := map Some (JS.split "-" datePart) in
  let year := JS.Number (nth 0 ymd None) in
  let month := JS.Number (nth 1 ymd None) in
  let day := JS.Number (nth 2 ymd None) in
  let timeStr := match JS.orElse timePart (Some "00:00:00") with
                 | Some s => s
                 | None => "00:00:00"
                 end in
  let hms := map Some (JS.split ":" timeStr) in
  let hours := JS.Number (nth 0 hms None) in
  let minutes := JS.Number (nth 1 hms None) in
  let seconds := JS.Number (nth 2 hms None) in
  newDate year (option_map (fun m => m - 1) month) day hours minutes seconds.

(** [ensureDate] on a [Date] instance. *)
Definition ensureDate (value : Date) : Outcome Date :=
  match value with
  | None => Throw "Invalid Date object: Invalid Date"
  | Some _ => Return value
  end.

(** [toIcsDateTime]: YYYYMMDDTHHMMSS in local time. *)
Definition toIcsDateTime (date : Date) : Outcome string :=
  bindO (ensureDate date) (fun d =>
    match d with
    | None => Throw "Invalid Date object: Invalid Date"
    | Some tv =>
        let t := LocalTime tv in
        Return (JS.toString (YearFromTime t)
                  ++ pad (MonthFromTime t + 1)
                  ++ pad (DateFromTime t)
                  ++ "T"
                  ++ pad (HourFromTime t)
                  ++ pad (MinFromTime t)
                  ++ pad (SecFromTime t))
    end).

Definition CRLF : string := String (ascii_of_nat 13) (String (ascii_of_nat 10) EmptyString).

Definition getTimezoneVtimezone : string :=
  JS.join CRLF
    [ "BEGIN:VTIMEZONE";
      "TZID:Europe/Paris";
      "BEGIN:DAYLIGHT";
      "TZOFFSETFROM:+0100";
      "TZOFFSETTO:+0200";
      "TZNAME:CEST";
      "DTSTART:19700329T020000";
      "RRULE:FREQ=YEARLY;BYMONTH=3;BYDAY=-1SU";
      "END:DAYLIGHT";
      "BEGIN:STANDARD";
      "TZOFFSETFROM:+0200";
      "TZOFFSETTO:+0100";
      "TZNAME:CET";
      "DTSTART:19701025T030000";
      "RRULE:FREQ=YEARLY;BYMONTH=10;BYDAY=-1SU";
      "END:STANDARD";
      "END:VTIMEZONE" ].

(** Days of the month [m] (0 = January) of the year [y]. *)
Definition DaysInMonth (y m : Z) : Z :=
  if m =? 1 then (if InLeapYear y then 29 else 28)
  else if (m =? 3) || (m =? 5) || (m =? 8) || (m =? 10) then 30
  else 31.

(** One field of the date-time string format: [width] digits, and what
    follows them. *)
Definition isoField (width : nat) (s : string) : option (Z * string) :=
  let digits := JS.take width s in
  if (String.length digits =? width)%nat
  then match JS.digitsValue 0 digits with
       | Some n => Some (n, JS.drop width s)
       | None => None
       end
  else None.

(** One separator of the format, and what follows it. *)
Definition isoMark (c : ascii) (s : string) : option string :=
  match s with
  | String d rest => if Ascii.eqb d c then Some rest else None
  | EmptyString => None
  end.

Definition andThen {A B : Type} (o : option A) (k : A -> option B) : option B :=
  match o with
  | Some a => k a
  | None => None
  end.

(** [new Date(s)] on a string in the full form of the date-time string
    format of ECMAScript, "YYYY-MM-DDTHH:mm:ss.sssZ", with fields in their
    ranges: this is the form [toISOString] writes for the years 0 to 9999,
    and what [getCachedEvents] reads back.  The short forms of the format,
    the expanded years and the formats an engine accepts of its own are
    not modelled: they are taken to an invalid date here. *)
Definition fromISOString (s : string) : Date :=
  andThen (isoField 4 s) (fun '(y, s) =>
  andThen (isoMark "-" s) (fun s =>
  andThen (isoField 2 s) (fun '(mo, s) =>
  andThen (isoMark "-" s) (fun s =>
  andThen (isoField 2 s) (fun '(d, s) =>
  andThen (isoMark "T" s) (fun s =>
  andThen (isoField 2 s) (fun '(h, s) =>
  andThen (isoMark ":" s) (fun s =>
  andThen (isoField 2 s) (fun '(mi, s) =>
  andThen (isoMark ":" s) (fun s =>
  andThen (isoField 2 s) (fun '(sec, s) =>
  andThen (isoMark "." s) (fun s =>
  andThen (isoField 3 s) (fun '(ms, s) =>
  andThen (isoMark "Z" s) (fun s =>
    match s with
    | EmptyString =>
        if (1 <=? mo) && (mo <=? 12) && (1 <=? d) && (d <=? DaysInMonth y (mo - 1))
           && (h <=? 23) && (mi <=? 59) && (sec <=? 59)
        then TimeClip (MakeDate (MakeDay y (mo - 1) d) (MakeTime h mi sec ms))
        else None
    | String _ _ => None
    end)))))))))))))).

(** ** Relative dates *)

(** [d.getDate()], [d.getMonth()], [d.getFullYear()]: [NaN] on an invalid
    date. *)
Definition getDate (d : Date) : option Z :=
  option_map (fun tv => DateFromTime (LocalTime tv)) d.
Definition getMonth (d : Date) : option Z :=
  option_map (fun tv => MonthFromTime (LocalTime tv)) d.
Definition getFullYear (d : Date) : option Z :=
  option_map (fun tv => YearFromTime (LocalTime tv)) d.

(** [d.setDate(dt)], [d.setMonth(m)]: the date after the call. *)
Definition setDate (dt : option Z) (d : Date) : Date :=
  match d, dt with
  | Some tv, Some dt =>
      let t := LocalTime tv in
      TimeClip (UTC (MakeDate (MakeDay (YearFromTime t) (MonthFromTime t) dt)
                       (TimeWithinDay t)))
  | _, _ => None
  end.
Definition setMonth (m : option Z) (d : Date) : Date :=
  match d, m with
  | Some tv, Some m =>
      let t := LocalTime tv in
      TimeClip (UTC (MakeDate (MakeDay (YearFromTime t) m (DateFromTime t))
                       (TimeWithinDay t)))
  | _, _ => None
  end.

(** [d.setFullYear(y)]: an invalid date is taken for the time value +0. *)
Definition setFullYear (y : option Z) (d : Date) : Date :=
  match y with
  | Some y =>
      let t := match d with Some tv => LocalTime tv | None => 0 end in
      TimeClip (UTC (MakeDate (MakeDay y (MonthFromTime t) (DateFromTime t))
                       (TimeWithinDay t)))
  | None => None
  end.

(** [a + value] where [a] may be [NaN]. *)
Definition plus (a : option Z) (value : Z) : option Z :=
  option_map (fun n => n + value) a.

Inductive RelativeUnit := UnitDay | UnitWeek | UnitMonth | UnitYear.

(** [(days?|weeks?|months?|years?)$], then [unit.replace(/s$/, '')] *)
Definition unitOf (s : string) : option RelativeUnit :=
  if String.eqb s "day" || String.eqb s "days" then Some UnitDay
  else if String.eqb s "week" || String.eqb s "weeks" then Some UnitWeek
  else if String.eqb s "month" || String.eqb s "months" then Some UnitMonth
  else if String.eqb s "year" || String.eqb s "years" then Some UnitYear
  else None.

(** [(\d+)]: the longest run of digits at the head, and what follows it. *)
Fixpoint spanDigits (s : string) : string * string :=
  match s with
  | EmptyString => (EmptyString, EmptyString)
  | String c s' =>
      match JS.digitValue c with
      | Some _ => let '(digits, rest) := spanDigits s' in (String c digits, rest)
      | None => (EmptyString, s)
      end
  end.

(** [relative.match(/^([+-]?)(\d+)(days?|weeks?|months?|years?)$/)] and
    [parseInt(amount, 10) * (sign === '-' ? -1 : 1)]: the value and the
    unit, or no match. *)
Definition matchRelative (relative : string) : option (Z * RelativeUnit) :=
  let '(negative, rest) :=
    match relative with
    | String c r =>
        if Ascii.eqb c "-" then (true, r)
        else if Ascii.eqb c "+" then (false, r)
        else (false, relative)
    | EmptyString => (false, relative)
    end in
  let '(amount, unit) := spanDigits rest in
  match amount, JS.digitsValue 0 amount, unitOf unit with
  | String _ _, Some n, Some u => Some (if negative then - n else n, u)
  | _, _, _ => None
  end.

(** The [switch] of the two parsers of relative dates, on
    [result = new Date(from)]. *)
Definition shifted (value : Z) (unit : RelativeUnit) (from : Date) : Date :=
  match unit with
  | UnitDay => setDate (plus (getDate from) value) from
  | UnitWeek => setDate (plus (getDate from) (value * 7)) from
  | UnitMonth => setMonth (plus (getMonth from) value) from
  | UnitYear => setFullYear (plus (getFullYear from) value) from
  end.

Definition parseRelativeDate (relative : string) (from : Date) : Outcome Date :=
  match matchRelative relative with
  | None => Throw ("Invalid relative date format: " ++ relative)
  | Some (value, unit) => Return (shifted value unit from)
  end.

(** [d.setHours(hour, min, sec, ms)]: the date after the call. *)
Definition setHours (hour min sec ms : Z) (d : Date) : Date :=
  match d with
  | Some tv => TimeClip (UTC (MakeDate (Day (LocalTime tv)) (MakeTime hour min sec ms)))
  | None => None
  end.

(** [s.startsWith(c)] for a one-character [c]. *)
Definition startsWithChar (c : ascii) (s : string) : bool :=
  match s with
  | String c' _ => Ascii.eqb c' c
  | EmptyString => false
  end.

(** [getSyncPeriodDates(start, end)] at the clock value [clock].  What
    [new Date(string)] makes of a string outside the ISO format is up to
    the engine: the parser of the engine is the argument [parse]. *)
Definition getSyncPeriodDates (parse : string -> Date) (start end_ : string) (clock : Z)
  : Outcome (Date * Date) :=
  let now := setHours 0 0 0 0 (Some clock) in
  match
    (if String.eqb start "today" then Return now
     else if startsWithChar "+" start || startsWithChar "-" start
          then parseRelativeDate start now
          else Return (parse start))
  with
  | Throw message => Throw message
  | Return startDate =>
      match
        (if startsWithChar "+" end_ || startsWithChar "-" end_
         then parseRelativeDate end_ now
         else Return (parse end_))
      with
      | Throw message => Throw message
      | Return endDate => Return (startDate, endDate)
      end
  end.

End Zone.

End DateUtil.

(* ================================================================== *)
(** * [src/types/epitech.ts] and [src/background/epitech-api.ts] *)
(* ================================================================== *)

Module EpitechApi.
Import DateUtil.

Section Zone.
Context {zone : TimeZone}.

Record Room := {
  room_code : string;
  room_type : string;
  room_seats : Z
}.

Record Instructor := {
  prof_type : string;
  prof_login : string;
  prof_title : string;
  prof_picture : string
}.

(** [event_registered: string | false] *)
Inductive EventRegistered :=
| RegString (s : string)
| RegFalse.

(** [is_rdv]: "1", "0", true, false, or 1, 0 *)
Inductive IsRdv :=
| RdvString (s : string)
| RdvBool (b : bool)
| RdvNumber (n : Z).

Record EpitechRawEvent := {
  scolaryear : string;
  acti_title : string;
  start : string;
  end_ : string;
  room : option Room;
  codemodule : string;
  codeinstance : string;
  codeacti : string;
  codeevent : string;
  semester : Z;
  instance_location : string;
  titlemodule : string;
  prof_inst : option (list Instructor);
  registered : bool;
  event_registered : EventRegistered;
  rdv_group_registered : option string;
  rdv_indiv_registered : option string;
  module_registered : bool;
  past : bool;
  allow_register : bool;
  allow_token : bool;
  nb_hours : option string;
  nb_group : Z;
  nb_max_students_projet : option Z;
  is_rdv : IsRdv;
  type_code : option string;
  type_title : option string
}.

Record ModuleRef := {
  module_code : string;
  module_instance : string;
  module_title : string
}.

Record ActivityRef := {
  activity_code : string;
  activity_title : string
}.

Record EpitechEvent := {
  id : string;
  title : string;
  description : string;
  location : string;
  startDate : Date;
  endDate : Date;
  module : ModuleRef;
  activity : ActivityRef;
  eventCode : string;
  event_semester : Z;
  instructors : list string;
  isRegistered : bool;
  isPast : bool
}.

Definition LF : string := String (ascii_of_nat 10) EmptyString.

(** "FR/PAR/KB2-Pasteur/Bureau-APE" gives "KB2 Pasteur: Bureau APE" *)
Definition formatRoomCode (code : string) : string :=
  let parts := JS.split "/" code in
  let relevantParts := skipn 2 parts in
  match relevantParts with
  | [] => code
  | first :: others =>
      let building := JS.replaceAll "-" " " first in
      let room := JS.join " " (map (JS.replaceAll "-" " ") others) in
      if JS.truthy room then building ++ ": " ++ room else building
  end.

(** Rest of [s] after the prefix [p], letters compared without case. *)
Fixpoint afterPrefixCI (p s : string) : option string :=
  match p, s with
  | EmptyString, _ => Some s
  | String _ _, EmptyString => None
  | String a p', String b s' =>
      if Ascii.eqb (JS.upper a) (JS.upper b) then afterPrefixCI p' s' else None
  end.

Definition OBLIGATOIRE : string := "[OBLIGATOIRE]".

(** [s.replace(/\s*\[OBLIGATOIRE\]\s*/gi, ' ')]: the leftmost match from
    each position takes the white space before the tag, the tag and the
    white space after it; the scan resumes after the match. *)
Fixpoint replaceObligatoire (fuel : nat) (s : string) : string :=
  match fuel with
  | O => s
  | S fuel' =>
      match s with
      | EmptyString => EmptyString
      | String c s' =>
          match afterPrefixCI OBLIGATOIRE (JS.trimStart s) with
          | Some rest => " " ++ replaceObligatoire fuel' (JS.trimStart rest)
          | None => String c (replaceObligatoire fuel' s')
          end
      end
  end.

Definition cleanActivityTitle (title : string) : string :=
  JS.trim (replaceObligatoire (String.length title) title).

(** [formatDuration]: the argument is [NaN] ([None]) when a date of the
    slot is invalid. *)
Definition formatDuration (minutes : option Z) : string :=
  match minutes with
  | None => "NaNmin"
  | Some minutes =>
      let hours := minutes / 60 in
      let mins := Z.rem minutes 60 in
      if (hours >? 0) && (mins >? 0) then
        JS.toString hours ++ "h" ++ JS.padStart2 (JS.toString mins)
      else if hours >? 0 then
        JS.toString hours ++ "h"
      else
        JS.toString mins ++ "min"
  end.

Record TimeSlot := {
  slot_start : Date;
  slot_end : Date;
  isPersonalSlot : option bool;
  duration : option string
}.

Definition isRdvEvent (raw : EpitechRawEvent) : bool :=
  match is_rdv raw with
  | RdvString s => String.eqb s "1"
  | RdvBool b => b
  | RdvNumber n => n =? 1
  end.

(** [Math.round(durationMs / 60000)] *)
Definition roundMinutes (durationMs : Z) : Z := (durationMs + 30000) / 60000.

Definition getRealTimeSlot (raw : EpitechRawEvent) : Outcome TimeSlot :=
  if isRdvEvent raw then
    match JS.orElse (rdv_indiv_registered raw) (rdv_group_registered raw) with
    | Some slot =>
        if JS.truthy slot then
          match JS.split "|" slot with
          | realStart :: realEnd :: _ =>
              let startDate := parseEpitechDate realStart in
              let endDate := parseEpitechDate realEnd in
              let durationMin :=
                match getTime endDate, getTime startDate with
                | Some e, Some s => Some (roundMinutes (e - s))
                | _, _ => None
                end in
              Return {| slot_start := startDate;
                        slot_end := endDate;
                        isPersonalSlot := Some true;
                        duration := Some (formatDuration durationMin) |}
          | _ =>
              (* [realEnd] is [undefined]: [parseEpitechDate] fails on
                 [dateStr.split] *)
              Throw "Cannot read properties of undefined (reading 'split')"
          end
        else
          Return {| slot_start := parseEpitechDate (start raw);
                    slot_end := parseEpitechDate (end_ raw);
                    isPersonalSlot := Some false;
                    duration := nb_hours raw |}
    | None =>
        Return {| slot_start := parseEpitechDate (start raw);
                  slot_end := parseEpitechDate (end_ raw);
                  isPersonalSlot := Some false;
                  duration := nb_hours raw |}
    end
  else
    Return {| slot_start := parseEpitechDate (start raw);
              slot_end := parseEpitechDate (end_ raw);
              isPersonalSlot := None;
              duration := nb_hours raw |}.

Definition E_acute : ascii := ascii_of_nat 201.

(** "[CRÉNEAU NON RÉSERVÉ] " *)
Definition NOT_RESERVED : string :=
  "[CR" ++ String E_acute ("NEAU NON R" ++ String E_acute ("SERV" ++ String E_acute "] ")).

Definition instructorName (p : Instructor) : string :=
  if JS.truthy (prof_title p) then prof_title p else prof_login p.

Definition eventId (raw : EpitechRawEvent) : string :=
  "epitech-" ++ codeacti raw ++ "-" ++ codeevent raw.

Definition registrationOf (raw : EpitechRawEvent) : bool :=
  match event_registered raw with
  | RegString s =>
      String.eqb s "registered" || String.eqb s "present" || String.eqb s "absent"
      || registered raw
  | RegFalse => registered raw
  end.

Definition transformEvent (raw : EpitechRawEvent) (prefix : string)
  : Outcome EpitechEvent :=
  let id := eventId raw in
  let activityTitle := cleanActivityTitle (acti_title raw) in
  bindO (getRealTimeSlot raw) (fun timeSlot =>
    let isRegistered := registrationOf raw in
    let descriptionParts :=
      List.concat
        [ [ "Module: " ++ titlemodule raw;
            "Activity: " ++ activityTitle ];
          match prof_inst raw with
          | Some (p :: ps) =>
              [ "Instructor(s): " ++ JS.join ", " (map instructorName (p :: ps)) ]
          | _ => []
          end;
          match duration timeSlot with
          | Some d => if JS.truthy d then [ "Duration: " ++ d ] else []
          | None => []
          end;
          match isPersonalSlot timeSlot with
          | Some true => [ "Slot: Personal slot reserved" ]
          | Some false => [ "Slot: NOT RESERVED - Book your slot!" ]
          | None => []
          end;
          [ "Registered: " ++ (if isRegistered then "Yes" else "No");
            "";
            "Intra: " ++ ("https://intra.epitech.eu/module/" ++ scolaryear raw ++ "/"
                            ++ codemodule raw ++ "/" ++ codeinstance raw ++ "/"
                            ++ codeacti raw) ] ] in
    let location :=
      match room raw with
      | Some r => formatRoomCode (room_code r)
      | None =>
          if JS.truthy (instance_location raw) then instance_location raw
          else ""
      end in
    let title :=
      match isPersonalSlot timeSlot with
      | Some false => prefix ++ NOT_RESERVED ++ activityTitle
      | _ => prefix ++ activityTitle
      end in
    Return {| id := id;
              title := title;
              description := JS.join LF descriptionParts;
              location := location;
              startDate := slot_start timeSlot;
              endDate := slot_end timeSlot;
              module := {| module_code := codemodule raw;
                           module_instance := codeinstance raw;
                           module_title := titlemodule raw |};
              activity := {| activity_code := codeacti raw;
                             activity_title := activityTitle |};
              eventCode := codeevent raw;
              event_semester := semester raw;
              instructors := match prof_inst raw with
                             | Some ps => map instructorName ps
                             | None => []
                             end;
              isRegistered := isRegistered;
              isPast := past raw |}).

Definition isUserRegisteredToEvent (event : EpitechRawEvent) : bool :=
  match event_registered event with
  | RegString s =>
      if String.eqb s "present" || String.eqb s "registered" || String.eqb s "absent"
      then true
      else match rdv_group_registered event, rdv_indiv_registered event with
           | None, None => false
           | _, _ => true
           end
  | RegFalse =>
      match rdv_group_registered event, rdv_indiv_registered event with
      | None, None => false
      | _, _ => true
      end
  end.

(** [parseRelativeDateSimple]: [from] itself when the string is no
    relative date. *)
Definition parseRelativeDateSimple (relative : string) (from : Date) : Date :=
  match matchRelative relative with
  | None => from
  | Some (value, unit) => shifted value unit from
  end.

(** [s.match(/^[+-]\d+/)]: a sign and a digit at the head. *)
Definition signedAmount (s : string) : bool :=
  match s with
  | String c (String d _) =>
      (Ascii.eqb c "+" || Ascii.eqb c "-")
      && match JS.digitValue d with Some _ => true | None => false end
  | _ => false
  end.

(** [getDateRange(syncPeriod)] at the clock value [clock]; [parse] is
    [new Date(string)] of the engine, as in [getSyncPeriodDates]. *)
Definition getDateRange (parse : string -> Date) (start end_ : string) (clock : Z)
  : Date * Date :=
  let now := setHours 0 0 0 0 (Some clock) in
  let startDate :=
    if String.eqb start "today" then now
    else if signedAmount start then parseRelativeDateSimple start now
    else parse start in
  let endDate :=
    if signedAmount end_ then parseRelativeDateSimple end_ now
    else parse end_ in
  (startDate, endDate).

End Zone.

End EpitechApi.

(* ================================================================== *)
(** * [src/services/ics-generator.ts] *)
(* ================================================================== *)

Module IcsGenerator.
Import DateUtil EpitechApi.

Section Zone.
Context {zone : TimeZone}.

Definition backslash : ascii := ascii_of_nat 92.
Definition newline : ascii := ascii_of_nat 10.

Definition escapeIcsText (text : string) : string :=
  JS.replaceAll newline (String backslash "n")
    (JS.replaceAll "," (String backslash ",")
       (JS.replaceAll ";" (String backslash ";")
          (JS.replaceAll backslash (String backslash (String backslash EmptyString))
             text))).

Definition maxLength : nat := 75.

(** The [while (remaining.length > 0)] loop of [foldLine]; every turn
    removes [maxLength - 1] code units, so [fuel] turns are enough for a
    string of [fuel] code units. *)
Fixpoint continuationLines (fuel : nat) (remaining : string) : list string :=
  match fuel with
  | O => []
  | S fuel' =>
      if (0 <? String.length remaining)%nat then
        (" " ++ JS.take (maxLength - 1) remaining)
          :: continuationLines fuel' (JS.drop (maxLength - 1) remaining)
      else []
  end.

(** The array [lines] of [foldLine] at its [join]. *)
Definition foldedLines (line : string) : list string :=
  JS.take maxLength line
    :: continuationLines (String.length line) (JS.drop maxLength line).

Definition foldLine (line : string) : string :=
  if (String.length line <=? maxLength)%nat then line
  else JS.join CRLF (foldedLines line).

(** The physical lines [foldLine] emits for one content line. *)
Definition physicalLines (line : string) : list string :=
  if (String.length line <=? maxLength)%nat then [line]
  else foldedLines line.

Definition generateUid (event : EpitechEvent) : string :=
  id event ++ "@epitech.eu".

(** The array [lines] of [generateVEvent] before folding; [now] is the
    value of [new Date()] at the call. *)
Definition vEventLines (now : Z) (event : EpitechEvent) : Outcome (list string) :=
  bindO (toIcsDateTime (Some now)) (fun stamp =>
  bindO (toIcsDateTime (startDate event)) (fun dtstart =>
  bindO (toIcsDateTime (endDate event)) (fun dtend =>
    Return
      (List.concat
         [ [ "BEGIN:VEVENT";
             "UID:" ++ generateUid event;
             "DTSTAMP:" ++ stamp;
             "DTSTART;TZID=Europe/Paris:" ++ dtstart;
             "DTEND;TZID=Europe/Paris:" ++ dtend;
             "SUMMARY:" ++ escapeIcsText (title event) ];
           if JS.truthy (description event)
           then [ "DESCRIPTION:" ++ escapeIcsText (description event) ] else [];
           if JS.truthy (location event)
           then [ "LOCATION:" ++ escapeIcsText (location event) ] else [];
           [ "CATEGORIES:EPITECH," ++ escapeIcsText (module_title (module event));
             "STATUS:" ++ (if isRegistered event then "CONFIRMED" else "TENTATIVE");
             "TRANSP:OPAQUE";
             "SEQUENCE:0";
             "END:VEVENT" ] ])))).

Definition generateVEvent (now : Z) (event : EpitechEvent) : Outcome string :=
  bindO (vEventLines now event) (fun lines =>
    Return (JS.join CRLF (map foldLine lines))).

(** The events loop of [generateIcsContent]: [clock k] is what the
    [k]-th [new Date()] of the call returns. *)
Fixpoint generateVEvents (clock : nat -> Z) (k : nat) (events : list EpitechEvent)
  : Outcome (list string) :=
  match events with
  | [] => Return []
  | event :: rest =>
      bindO (generateVEvent (clock k) event) (fun v =>
      bindO (generateVEvents clock (S k) rest) (fun vs =>
        Return (v :: vs)))
  end.

Definition calendarHeader : list string :=
  [ "BEGIN:VCALENDAR";
    "VERSION:2.0";
    "PRODID:-//Epitech Calendar Sync//EN";
    "CALSCALE:GREGORIAN";
    "METHOD:PUBLISH";
    "X-WR-CALNAME:Epitech Calendar";
    "X-WR-TIMEZONE:Europe/Paris";
    getTimezoneVtimezone ].

Definition generateIcsContent (clock : nat -> Z) (events : list EpitechEvent)
  : Outcome string :=
  bindO (generateVEvents clock 0 events) (fun vevents =>
    Return (JS.join CRLF (List.concat [ calendarHeader; vevents; [ "END:VCALENDAR" ] ]))).

End Zone.

End IcsGenerator.

(* ================================================================== *)
(** * The host of the extension: storage, intranet, remote calendars *)
(* ================================================================== *)

(** What the sources reach through [browser.storage.local], [fetch],
    [chrome.identity] and [browser.notifications] is kept in one record,
    [Env].  An asynchronous function of the sources is a function from the
    environment to its completion and the environment it leaves. *)
Module Host.
Import DateUtil EpitechApi.

(** ** [src/types/settings.ts] *)

Record SyncPeriod := {
  period_start : string;
  period_end : string
}.

Inductive AutoSyncFrequency := every_visit | once_daily | manual.

Record AutoSync := {
  autoSync_enabled : bool;
  frequency : AutoSyncFrequency
}.

Record CalendarSettings := {
  enabled : bool;
  connected : bool;
  calendarId : option string;
  calendarName : string;
  accessToken : option string;
  refreshToken : option string;
  tokenExpiry : option Z
}.

Record IcsExportSettings := {
  ics_enabled : bool;
  autoDownload : bool
}.

Record ExtensionSettings := {
  eventPrefix : string;
  syncPeriod : SyncPeriod;
  autoSync : AutoSync;
  notificationsEnabled : bool;
  googleCalendar : CalendarSettings;
  outlookCalendar : CalendarSettings;
  icsExport : IcsExportSettings;
  lastSyncTimestamp : option Z;
  lastSyncDate : option string
}.

Definition DEFAULT_CALENDAR : CalendarSettings :=
  {| enabled := false; connected := false; calendarId := None;
     calendarName := "Epitech"; accessToken := None; refreshToken := None;
     tokenExpiry := None |}.

Definition DEFAULT_SETTINGS : ExtensionSettings :=
  {| eventPrefix := "EPITECH - ";
     syncPeriod := {| period_start := "today"; period_end := "+12months" |};
     autoSync := {| autoSync_enabled := false; frequency := once_daily |};
     notificationsEnabled := true;
     googleCalendar := DEFAULT_CALENDAR;
     outlookCalendar := DEFAULT_CALENDAR;
     icsExport := {| ics_enabled := true; autoDownload := false |};
     lastSyncTimestamp := None;
     lastSyncDate := None |}.

Record SyncStatus := {
  isConnected : bool;
  status_isSyncing : bool;
  lastSync : option Z;
  lastError : option string
}.

(** [Partial<SyncStatus>]: a field is absent ([None]) or given. *)
Record SyncStatusPatch := {
  set_isConnected : option bool;
  set_isSyncing : option bool;
  set_lastSync : option (option Z);
  set_lastError : option (option string)
}.

Definition orKeep {A : Type} (new : option A) (old : A) : A :=
  match new with Some a => a | None => old end.

(** [{ ...current, ...status }] *)
Definition applyPatch (current : SyncStatus) (p : SyncStatusPatch) : SyncStatus :=
  {| isConnected := orKeep (set_isConnected p) (isConnected current);
     status_isSyncing := orKeep (set_isSyncing p) (status_isSyncing current);
     lastSync := orKeep (set_lastSync p) (lastSync current);
     lastError := orKeep (set_lastError p) (lastError current) |}.

(** [SerializedEpitechEvent]: the event with its two dates as ISO strings. *)
Record SerializedEpitechEvent := {
  ser_event : EpitechEvent;
  ser_startDate : string;
  ser_endDate : string
}.

(** ** Remote calendar entries *)

(** [extendedProperties.private] of a Google event. *)
Record PrivateProperties := {
  epitechId : option string;
  moduleCode : option string;
  activityCode : option string;
  private_eventCode : option string
}.

(** The fields [toGoogleEvent] fills: a [GoogleCalendarEvent] without id. *)
Record GoogleEventBody := {
  summary : string;
  g_description : option string;
  g_location : option string;
  g_start : string;
  g_end : string;
  extendedProperties : option PrivateProperties
}.

Record GoogleCalendarEvent := {
  g_id : string;
  g_body : GoogleEventBody
}.

Record OutlookEventBody := {
  subject : string;
  o_content : option string;
  o_location : option string;
  o_start : string;
  o_end : string;
  (** value of the extended property [EPITECH_ID_PROP], when set *)
  o_epitechId : option string
}.

Record OutlookCalendarEvent := {
  o_id : string;
  o_body : OutlookEventBody
}.

(** ** Requests that leave the extension *)

Inductive GoogleRequest :=
| GList (calendar : string) (pageToken : option nat)
| GInsert (calendar : string) (body : GoogleEventBody)
| GUpdate (calendar : string) (eventId : string) (body : GoogleEventBody)
| GDelete (calendar : string) (eventId : string).

Inductive GraphRequest :=
| OList (calendar : string) (skip : nat)
| OCreate (calendar : string) (body : OutlookEventBody)
| OPatch (calendar : string) (eventId : string) (body : OutlookEventBody)
| ODelete (calendar : string) (eventId : string).

Inductive Call :=
| StorageGet (key : string)
| StorageSet (key : string)
| FetchUser
| FetchPlanning
| Google (r : GoogleRequest)
| Graph (r : GraphRequest)
| NotificationsCreate (title message : string).

(** ** The environment *)

Record Env := {
  (** [browser.storage.local] at the three keys of [storage/settings.ts] *)
  stored_settings : option ExtensionSettings;
  stored_status : option SyncStatus;
  stored_events : option (list SerializedEpitechEvent);
  (** the intranet: whether the session is logged in, and the records
      [/planning/load] answers with for the configured period *)
  authenticated : bool;
  planning : list EpitechRawEvent;
  (** the entries of the Google and of the Outlook calendar synced to *)
  google : list GoogleCalendarEvent;
  outlook : list OutlookCalendarEvent;
  (** notifications shown, oldest first *)
  notifications : list (string * string);
  (** [Date.now()] *)
  now : Z;
  (** the calls that fail, each with the message of the [Error] thrown *)
  faults : Call -> option string;
  (** every call made, oldest first *)
  trace : list Call
}.

Definition M (A : Type) : Type := Env -> Outcome A * Env.

Definition ret {A : Type} (a : A) : M A := fun env => (Return a, env).
Definition throw {A : Type} (message : string) : M A := fun env => (Throw message, env).

Definition bind {A B : Type} (m : M A) (k : A -> M B) : M B :=
  fun env =>
    match m env with
    | (Return a, env') => k a env'
    | (Throw message, env') => (Throw message, env')
    end.

(** [try { m } catch (error) { handler(error.message) }] *)
Definition tryCatch {A : Type} (m : M A) (handler : string -> M A) : M A :=
  fun env =>
    match m env with
    | (Return a, env') => (Return a, env')
    | (Throw message, env') => handler message env'
    end.

(** A pure computation that may throw, run inside an asynchronous one. *)
Definition lift {A : Type} (o : Outcome A) : M A := fun env => (o, env).

Definition logCall (c : Call) (env : Env) : Env :=
  {| stored_settings := stored_settings env;
     stored_status := stored_status env;
     stored_events := stored_events env;
     authenticated := authenticated env;
     planning := planning env;
     google := google env;
     outlook := outlook env;
     notifications := notifications env;
     now := now env;
     faults := faults env;
     trace := (trace env ++ [c])%list |}.

(** One call out of the extension: it is recorded, then it either fails
    as [faults] says or has its [effect]. *)
Definition call {A : Type} (c : Call) (effect : Env -> Outcome A * Env) : M A :=
  fun env =>
    let env1 := logCall c env in
    match faults env c with
    | Some message => (Throw message, env1)
    | None => effect env1
    end.

Definition dateNow : M Z := fun env => (Return (now env), env).

End Host.

(* ================================================================== *)
(** * [src/storage/settings.ts] *)
(* ================================================================== *)

Module Storage.
Import DateUtil EpitechApi Host.

Declare Scope host_scope.
Delimit Scope host_scope with host.
Notation "x <- m ;; k" := (bind m (fun x => k))
  (at level 61, m at next level, right associativity) : host_scope.
Notation "m ;;; k" := (bind m (fun _ => k))
  (at level 61, right associativity) : host_scope.
Local Open Scope host_scope.

Definition SETTINGS_KEY : string := "epitech_calendar_settings".
Definition SYNC_STATUS_KEY : string := "epitech_sync_status".
Definition CACHED_EVENTS_KEY : string := "epitech_cached_events".

Definition setSettings (s : ExtensionSettings) (env : Env) : Env :=
  {| stored_settings := Some s;
     stored_status := stored_status env;
     stored_events := stored_events env;
     authenticated := authenticated env;
     planning := planning env;
     google := google env;
     outlook := outlook env;
     notifications := notifications env;
     now := now env;
     faults := faults env;
     trace := trace env |}.

Definition setStatus (s : SyncStatus) (env : Env) : Env :=
  {| stored_settings := stored_settings env;
     stored_status := Some s;
     stored_events := stored_events env;
     authenticated := authenticated env;
     planning := planning env;
     google := google env;
     outlook := outlook env;
     notifications := notifications env;
     now := now env;
     faults := faults env;
     trace := trace env |}.

Definition setEvents (l : list SerializedEpitechEvent) (env : Env) : Env :=
  {| stored_settings := stored_settings env;
     stored_status := stored_status env;
     stored_events := Some l;
     authenticated := authenticated env;
     planning := planning env;
     google := google env;
     outlook := outlook env;
     notifications := notifications env;
     now := now env;
     faults := faults env;
     trace := trace env |}.

(** [getSettings]: what is stored, or the defaults.  (A stored value is a
    whole settings record here, so the merge with the defaults returns it.) *)
Definition getSettings : M ExtensionSettings :=
  call (StorageGet SETTINGS_KEY) (fun env =>
    match stored_settings env with
    | None => (Return DEFAULT_SETTINGS, env)
    | Some stored => (Return stored, env)
    end).

(** [saveSettings(settings)]: [{ ...current, ...settings }] is [update current]. *)
Definition saveSettings (update : ExtensionSettings -> ExtensionSettings) : M unit :=
  current <- getSettings ;;
  call (StorageSet SETTINGS_KEY) (fun env =>
    (Return tt, setSettings (update current) env)).

Definition getSyncStatus : M SyncStatus :=
  call (StorageGet SYNC_STATUS_KEY) (fun env =>
    match stored_status env with
    | Some stored => (Return stored, env)
    | None =>
        (Return {| isConnected := false; status_isSyncing := false;
                   lastSync := None; lastError := None |}, env)
    end).

Definition updateSyncStatus (status : SyncStatusPatch) : M unit :=
  current <- getSyncStatus ;;
  call (StorageSet SYNC_STATUS_KEY) (fun env =>
    (Return tt, setStatus (applyPatch current status) env)).

Definition serializeEvent (event : EpitechEvent) : Outcome SerializedEpitechEvent :=
  bindO (toISOString (startDate event)) (fun s =>
  bindO (toISOString (endDate event)) (fun e =>
    Return {| ser_event := event; ser_startDate := s; ser_endDate := e |})).

Definition cacheEvents (events : list EpitechEvent) : M unit :=
  serialized <- lift (mapO serializeEvent events) ;;
  call (StorageSet CACHED_EVENTS_KEY) (fun env =>
    (Return tt, setEvents serialized env)).

(** [new Date().toISOString().split('T')[0]] *)
Definition isoDay (t : Z) : Outcome string :=
  bindO (toISOString (Some t)) (fun iso =>
    Return (nth 0 (JS.split "T" iso) EmptyString)).

Definition markSyncCompleted : M unit :=
  t <- dateNow ;;
  t' <- dateNow ;;
  today <- lift (isoDay t') ;;
  saveSettings (fun current =>
    {| eventPrefix := eventPrefix current;
       syncPeriod := syncPeriod current;
       autoSync := autoSync current;
       notificationsEnabled := notificationsEnabled current;
       googleCalendar := googleCalendar current;
       outlookCalendar := outlookCalendar current;
       icsExport := icsExport current;
       lastSyncTimestamp := Some t;
       lastSyncDate := Some today |}) ;;;
  updateSyncStatus
    {| set_isConnected := None; set_isSyncing := None;
       set_lastSync := Some (Some t); set_lastError := Some None |}.

(** [shouldAutoSync]: [settings.lastSyncDate !== today] holds of a date
    that is [null]. *)
Definition shouldAutoSync : M bool :=
  settings <- getSettings ;;
  if negb (autoSync_enabled (autoSync settings)) then ret false
  else
    match frequency (autoSync settings) with
    | every_visit => ret true
    | once_daily =>
        t <- dateNow ;;
        today <- lift (isoDay t) ;;
        ret (negb (match lastSyncDate settings with
                   | Some d => String.eqb d today
                   | None => false
                   end))
    | manual => ret false
    end.

(** [{ ...event, startDate: new Date(event.startDate), endDate: ... }] *)
Definition deserializeEvent (cached : SerializedEpitechEvent) : EpitechEvent :=
  let event := ser_event cached in
  {| id := id event;
     title := title event;
     description := description event;
     location := location event;
     startDate := fromISOString (ser_startDate cached);
     endDate := fromISOString (ser_endDate cached);
     module := module event;
     activity := activity event;
     eventCode := eventCode event;
     event_semester := event_semester event;
     instructors := instructors event;
     isRegistered := isRegistered event;
     isPast := isPast event |}.

(** [getCachedEvents]: [null] when nothing is stored. *)
Definition getCachedEvents : M (option (list EpitechEvent)) :=
  call (StorageGet CACHED_EVENTS_KEY) (fun env =>
    match stored_events env with
    | None => (Return None, env)
    | Some cached => (Return (Some (map deserializeEvent cached)), env)
    end).

End Storage.

(* ================================================================== *)
(** * [src/services/google-calendar.ts] *)
(* ================================================================== *)

Module GoogleCalendar.
Import DateUtil EpitechApi Host Storage.
Local Open Scope host_scope.

Record SyncResultDetails := {
  created : nat;
  updated : nat;
  deleted : nat;
  errors : list string
}.

Definition incrCreated (r : SyncResultDetails) : SyncResultDetails :=
  {| created := S (created r); updated := updated r;
     deleted := deleted r; errors := errors r |}.
Definition incrUpdated (r : SyncResultDetails) : SyncResultDetails :=
  {| created := created r; updated := S (updated r);
     deleted := deleted r; errors := errors r |}.
Definition incrDeleted (r : SyncResultDetails) : SyncResultDetails :=
  {| created := created r; updated := updated r;
     deleted := S (deleted r); errors := errors r |}.
Definition pushError (e : string) (r : SyncResultDetails) : SyncResultDetails :=
  {| created := created r; updated := updated r;
     deleted := deleted r; errors := (errors r ++ [e])%list |}.

(** ** The calendar service behind [googleApiRequest]

    The service is the Calendar API of Google, as the requests of the
    source address it: [events.list] returns, page by page, the entries
    that satisfy the constraint of the query; [events.insert] adds an
    entry under an identifier of the service's choice and [events.update]
    replaces the entry of a given identifier, both answering with the
    entry; [events.delete] removes the entry and answers 204 No Content,
    without a body; an identifier that names no entry is answered 404. *)

Definition tagOf (ev : GoogleCalendarEvent) : option string :=
  match extendedProperties (g_body ev) with
  | Some p => epitechId p
  | None => None
  end.

(** [privateExtendedProperty: 'epitechId=epitech-']: the constraint is
    [propertyName=value], and the service returns the entries whose
    private property [epitechId] has that value, [epitech-]; it is no
    prefix search. *)
Definition matchesQuery (ev : GoogleCalendarEvent) : bool :=
  match tagOf ev with
  | Some t => String.eqb t "epitech-"
  | None => false
  end.

Definition maxResults : nat := 2500.

Definition setGoogle (l : list GoogleCalendarEvent) (env : Env) : Env :=
  {| stored_settings := stored_settings env;
     stored_status := stored_status env;
     stored_events := stored_events env;
     authenticated := authenticated env;
     planning := planning env;
     google := l;
     outlook := outlook env;
     notifications := notifications env;
     now := now env;
     faults := faults env;
     trace := trace env |}.

Definition hasId (eventId : string) (ev : GoogleCalendarEvent) : bool :=
  String.eqb (g_id ev) eventId.

(** An identifier no entry of the calendar has: longer than all of them. *)
Definition freshId (l : list GoogleCalendarEvent) : string :=
  "e" ++ zeros (list_max (map (fun ev => String.length (g_id ev)) l)).

Definition notFound : string := "Google API error: 404 - Not Found".

Record ListResponse := {
  items : list GoogleCalendarEvent;
  nextPageToken : option nat
}.

(** The message of the [SyntaxError] of [JSON.parse] on an empty text, in
    the engine of Chrome, where the Google adapter runs. *)
Definition emptyBody : string := "Unexpected end of JSON input".

(** [return response.json()], the last line of [googleApiRequest], on the
    body of a reply, if it has one: the promise is rejected when there is
    no body to parse.  [googleApiRequest] has no case for a reply without
    body (the 204 of a delete), as [graphApiRequest] has. *)
Definition responseJson {A : Type} (body : option A) : Outcome A :=
  match body with
  | Some a => Return a
  | None => Throw emptyBody
  end.

(** [googleApiRequest]: the request [r] is sent; when it fails, or the
    service answers with an error, an [Error] is thrown; else the body of
    the reply is parsed. *)
Definition googleApiRequest {A : Type} (r : GoogleRequest)
  (service : Env -> Outcome (option A) * Env) : M A :=
  call (Google r) (fun env =>
    match service env with
    | (Return body, env') => (responseJson body, env')
    | (Throw message, env') => (Throw message, env')
    end).

(** [GET /calendars/{id}/events?maxResults=2500&privateExtendedProperty=...] *)
Definition listRequest (calendar : string) (pageToken : option nat) : M ListResponse :=
  googleApiRequest (GList calendar pageToken) (fun env =>
    let matching := filter matchesQuery (google env) in
    let offset := match pageToken with Some n => n | None => O end in
    (Return (Some {| items := firstn maxResults (skipn offset matching);
                     nextPageToken :=
                       if (offset + maxResults <? List.length matching)%nat
                       then Some (offset + maxResults)%nat else None |}), env)).

(** [POST /calendars/{id}/events] *)
Definition insertRequest (calendar : string) (body : GoogleEventBody)
  : M GoogleCalendarEvent :=
  googleApiRequest (GInsert calendar body) (fun env =>
    let entry := {| g_id := freshId (google env); g_body := body |} in
    (Return (Some entry), setGoogle (google env ++ [entry])%list env)).

(** [PUT /calendars/{id}/events/{eventId}] with [{ ...body, id: eventId }] *)
Definition updateRequest (calendar eventId : string) (body : GoogleEventBody)
  : M GoogleCalendarEvent :=
  googleApiRequest (GUpdate calendar eventId body) (fun env =>
    if existsb (hasId eventId) (google env) then
      let entry := {| g_id := eventId; g_body := body |} in
      (Return (Some entry),
       setGoogle (map (fun ev => if hasId eventId ev then entry else ev) (google env)) env)
    else (Throw notFound, env)).

(** [DELETE /calendars/{id}/events/{eventId}]: the entry is removed and
    the reply has no body. *)
Definition deleteRequest (calendar eventId : string) : M unit :=
  googleApiRequest (GDelete calendar eventId) (fun env =>
    if existsb (hasId eventId) (google env) then
      (Return None, setGoogle (filter (fun ev => negb (hasId eventId ev)) (google env)) env)
    else (Throw notFound, env)).

(** ** The adapter *)

Definition toGoogleEvent (event : EpitechEvent) : Outcome GoogleEventBody :=
  bindO (toISOString (startDate event)) (fun startIso =>
  bindO (toISOString (endDate event)) (fun endIso =>
    Return {| summary := title event;
              g_description := Some (description event);
              g_location := if JS.truthy (location event)
                            then Some (location event) else None;
              g_start := startIso;
              g_end := endIso;
              extendedProperties :=
                Some {| epitechId := Some (id event);
                        moduleCode := Some (module_code (module event));
                        activityCode := Some (activity_code (activity event));
                        private_eventCode := Some (eventCode event) |} |})).

(** A [Map<string, GoogleCalendarEvent>]: the entries in insertion order. *)
Definition EventMap : Type := list (string * GoogleCalendarEvent).

Fixpoint mapSet (k : string) (v : GoogleCalendarEvent) (m : EventMap) : EventMap :=
  match m with
  | [] => [(k, v)]
  | (k', v') :: m' =>
      if String.eqb k' k then (k', v) :: m' else (k', v') :: mapSet k v m'
  end.

Fixpoint mapGet (k : string) (m : EventMap) : option GoogleCalendarEvent :=
  match m with
  | [] => None
  | (k', v') :: m' => if String.eqb k' k then Some v' else mapGet k m'
  end.

(** [for (const event of response.items || [])] of [getExistingEvents] *)
Definition collect (events : EventMap) (page : list GoogleCalendarEvent) : EventMap :=
  fold_left (fun m ev =>
               match tagOf ev with
               | Some epitechId => if JS.truthy epitechId then mapSet epitechId ev m else m
               | None => m
               end) page events.

(** The [do ... while (pageToken)] loop, [fuel] turns at most. *)
Fixpoint listPages (fuel : nat) (calendar : string) (pageToken : option nat)
  (events : EventMap) : M EventMap :=
  match fuel with
  | O => ret events
  | S fuel' =>
      response <- listRequest calendar pageToken ;;
      let events' := collect events (items response) in
      match nextPageToken response with
      | Some token => listPages fuel' calendar (Some token) events'
      | None => ret events'
      end
  end.

(** The service hands out at most one page per entry and one more, so the
    loop is given that many turns. *)
Definition getExistingEvents (calendar : string) : M EventMap :=
  fun env => listPages (S (List.length (google env))) calendar None [] env.

(** One turn of the create-or-update loop. *)
Definition upsert (calendar : string) (existingEvents : EventMap) (event : EpitechEvent)
  (result : SyncResultDetails) (env : Env) : Outcome unit * SyncResultDetails * Env :=
  match toGoogleEvent event with
  | Throw message => (Throw message, result, env)
  | Return googleEvent =>
      match mapGet (id event) existingEvents with
      | Some existing =>
          match updateRequest calendar (g_id existing) googleEvent env with
          | (Return _, env') => (Return tt, incrUpdated result, env')
          | (Throw errorMsg, env') =>
              (Return tt, pushError ("Event " ++ id event ++ ": " ++ errorMsg) result, env')
          end
      | None =>
          match insertRequest calendar googleEvent env with
          | (Return _, env') => (Return tt, incrCreated result, env')
          | (Throw errorMsg, env') =>
              (Return tt, pushError ("Event " ++ id event ++ ": " ++ errorMsg) result, env')
          end
      end
  end.

Fixpoint upsertAll (calendar : string) (existingEvents : EventMap)
  (events : list EpitechEvent) (result : SyncResultDetails) (env : Env)
  : Outcome unit * SyncResultDetails * Env :=
  match events with
  | [] => (Return tt, result, env)
  | event :: rest =>
      match upsert calendar existingEvents event result env with
      | (Return _, result', env') => upsertAll calendar existingEvents rest result' env'
      | (Throw message, result', env') => (Throw message, result', env')
      end
  end.

(** The delete loop over the entries of the map; [processedIds] holds the
    id of every canonical event once the first loop is over. *)
Fixpoint deleteAll (calendar : string) (processedIds : list string)
  (entries : EventMap) (result : SyncResultDetails) (env : Env)
  : Outcome unit * SyncResultDetails * Env :=
  match entries with
  | [] => (Return tt, result, env)
  | (epitechId, googleEvent) :: rest =>
      if existsb (String.eqb epitechId) processedIds then
        deleteAll calendar processedIds rest result env
      else
        match deleteRequest calendar (g_id googleEvent) env with
        | (Return _, env') =>
            deleteAll calendar processedIds rest (incrDeleted result) env'
        | (Throw errorMsg, env') =>
            deleteAll calendar processedIds rest
              (pushError ("Delete " ++ epitechId ++ ": " ++ errorMsg) result) env'
        end
  end.

Definition emptyResult : SyncResultDetails :=
  {| created := 0; updated := 0; deleted := 0; errors := [] |}.

(** The body of the outer [try] of [syncToGoogleCalendar]. *)
Definition reconcile (calendar : string) (events : list EpitechEvent) (env : Env)
  : Outcome unit * SyncResultDetails * Env :=
  match getExistingEvents calendar env with
  | (Throw message, env1) => (Throw message, emptyResult, env1)
  | (Return existingEvents, env1) =>
      match upsertAll calendar existingEvents events emptyResult env1 with
      | (Throw message, result, env2) => (Throw message, result, env2)
      | (Return _, result, env2) =>
          deleteAll calendar (map id events) existingEvents result env2
      end
  end.

Definition syncToGoogleCalendar (events : list EpitechEvent) : M SyncResultDetails :=
  settings <- getSettings ;;
  match calendarId (googleCalendar settings) with
  | Some calendar =>
      if JS.truthy calendar then
        fun env =>
          match reconcile calendar events env with
          | (Return _, result, env') => (Return result, env')
          | (Throw errorMsg, result, env') => (Return (pushError errorMsg result), env')
          end
      else throw "Google Calendar not connected"
  | None => throw "Google Calendar not connected"
  end.

End GoogleCalendar.

(* ================================================================== *)
(** * [src/services/outlook-calendar.ts] *)
(* ================================================================== *)

Module OutlookCalendar.
Import DateUtil EpitechApi Host Storage.
Import GoogleCalendar(SyncResultDetails, created, updated, deleted, errors,
                      incrCreated, incrUpdated, incrDeleted, pushError, emptyResult).
Local Open Scope host_scope.

Definition setOutlook (l : list OutlookCalendarEvent) (env : Env) : Env :=
  {| stored_settings := stored_settings env;
     stored_status := stored_status env;
     stored_events := stored_events env;
     authenticated := authenticated env;
     planning := planning env;
     google := google env;
     outlook := l;
     notifications := notifications env;
     now := now env;
     faults := faults env;
     trace := trace env |}.

Definition getAccessToken : M string :=
  settings <- getSettings ;;
  match accessToken (outlookCalendar settings) with
  | Some token =>
      if JS.truthy token then
        t <- dateNow ;;
        match tokenExpiry (outlookCalendar settings) with
        | Some expiry =>
            if negb (expiry =? 0) && (t >? expiry)
            then throw "Outlook token expired. Please reconnect."
            else ret token
        | None => ret token
        end
      else throw "Not connected to Outlook Calendar"
  | None => throw "Not connected to Outlook Calendar"
  end.

(** [graphApiRequest]: the token first, then the request itself. *)
Definition graphApiRequest {A : Type} (r : GraphRequest)
  (effect : Env -> Outcome A * Env) : M A :=
  getAccessToken ;;; call (Graph r) effect.

Definition hasId (eventId : string) (ev : OutlookCalendarEvent) : bool :=
  String.eqb (o_id ev) eventId.

Definition matchesFilter (ev : OutlookCalendarEvent) : bool :=
  match o_epitechId (o_body ev) with
  | Some v => String.prefix "epitech-" v
  | None => false
  end.

Definition top : nat := 100.

Definition freshId (l : list OutlookCalendarEvent) : string :=
  "o" ++ zeros (list_max (map (fun ev => String.length (o_id ev)) l)).

Definition notFound : string := "Graph API error: 404 - Not Found".

Record ListResponse := {
  value : list OutlookCalendarEvent;
  nextLink : option nat
}.

Definition listRequest (calendar : string) (skip : nat) : M ListResponse :=
  graphApiRequest (OList calendar skip) (fun env =>
    let matching := filter matchesFilter (outlook env) in
    (Return {| value := firstn top (skipn skip matching);
               nextLink := if (skip + top <? List.length matching)%nat
                           then Some (skip + top)%nat else None |}, env)).

Definition createRequest (calendar : string) (body : OutlookEventBody) : M unit :=
  graphApiRequest (OCreate calendar body) (fun env =>
    (Return tt,
     setOutlook (outlook env ++ [ {| o_id := freshId (outlook env); o_body := body |} ])%list env)).

(** [PATCH]: the fields of the body replace those of the entry; a
    location that is [undefined] is not sent and leaves the old one. *)
Definition patchBody (old new : OutlookEventBody) : OutlookEventBody :=
  {| subject := subject new;
     o_content := o_content new;
     o_location := match o_location new with
                   | Some l => Some l
                   | None => o_location old
                   end;
     o_start := o_start new;
     o_end := o_end new;
     o_epitechId := o_epitechId new |}.

Definition patchRequest (calendar eventId : string) (body : OutlookEventBody) : M unit :=
  graphApiRequest (OPatch calendar eventId body) (fun env =>
    if existsb (hasId eventId) (outlook env) then
      (Return tt,
       setOutlook (map (fun ev => if hasId eventId ev
                                  then {| o_id := eventId;
                                          o_body := patchBody (o_body ev) body |}
                                  else ev) (outlook env)) env)
    else (Throw notFound, env)).

Definition deleteRequest (calendar eventId : string) : M unit :=
  graphApiRequest (ODelete calendar eventId) (fun env =>
    if existsb (hasId eventId) (outlook env) then
      (Return tt, setOutlook (filter (fun ev => negb (hasId eventId ev)) (outlook env)) env)
    else (Throw notFound, env)).

Definition dropZ (iso : string) : string :=
  match JS.split "Z" iso with
  | [] => iso
  | first :: rest => first ++ String.concat "Z" rest
  end.

Definition toOutlookEvent (event : EpitechEvent) : Outcome OutlookEventBody :=
  bindO (toISOString (startDate event)) (fun startIso =>
  bindO (toISOString (endDate event)) (fun endIso =>
    Return {| subject := title event;
              o_content := Some (description event);
              o_location := if JS.truthy (location event)
                            then Some (location event) else None;
              o_start := dropZ startIso;
              o_end := dropZ endIso;
              o_epitechId := Some (id event) |})).

Definition EventMap : Type := list (string * OutlookCalendarEvent).

Fixpoint mapSet (k : string) (v : OutlookCalendarEvent) (m : EventMap) : EventMap :=
  match m with
  | [] => [(k, v)]
  | (k', v') :: m' =>
      if String.eqb k' k then (k', v) :: m' else (k', v') :: mapSet k v m'
  end.

Fixpoint mapGet (k : string) (m : EventMap) : option OutlookCalendarEvent :=
  match m with
  | [] => None
  | (k', v') :: m' => if String.eqb k' k then Some v' else mapGet k m'
  end.

Definition collect (events : EventMap) (page : list OutlookCalendarEvent) : EventMap :=
  fold_left (fun m ev =>
               match o_epitechId (o_body ev) with
               | Some v => mapSet v ev m
               | None => m
               end) page events.

(** The [while (url)] loop. *)
Fixpoint listPages (fuel : nat) (calendar : string) (skip : nat)
  (events : EventMap) : M EventMap :=
  match fuel with
  | O => ret events
  | S fuel' =>
      response <- listRequest calendar skip ;;
      let events' := collect events (value response) in
      match nextLink response with
      | Some next => listPages fuel' calendar next events'
      | None => ret events'
      end
  end.

Definition getExistingEvents (calendar : string) : M EventMap :=
  fun env => listPages (S (List.length (outlook env))) calendar 0 [] env.

Definition upsert (calendar : string) (existingEvents : EventMap) (event : EpitechEvent)
  (result : SyncResultDetails) (env : Env) : Outcome unit * SyncResultDetails * Env :=
  match toOutlookEvent event with
  | Throw message => (Throw message, result, env)
  | Return outlookEvent =>
      match mapGet (id event) existingEvents with
      | Some existing =>
          match patchRequest calendar (o_id existing) outlookEvent env with
          | (Return _, env') => (Return tt, incrUpdated result, env')
          | (Throw errorMsg, env') =>
              (Return tt, pushError ("Event " ++ id event ++ ": " ++ errorMsg) result, env')
          end
      | None =>
          match createRequest calendar outlookEvent env with
          | (Return _, env') => (Return tt, incrCreated result, env')
          | (Throw errorMsg, env') =>
              (Return tt, pushError ("Event " ++ id event ++ ": " ++ errorMsg) result, env')
          end
      end
  end.

Fixpoint upsertAll (calendar : string) (existingEvents : EventMap)
  (events : list EpitechEvent) (result : SyncResultDetails) (env : Env)
  : Outcome unit * SyncResultDetails * Env :=
  match events with
  | [] => (Return tt, result, env)
  | event :: rest =>
      match upsert calendar existingEvents event result env with
      | (Return _, result', env') => upsertAll calendar existingEvents rest result' env'
      | (Throw message, result', env') => (Throw message, result', env')
      end
  end.

Fixpoint deleteAll (calendar : string) (processedIds : list string)
  (entries : EventMap) (result : SyncResultDetails) (env : Env)
  : Outcome unit * SyncResultDetails * Env :=
  match entries with
  | [] => (Return tt, result, env)
  | (epitechId, outlookEvent) :: rest =>
      if existsb (String.eqb epitechId) processedIds then
        deleteAll calendar processedIds rest result env
      else
        match deleteRequest calendar (o_id outlookEvent) env with
        | (Return _, env') =>
            deleteAll calendar processedIds rest (incrDeleted result) env'
        | (Throw errorMsg, env') =>
            deleteAll calendar processedIds rest
              (pushError ("Delete " ++ epitechId ++ ": " ++ errorMsg) result) env'
        end
  end.

Definition reconcile (calendar : string) (events : list EpitechEvent) (env : Env)
  : Outcome unit * SyncResultDetails * Env :=
  match getExistingEvents calendar env with
  | (Throw message, env1) => (Throw message, emptyResult, env1)
  | (Return existingEvents, env1) =>
      match upsertAll calendar existingEvents events emptyResult env1 with
      | (Throw message, result, env2) => (Throw message, result, env2)
      | (Return _, result, env2) =>
          deleteAll calendar (map id events) existingEvents result env2
      end
  end.

Definition syncToOutlookCalendar (events : list EpitechEvent) : M SyncResultDetails :=
  settings <- getSettings ;;
  match calendarId (outlookCalendar settings) with
  | Some calendar =>
      if JS.truthy calendar then
        fun env =>
          match reconcile calendar events env with
          | (Return _, result, env') => (Return result, env')
          | (Throw errorMsg, result, env') => (Return (pushError errorMsg result), env')
          end
      else throw "Outlook Calendar not connected"
  | None => throw "Outlook Calendar not connected"
  end.

End OutlookCalendar.

(* ================================================================== *)
(** * [src/background/epitech-api.ts], the fetching part *)
(* ================================================================== *)

Module EpitechFetch.
Import DateUtil EpitechApi Host Storage.
Local Open Scope host_scope.

Section Zone.
Context {zone : TimeZone}.

(** [checkAuthentication] never throws: a failed request is "not
    authenticated". *)
Definition checkAuthentication : M bool :=
  tryCatch
    (call FetchUser (fun env => (Return (authenticated env), env)))
    (fun _ => ret false).

(** [fetchPlanningEvents]; the date range of the query is left to the
    intranet, which answers with [planning]. *)
Definition fetchPlanningEvents : M (list EpitechRawEvent) :=
  call FetchPlanning (fun env => (Return (planning env), env)).

Definition getEventsForSync : M (list EpitechEvent) :=
  settings <- getSettings ;;
  rawEvents <- fetchPlanningEvents ;;
  let registeredEvents := filter isUserRegisteredToEvent rawEvents in
  lift (mapO (fun event => transformEvent event (eventPrefix settings)) registeredEvents).

End Zone.

End EpitechFetch.

(* ================================================================== *)
(** * [src/background/sync-manager.ts] *)
(* ================================================================== *)

Module SyncManager.
Import DateUtil EpitechApi Host Storage EpitechFetch.
Local Open Scope host_scope.

Section Zone.
Context {zone : TimeZone}.

Record SyncResult := {
  success : bool;
  timestamp : Z;
  eventsProcessed : nat;
  eventsCreated : nat;
  eventsUpdated : nat;
  eventsDeleted : nat;
  errors : list string;
  details : list string
}.

(** The module of the orchestrator: its variable [isSyncing], which no
    other module can reach, and the environment. *)
Record State := {
  isSyncing : bool;
  env : Env
}.

Definition freshResult (t : Z) : SyncResult :=
  {| success := true; timestamp := t;
     eventsProcessed := 0; eventsCreated := 0; eventsUpdated := 0; eventsDeleted := 0;
     errors := []; details := [] |}.

(** A step of the body of [performSync]: it reads and writes the local
    object [result] and the environment. *)
Definition Step (A : Type) : Type := SyncResult -> Env -> Outcome A * SyncResult * Env.

Definition stepBind {A B : Type} (m : Step A) (k : A -> Step B) : Step B :=
  fun result env =>
    match m result env with
    | (Return a, result', env') => k a result' env'
    | (Throw message, result', env') => (Throw message, result', env')
    end.

Definition await {A : Type} (m : M A) : Step A :=
  fun result env =>
    match m env with
    | (o, env') => (o, result, env')
    end.

Definition modify (f : SyncResult -> SyncResult) : Step unit :=
  fun result env => (Return tt, f result, env).

Definition getResult : Step SyncResult :=
  fun result env => (Return result, result, env).

Definition stepTryCatch {A : Type} (m : Step A) (handler : string -> Step A) : Step A :=
  fun result env =>
    match m result env with
    | (Return a, result', env') => (Return a, result', env')
    | (Throw message, result', env') => handler message result' env'
    end.

Definition setProcessed (n : nat) (r : SyncResult) : SyncResult :=
  {| success := success r; timestamp := timestamp r;
     eventsProcessed := n; eventsCreated := eventsCreated r;
     eventsUpdated := eventsUpdated r; eventsDeleted := eventsDeleted r;
     errors := errors r; details := details r |}.

Definition addCounts (d : GoogleCalendar.SyncResultDetails) (r : SyncResult) : SyncResult :=
  {| success := success r; timestamp := timestamp r;
     eventsProcessed := eventsProcessed r;
     eventsCreated := eventsCreated r + GoogleCalendar.created d;
     eventsUpdated := eventsUpdated r + GoogleCalendar.updated d;
     eventsDeleted := eventsDeleted r + GoogleCalendar.deleted d;
     errors := errors r; details := details r |}%nat.

Definition pushErrors (es : list string) (r : SyncResult) : SyncResult :=
  {| success := success r; timestamp := timestamp r;
     eventsProcessed := eventsProcessed r; eventsCreated := eventsCreated r;
     eventsUpdated := eventsUpdated r; eventsDeleted := eventsDeleted r;
     errors := (errors r ++ es)%list; details := details r |}.

Definition setSuccess (b : bool) (r : SyncResult) : SyncResult :=
  {| success := b; timestamp := timestamp r;
     eventsProcessed := eventsProcessed r; eventsCreated := eventsCreated r;
     eventsUpdated := eventsUpdated r; eventsDeleted := eventsDeleted r;
     errors := errors r; details := details r |}.

Definition isEmpty {A : Type} (l : list A) : bool :=
  match l with [] => true | _ => false end.

Definition addNotification (title message : string) (env : Env) : Env :=
  {| stored_settings := stored_settings env;
     stored_status := stored_status env;
     stored_events := stored_events env;
     authenticated := authenticated env;
     planning := planning env;
     google := google env;
     outlook := outlook env;
     notifications := (notifications env ++ [(title, message)])%list;
     now := now env;
     faults := faults env;
     trace := trace env |}.

(** [browser.notifications.create] *)
Definition notificationsCreate (title message : string) : M unit :=
  call (NotificationsCreate title message) (fun env =>
    (Return tt, addNotification title message env)).

Definition showNotification (result : SyncResult) : M unit :=
  let title := if success result
               then "Epitech Calendar Sync - Success"
               else "Epitech Calendar Sync - Completed with errors" in
  let count (n : nat) := JS.toString (Z.of_nat n) in
  let message :=
    if success result
    then "Synced " ++ count (eventsProcessed result) ++ " events. Created: "
           ++ count (eventsCreated result) ++ ", Updated: "
           ++ count (eventsUpdated result) ++ ", Deleted: "
           ++ count (eventsDeleted result)
    else "Synced with " ++ count (List.length (errors result)) ++ " error(s). "
           ++ nth 0 (errors result) "undefined" in
  notificationsCreate title message.

Definition notAuthenticated : string :=
  "Not authenticated to Epitech intranet. Please visit intra.epitech.eu and log in.".

(** One remote service of the [try] block: its own [try]/[catch]. *)
Definition syncService (label failure : string)
  (sync : list EpitechEvent -> M GoogleCalendar.SyncResultDetails)
  (events : list EpitechEvent) : Step unit :=
  stepTryCatch
    (stepBind (await (sync events)) (fun serviceResult =>
       stepBind (modify (addCounts serviceResult)) (fun _ =>
         if (0 <? List.length (GoogleCalendar.errors serviceResult))%nat
         then modify (pushErrors (map (fun e => label ++ e)
                                    (GoogleCalendar.errors serviceResult)))
         else modify (fun r => r))))
    (fun errorMsg => modify (pushErrors [failure ++ errorMsg])).

(** The [try] block of [performSync]. *)
Definition tryBlock (manual : bool) : Step unit :=
  stepBind (await checkAuthentication) (fun authCheck =>
  stepBind (if authCheck then modify (fun r => r)
            else await (throw notAuthenticated)) (fun _ =>
  stepBind (await (updateSyncStatus
                     {| set_isConnected := Some true; set_isSyncing := None;
                        set_lastSync := None; set_lastError := None |})) (fun _ =>
  stepBind (await getEventsForSync) (fun events =>
  stepBind (modify (setProcessed (List.length events))) (fun _ =>
  stepBind (await (cacheEvents events)) (fun _ =>
  stepBind (await getSettings) (fun settings =>
  stepBind (if enabled (googleCalendar settings) && connected (googleCalendar settings)
            then syncService "Google: " "Google Calendar sync failed: "
                   GoogleCalendar.syncToGoogleCalendar events
            else modify (fun r => r)) (fun _ =>
  stepBind (if enabled (outlookCalendar settings) && connected (outlookCalendar settings)
            then syncService "Outlook: " "Outlook Calendar sync failed: "
                   OutlookCalendar.syncToOutlookCalendar events
            else modify (fun r => r)) (fun _ =>
  stepBind (await markSyncCompleted) (fun _ =>
  stepBind (modify (fun r => setSuccess (isEmpty (errors r)) r)) (fun _ =>
  stepBind getResult (fun result =>
    if notificationsEnabled settings && manual
    then await (showNotification result)
    else modify (fun r => r))))))))))))).

(** The [catch] block of [performSync]. *)
Definition catchBlock (errorMsg : string) : Step unit :=
  stepBind (modify (fun r => pushErrors [errorMsg] (setSuccess false r))) (fun _ =>
  stepBind (await (updateSyncStatus
                     {| set_isConnected := None; set_isSyncing := None;
                        set_lastSync := None; set_lastError := Some (Some errorMsg) |})) (fun _ =>
  stepBind (await getSettings) (fun settings =>
    if notificationsEnabled settings
    then await (notificationsCreate "Epitech Calendar Sync - Error" errorMsg)
    else modify (fun r => r)))).

(** [{ isSyncing: true, lastError: null }] and [{ isSyncing: false }] *)
Definition markSyncing : SyncStatusPatch :=
  {| set_isConnected := None; set_isSyncing := Some true;
     set_lastSync := None; set_lastError := Some None |}.
Definition markIdle : SyncStatusPatch :=
  {| set_isConnected := None; set_isSyncing := Some false;
     set_lastSync := None; set_lastError := None |}.

Definition performSync (manual : bool) (st : State) : Outcome SyncResult * State :=
  if isSyncing st then
    (Return {| success := false; timestamp := now (env st);
               eventsProcessed := 0; eventsCreated := 0;
               eventsUpdated := 0; eventsDeleted := 0;
               errors := ["Sync already in progress"]; details := [] |}, st)
  else
    (* isSyncing = true; await updateSyncStatus(...): before the [try] *)
    match updateSyncStatus markSyncing (env st) with
    | (Throw message, env1) => (Throw message, {| isSyncing := true; env := env1 |})
    | (Return _, env1) =>
        let '(completion, result, env2) :=
          stepTryCatch (tryBlock manual) catchBlock (freshResult (now env1)) env1 in
        (* finally: isSyncing = false; await updateSyncStatus(...) *)
        match updateSyncStatus markIdle env2 with
        | (Throw message, env3) => (Throw message, {| isSyncing := false; env := env3 |})
        | (Return _, env3) =>
            match completion with
            | Return _ => (Return result, {| isSyncing := false; env := env3 |})
            | Throw message => (Throw message, {| isSyncing := false; env := env3 |})
            end
        end
    end.

Definition isSyncInProgress (st : State) : bool := isSyncing st.

(** [checkAndSync]: the automatic pass, when [shouldAutoSync] asks for it. *)
Definition checkAndSync (st : State) : Outcome unit * State :=
  match shouldAutoSync (env st) with
  | (Return true, env1) =>
      match performSync false {| isSyncing := isSyncing st; env := env1 |} with
      | (Return _, st') => (Return tt, st')
      | (Throw message, st') => (Throw message, st')
      end
  | (Return false, env1) => (Return tt, {| isSyncing := isSyncing st; env := env1 |})
  | (Throw message, env1) => (Throw message, {| isSyncing := isSyncing st; env := env1 |})
  end.

(** [exportToIcs]: the cached events when there are some, else a fetch;
    [clock] is the clock of [generateIcsContent]. *)
Definition exportToIcs (clock : nat -> Z) : M string :=
  cached <- getCachedEvents ;;
  events <- match cached with
            | Some (event :: rest) => ret (event :: rest)
            | _ =>
                authCheck <- checkAuthentication ;;
                if authCheck then
                  events <- getEventsForSync ;;
                  cacheEvents events ;;;
                  ret events
                else throw "Not authenticated to Epitech intranet"
            end ;;
  lift (IcsGenerator.generateIcsContent clock events).

End Zone.

End SyncManager.

(* ================================================================== *)
(** * Sample data *)
(* ================================================================== *)

Module Samples.
Import DateUtil EpitechApi Host.

(** The host of the examples: a zone one hour east of UTC the year round. *)
Definition cet : TimeZone := fixedOffset 3600000 (conj eq_refl eq_refl).

(** 2025-03-30T01:00:00Z, when the clocks of Europe/Paris go from 02:00 to
    03:00. *)
Definition springChange : Z := 1743296400000.

(** The offset of a host that follows that change: one hour before it,
    two hours from it on.  A local time is read with the offset in force
    before the change up to 03:00, the hour that is skipped included, as
    ECMAScript asks. *)
Definition springOffset (t : Z) (isUTC : bool) : Z :=
  if isUTC
  then (if t <? springChange then 3600000 else 7200000)
  else (if t <? springChange + 7200000 then 3600000 else 7200000).

Definition springOffset_range (t : Z) (isUTC : bool)
  : - msPerDay < springOffset t isUTC < msPerDay :=
  match isUTC as b return - msPerDay < springOffset t b < msPerDay with
  | true =>
      match (t <? springChange) as c
        return - msPerDay < (if c then 3600000 else 7200000) < msPerDay with
      | true => conj eq_refl eq_refl
      | false => conj eq_refl eq_refl
      end
  | false =>
      match (t <? springChange + 7200000) as c
        return - msPerDay < (if c then 3600000 else 7200000) < msPerDay with
      | true => conj eq_refl eq_refl
      | false => conj eq_refl eq_refl
      end
  end.

Definition springForward : TimeZone :=
  {| LocalTZA := springOffset; LocalTZA_range := springOffset_range |}.

(** A follow-up appointment whose individual slot is reserved. *)
Definition rdvReserved : EpitechRawEvent :=
  {| scolaryear := "2024";
     acti_title := "Follow-up [OBLIGATOIRE]";
     start := "2025-03-01 09:00:00";
     end_ := "2025-03-01 18:00:00";
     room := Some {| room_code := "FR/PAR/KB2-Pasteur/Bureau-APE";
                     room_type := "bureau"; room_seats := 4 |};
     codemodule := "B-PRO-200";
     codeinstance := "PAR-2-1";
     codeacti := "acti-505014";
     codeevent := "event-474242";
     semester := 2;
     instance_location := "FR/PAR";
     titlemodule := "Professional Project";
     prof_inst := Some [ {| prof_type := "user"; prof_login := "jane.doe@epitech.eu";
                            prof_title := "Jane Doe"; prof_picture := "" |} ];
     registered := false;
     event_registered := RegString "absent";
     rdv_group_registered := Some "2025-03-01 14:00:00|2025-03-01 14:30:00";
     rdv_indiv_registered := Some "2025-03-01 10:00:00|2025-03-01 11:00:00";
     module_registered := true;
     past := false;
     allow_register := true;
     allow_token := true;
     nb_hours := Some "09:00:00";
     nb_group := 1;
     nb_max_students_projet := None;
     is_rdv := RdvString "1";
     type_code := Some "rdv";
     type_title := Some "Follow-up" |}.

Definition withSlots (indiv group : option string) (raw : EpitechRawEvent)
  : EpitechRawEvent :=
  {| scolaryear := scolaryear raw; acti_title := acti_title raw;
     start := start raw; end_ := end_ raw; room := room raw;
     codemodule := codemodule raw; codeinstance := codeinstance raw;
     codeacti := codeacti raw; codeevent := codeevent raw;
     semester := semester raw; instance_location := instance_location raw;
     titlemodule := titlemodule raw; prof_inst := prof_inst raw;
     registered := registered raw; event_registered := event_registered raw;
     rdv_group_registered := group; rdv_indiv_registered := indiv;
     module_registered := module_registered raw; past := past raw;
     allow_register := allow_register raw; allow_token := allow_token raw;
     nb_hours := nb_hours raw; nb_group := nb_group raw;
     nb_max_students_projet := nb_max_students_projet raw;
     is_rdv := is_rdv raw; type_code := type_code raw;
     type_title := type_title raw |}.

(** The same appointment before any slot is reserved. *)
Definition rdvNotReserved : EpitechRawEvent := withSlots None None rdvReserved.

Definition withModule (code : string) (raw : EpitechRawEvent) : EpitechRawEvent :=
  {| scolaryear := scolaryear raw; acti_title := acti_title raw;
     start := start raw; end_ := end_ raw; room := room raw;
     codemodule := code; codeinstance := codeinstance raw;
     codeacti := codeacti raw; codeevent := codeevent raw;
     semester := semester raw; instance_location := instance_location raw;
     titlemodule := titlemodule raw; prof_inst := prof_inst raw;
     registered := registered raw; event_registered := event_registered raw;
     rdv_group_registered := rdv_group_registered raw;
     rdv_indiv_registered := rdv_indiv_registered raw;
     module_registered := module_registered raw; past := past raw;
     allow_register := allow_register raw; allow_token := allow_token raw;
     nb_hours := nb_hours raw; nb_group := nb_group raw;
     nb_max_students_projet := nb_max_students_projet raw;
     is_rdv := is_rdv raw; type_code := type_code raw;
     type_title := type_title raw |}.

(** A lecture whose nominal window ends before it starts. *)
Definition lectureBackwards : EpitechRawEvent :=
  {| scolaryear := "2024";
     acti_title := "Lecture";
     start := "2025-03-01 11:00:00";
     end_ := "2025-03-01 10:00:00";
     room := None;
     codemodule := "B-MAT-100";
     codeinstance := "PAR-1-1";
     codeacti := "acti-600001";
     codeevent := "event-700001";
     semester := 1;
     instance_location := "FR/PAR";
     titlemodule := "Mathematics";
     prof_inst := None;
     registered := true;
     event_registered := RegString "registered";
     rdv_group_registered := None;
     rdv_indiv_registered := None;
     module_registered := true;
     past := false;
     allow_register := true;
     allow_token := true;
     nb_hours := Some "01:00:00";
     nb_group := 1;
     nb_max_students_projet := None;
     is_rdv := RdvString "0";
     type_code := Some "class";
     type_title := Some "Lecture" |}.

Definition withTitle (t : string) (raw : EpitechRawEvent) : EpitechRawEvent :=
  {| scolaryear := scolaryear raw; acti_title := t;
     start := start raw; end_ := end_ raw; room := room raw;
     codemodule := codemodule raw; codeinstance := codeinstance raw;
     codeacti := codeacti raw; codeevent := codeevent raw;
     semester := semester raw; instance_location := instance_location raw;
     titlemodule := titlemodule raw; prof_inst := prof_inst raw;
     registered := registered raw; event_registered := event_registered raw;
     rdv_group_registered := rdv_group_registered raw;
     rdv_indiv_registered := rdv_indiv_registered raw;
     module_registered := module_registered raw; past := past raw;
     allow_register := allow_register raw; allow_token := allow_token raw;
     nb_hours := nb_hours raw; nb_group := nb_group raw;
     nb_max_students_projet := nb_max_students_projet raw;
     is_rdv := is_rdv raw; type_code := type_code raw;
     type_title := type_title raw |}.

(** An unreserved appointment with an activity title of 35 letters. *)
Definition rdvLongTitle : EpitechRawEvent :=
  withTitle "Follow-up with the pedagogical team" rdvNotReserved.

(** A canonical event with the given id, on 2025-03-01 from 10:00 to
    11:00 local time. *)
Definition eventWithId (i : string) : EpitechEvent :=
  {| id := i;
     title := "EPITECH - Lecture";
     description := "Module: Mathematics";
     location := "";
     startDate := Some 1740819600000;
     endDate := Some 1740823200000;
     module := {| module_code := "B-MAT-100"; module_instance := "PAR-1-1";
                  module_title := "Mathematics" |};
     activity := {| activity_code := "acti-600001"; activity_title := "Lecture" |};
     eventCode := "event-700001";
     event_semester := 1;
     instructors := [];
     isRegistered := true;
     isPast := false |}.

Definition lecture : EpitechEvent := eventWithId "epitech-acti-600001-event-700001".

(** A calendar entry mirrored earlier: identifier [g] at the service,
    tagged with the canonical id [i]. *)
Definition mirrored (g i : string) : GoogleCalendarEvent :=
  {| g_id := g;
     g_body := {| summary := "EPITECH - Lecture (old)";
                  g_description := None;
                  g_location := None;
                  g_start := "2025-02-01T09:00:00.000Z";
                  g_end := "2025-02-01T10:00:00.000Z";
                  extendedProperties :=
                    Some {| epitechId := Some i; moduleCode := None;
                            activityCode := None; private_eventCode := None |} |} |}.

(** An entry of the user's own, without the private property. *)
Definition ownEntry (g : string) : GoogleCalendarEvent :=
  {| g_id := g;
     g_body := {| summary := "Dentist";
                  g_description := None;
                  g_location := None;
                  g_start := "2025-02-03T09:00:00.000Z";
                  g_end := "2025-02-03T10:00:00.000Z";
                  extendedProperties := None |} |}.

Definition googleOn : ExtensionSettings :=
  {| eventPrefix := "EPITECH - ";
     syncPeriod := {| period_start := "today"; period_end := "+12months" |};
     autoSync := {| autoSync_enabled := false; frequency := once_daily |};
     notificationsEnabled := true;
     googleCalendar := {| enabled := true; connected := true;
                          calendarId := Some "cal-1"; calendarName := "Epitech";
                          accessToken := None; refreshToken := None;
                          tokenExpiry := None |};
     outlookCalendar := DEFAULT_CALENDAR;
     icsExport := {| ics_enabled := true; autoDownload := false |};
     lastSyncTimestamp := None;
     lastSyncDate := None |}.

Definition idA : string := "epitech-acti-1-event-1".
Definition idB : string := "epitech-acti-2-event-2".
Definition idC : string := "epitech-acti-3-event-3".
Definition idD : string := "epitech-acti-4-event-4".

(** A world whose Google calendar holds the mirrored events A, B, C and
    an entry of the user's own; [failing] tells the calls that fail. *)
Definition world (failing : Call -> option string) : Env :=
  {| stored_settings := Some googleOn;
     stored_status := None;
     stored_events := None;
     authenticated := true;
     planning := [rdvReserved; lectureBackwards];
     google := [mirrored "g1" idA; mirrored "g2" idB; ownEntry "g3"; mirrored "g4" idC];
     outlook := [];
     notifications := [];
     now := 1740819600000;
     faults := failing;
     trace := [] |}.

Definition noFault : Call -> option string := fun _ => None.

(** The environment with another Google calendar. *)
Definition withGoogle (entries : list GoogleCalendarEvent) (env : Env) : Env :=
  {| stored_settings := stored_settings env;
     stored_status := stored_status env;
     stored_events := stored_events env;
     authenticated := authenticated env;
     planning := planning env;
     google := entries;
     outlook := outlook env;
     notifications := notifications env;
     now := now env;
     faults := faults env;
     trace := trace env |}.

(** Only the update of the entry [g2] fails. *)
Definition updateOfG2Fails : Call -> option string :=
  fun c =>
    match c with
    | Google (GUpdate _ eventId _) =>
        if String.eqb eventId "g2" then Some "Google API error: 500 - Backend Error"
        else None
    | _ => None
    end.

(** Every request that writes the event B fails. *)
Definition writeOfBFails : Call -> option string :=
  fun c =>
    match c with
    | Google (GInsert _ body) | Google (GUpdate _ _ body) =>
        match extendedProperties body with
        | Some p =>
            match epitechId p with
            | Some t => if String.eqb idB t
                        then Some "Google API error: 500 - Backend Error" else None
            | None => None
            end
        | None => None
        end
    | _ => None
    end.

Definition canonicalBCD : list EpitechEvent :=
  [eventWithId idB; eventWithId idC; eventWithId idD].

(** The write of the sync status fails. *)
Definition statusWriteFails : Call -> option string :=
  fun c =>
    match c with
    | StorageSet key =>
        if String.eqb key Storage.SYNC_STATUS_KEY then Some "QUOTA_BYTES quota exceeded"
        else None
    | _ => None
    end.

(** The appointment with a slot that holds one date and no "|". *)
Definition rdvSlotWithoutBar : EpitechRawEvent :=
  withSlots (Some "2025-03-01 10:00:00") None rdvReserved.

(** The environment [env] with the intranet answering [records]. *)
Definition withPlanning (records : list EpitechRawEvent) (env : Env) : Env :=
  {| stored_settings := stored_settings env;
     stored_status := stored_status env;
     stored_events := stored_events env;
     authenticated := authenticated env;
     planning := records;
     google := google env;
     outlook := outlook env;
     notifications := notifications env;
     now := now env;
     faults := faults env;
     trace := trace env |}.

(** A DESCRIPTION content line of 101 code units, all ASCII. *)
Definition longLine : string :=
  "DESCRIPTION:Module: Professional Project\nActivity: Follow-up\nInstructor(s): Jane Doe\nRegistered: Yes".

(** The list request fails. *)
Definition listingFails : Call -> option string :=
  fun c =>
    match c with
    | Google (GList _ _) => Some "Google API error: 503 - Service Unavailable"
    | _ => None
    end.

(** The environment [env] with the intranet session logged out. *)
(** The request for the user of the session fails. *)
Definition userRequestFails : Call -> option string :=
  fun c =>
    match c with
    | FetchUser => Some "NetworkError when attempting to fetch resource."
    | _ => None
    end.

Definition withWindow (s e : string) (raw : EpitechRawEvent) : EpitechRawEvent :=
  {| scolaryear := scolaryear raw; acti_title := acti_title raw;
     start := s; end_ := e; room := room raw;
     codemodule := codemodule raw; codeinstance := codeinstance raw;
     codeacti := codeacti raw; codeevent := codeevent raw;
     semester := semester raw; instance_location := instance_location raw;
     titlemodule := titlemodule raw; prof_inst := prof_inst raw;
     registered := registered raw; event_registered := event_registered raw;
     rdv_group_registered := rdv_group_registered raw;
     rdv_indiv_registered := rdv_indiv_registered raw;
     module_registered := module_registered raw; past := past raw;
     allow_register := allow_register raw; allow_token := allow_token raw;
     nb_hours := nb_hours raw; nb_group := nb_group raw;
     nb_max_students_projet := nb_max_students_projet raw;
     is_rdv := is_rdv raw; type_code := type_code raw;
     type_title := type_title raw |}.

(** A lecture whose dates are not announced yet. *)
Definition lectureUndated : EpitechRawEvent :=
  withWindow "TBA" "TBA" lectureBackwards.

(** The environment [env] with the settings [s] stored. *)
Definition withSettings (s : ExtensionSettings) (env : Env) : Env :=
  {| stored_settings := Some s;
     stored_status := stored_status env;
     stored_events := stored_events env;
     authenticated := authenticated env;
     planning := planning env;
     google := google env;
     outlook := outlook env;
     notifications := notifications env;
     now := now env;
     faults := faults env;
     trace := trace env |}.

(** Automatic synchronization once a day. *)
Definition dailySettings : ExtensionSettings :=
  {| eventPrefix := "EPITECH - ";
     syncPeriod := {| period_start := "today"; period_end := "+12months" |};
     autoSync := {| autoSync_enabled := true; frequency := once_daily |};
     notificationsEnabled := true;
     googleCalendar := DEFAULT_CALENDAR;
     outlookCalendar := DEFAULT_CALENDAR;
     icsExport := {| ics_enabled := true; autoDownload := false |};
     lastSyncTimestamp := None;
     lastSyncDate := None |}.

(** Outlook connected an hour and more before [now] of [world]. *)
Definition outlookStale : ExtensionSettings :=
  {| eventPrefix := "EPITECH - ";
     syncPeriod := {| period_start := "today"; period_end := "+12months" |};
     autoSync := {| autoSync_enabled := false; frequency := once_daily |};
     notificationsEnabled := true;
     googleCalendar := DEFAULT_CALENDAR;
     outlookCalendar := {| enabled := true; connected := true;
                           calendarId := Some "AAMkAGI2"; calendarName := "Epitech";
                           accessToken := Some "EwBwA8l6"; refreshToken := None;
                           tokenExpiry := Some 1740816000000 |};
     icsExport := {| ics_enabled := true; autoDownload := false |};
     lastSyncTimestamp := None;
     lastSyncDate := None |}.

(** Outlook connected, with a token that is still good at [now] of
    [world]. *)
Definition outlookFresh : ExtensionSettings :=
  {| eventPrefix := "EPITECH - ";
     syncPeriod := {| period_start := "today"; period_end := "+12months" |};
     autoSync := {| autoSync_enabled := false; frequency := once_daily |};
     notificationsEnabled := true;
     googleCalendar := DEFAULT_CALENDAR;
     outlookCalendar := {| enabled := true; connected := true;
                           calendarId := Some "AAMkAGI2"; calendarName := "Epitech";
                           accessToken := Some "EwBwA8l6"; refreshToken := None;
                           tokenExpiry := Some 1740823200000 |};
     icsExport := {| ics_enabled := true; autoDownload := false |};
     lastSyncTimestamp := None;
     lastSyncDate := None |}.

(** The environment [env] with the Outlook calendar holding [entries]. *)
Definition withOutlook (entries : list OutlookCalendarEvent) (env : Env) : Env :=
  {| stored_settings := stored_settings env;
     stored_status := stored_status env;
     stored_events := stored_events env;
     authenticated := authenticated env;
     planning := planning env;
     google := google env;
     outlook := entries;
     notifications := notifications env;
     now := now env;
     faults := faults env;
     trace := trace env |}.

(** An Outlook entry mirrored earlier, and an entry of the user's own. *)
Definition mirroredOutlook (o i : string) : OutlookCalendarEvent :=
  {| o_id := o;
     o_body := {| subject := "EPITECH - Lecture (old)";
                  o_content := None;
                  o_location := None;
                  o_start := "2025-02-01T09:00:00.000";
                  o_end := "2025-02-01T10:00:00.000";
                  o_epitechId := Some i |} |}.
Definition ownOutlookEntry (o : string) : OutlookCalendarEvent :=
  {| o_id := o;
     o_body := {| subject := "Dentist";
                  o_content := None;
                  o_location := None;
                  o_start := "2025-02-03T09:00:00.000";
                  o_end := "2025-02-03T10:00:00.000";
                  o_epitechId := None |} |}.

End Samples.

(* ================================================================== *)
(** * Properties of the normalizer *)
(* ================================================================== *)

(** The general statements hold for every time zone of the host; the closed
    examples are evaluated on the host [Samples.cet]. *)
#[local] Existing Instance Samples.cet.

Import DateUtil EpitechApi IcsGenerator Host Storage GoogleCalendar.

(** ** Vocabulary of the statements *)

Section Vocabulary.
Context {zone : TimeZone}.

(** [absent o]: the nullable string [o] is [null] or empty, that is falsy. *)
Definition absent (o : option string) : Prop := o = None \/ o = Some EmptyString.

(** The compound natural key of a source record. *)
Definition naturalKey (raw : EpitechRawEvent) : string * string * string :=
  (codemodule raw, codeacti raw, codeevent raw).

(** [a <= b] on two [Date] objects: false when either is invalid. *)
Definition dateLe (a b : Date) : bool :=
  match getTime a, getTime b with
  | Some x, Some y => x <=? y
  | _, _ => false
  end.

(** The id of the event a normalization produced, if it produced one. *)
Definition idOf (o : Outcome EpitechEvent) : option string :=
  match o with
  | Return e => Some (id e)
  | Throw _ => None
  end.

(** Same completion: the same document, or the same error. *)
Definition sameCompletion (a b : Outcome string) : bool :=
  match a, b with
  | Return x, Return y => String.eqb x y
  | Throw x, Throw y => String.eqb x y
  | _, _ => false
  end.

(** A continuation line without the space that starts it. *)
Definition unfoldLine (physical : string) : string := JS.drop 1 physical.

(** The content line that physical lines stand for. *)
Definition unfolded (physical : list string) : string :=
  match physical with
  | [] => EmptyString
  | first :: continuation => first ++ String.concat "" (map unfoldLine continuation)
  end.

(** The window of a record that the normalizer reads the dates from: the
    two halves of the reserved slot of an appointment, the nominal
    [start]/[end] otherwise; none when the slot has no "|". *)
Definition windowOf (raw : EpitechRawEvent) : option (string * string) :=
  if isRdvEvent raw then
    match JS.orElse (rdv_indiv_registered raw) (rdv_group_registered raw) with
    | Some slot =>
        if JS.truthy slot then
          match JS.split "|" slot with
          | realStart :: realEnd :: _ => Some (realStart, realEnd)
          | _ => None
          end
        else Some (start raw, end_ raw)
    | None => Some (start raw, end_ raw)
    end
  else Some (start raw, end_ raw).

(** Year, month, day, hours, minutes, seconds. *)
Definition Civil : Type := (Z * Z * Z * Z * Z * Z)%type.

(** The six numbers [parseEpitechDate] reads off a date string, when they
    are six numbers. *)
Definition civilFields (dateStr : string) : option Civil :=
  let parts := JS.split " " dateStr in
  let ymd := map Some (JS.split "-" (nth 0 parts EmptyString)) in
  let timeStr := match JS.orElse (nth_error parts 1) (Some "00:00:00") with
                 | Some s => s
                 | None => "00:00:00"
                 end in
  let hms := map Some (JS.split ":" timeStr) in
  match JS.Number (nth 0 ymd None), JS.Number (nth 1 ymd None),
        JS.Number (nth 2 ymd None), JS.Number (nth 0 hms None),
        JS.Number (nth 1 hms None), JS.Number (nth 2 hms None) with
  | Some y, Some mo, Some d, Some h, Some mi, Some s => Some (y, mo, d, h, mi, s)
  | _, _, _, _, _, _ => None
  end.

Definition daysInMonth (y mo : Z) : Z :=
  if (mo =? 4) || (mo =? 6) || (mo =? 9) || (mo =? 11) then 30
  else if mo =? 2 then (if InLeapYear y then 29 else 28)
  else 31.

(** A date of the calendar with a year of four digits, and a time of day. *)
Definition validCivil (f : Civil) : bool :=
  let '(y, mo, d, h, mi, s) := f in
  (1000 <=? y) && (y <=? 9999) && (1 <=? mo) && (mo <=? 12)
  && (1 <=? d) && (d <=? daysInMonth y mo)
  && (0 <=? h) && (h <=? 23) && (0 <=? mi) && (mi <=? 59)
  && (0 <=? s) && (s <=? 59).

Fixpoint lexLe (a b : list Z) : bool :=
  match a, b with
  | x :: a', y :: b' => (x <? y) || ((x =? y) && lexLe a' b')
  | _, _ => true
  end.

(** [f1] is not after [f2]. *)
Definition civilLe (f1 f2 : Civil) : bool :=
  let '(y1, mo1, d1, h1, mi1, s1) := f1 in
  let '(y2, mo2, d2, h2, mi2, s2) := f2 in
  lexLe [y1; mo1; d1; h1; mi1; s1] [y2; mo2; d2; h2; mi2; s2].

(** The local time value [new Date(y, mo - 1, d, h, mi, s)] computes. *)
Definition localTimeOf (f : Civil) : Z :=
  let '(y, mo, d, h, mi, s) := f in
  MakeDate (MakeDay y (mo - 1) d) (MakeTime h mi s 0).

(** The local time value [lt] is a time the clock of the host shows: it is
    not one of the times skipped when the offset of the zone moves forward,
    so that the instant it names has that local time again. *)
Definition shownByTheClock (lt : Z) : Prop :=
  LocalTZA (UTC lt) true = LocalTZA lt false.

(** An id of the form the normalizer produces: [epitech-] and, after it,
    the codes of the activity and of the event with a dash between them. *)
Definition canonicalId (i : string) : bool :=
  String.prefix "epitech-" i && negb (String.eqb i "epitech-").

(** Both dates of the event are valid. *)
Definition validDates (e : EpitechEvent) : bool :=
  match startDate e, endDate e with
  | Some _, Some _ => true
  | _, _ => false
  end.

(** The canonical id a calendar entry is tagged with, if it is a mirrored
    event: an entry that a pass of the adapter has written. *)
Definition mirroredId (ev : GoogleCalendarEvent) : list string :=
  match tagOf ev with
  | Some t => if canonicalId t then [t] else []
  | None => []
  end.

(** The tagged remote set: the ids of the mirrored events of a calendar. *)
Definition mirroredIds (l : list GoogleCalendarEvent) : list string :=
  flat_map mirroredId l.

Definition bodyTag (b : GoogleEventBody) : list string :=
  match extendedProperties b with
  | Some p => match epitechId p with Some t => [t] | None => [] end
  | None => []
  end.

(** Among calls: the ids of the events created, of the events updated, and
    the service identifiers of the entries deleted. *)
Definition createdIds (calls : list Call) : list string :=
  flat_map (fun c => match c with
                     | Google (GInsert _ b) => bodyTag b
                     | _ => []
                     end) calls.
Definition updatedIds (calls : list Call) : list string :=
  flat_map (fun c => match c with
                     | Google (GUpdate _ _ b) => bodyTag b
                     | _ => []
                     end) calls.
Definition deletedEntries (calls : list Call) : list string :=
  flat_map (fun c => match c with
                     | Google (GDelete _ g) => [g]
                     | _ => []
                     end) calls.

(** The calendar the settings connect to. *)
Definition connectedCalendar (env : Env) : option string :=
  match stored_settings env with
  | Some s => calendarId (googleCalendar s)
  | None => calendarId (googleCalendar DEFAULT_SETTINGS)
  end.

(** The Google requests that fail are the requests that write an event
    whose id [fails] holds of, with the message [msg]. *)
Definition writesFail (fails : string -> bool) (msg : string) (env : Env) : Prop :=
  forall r, faults env (Google r) =
            match r with
            | GInsert _ body | GUpdate _ _ body =>
                if existsb fails (bodyTag body) then Some msg else None
            | _ => None
            end.

(** What a pass of the adapter starts from: the settings can be read and
    name the calendar. *)
Record Ready (calendar : string) (env : Env) : Prop := {
  settings_readable : faults env (StorageGet SETTINGS_KEY) = None;
  calendar_connected : connectedCalendar env = Some calendar;
  calendar_named : JS.truthy calendar = true
}.

(** A canonical event list: ids of the normalizer's form, no id twice,
    valid dates. *)
Record Canonical (events : list EpitechEvent) : Prop := {
  ids_canonical : Forall (fun e => canonicalId (id e) = true) events;
  ids_unique : NoDup (map id events);
  dates_valid : Forall (fun e => validDates e = true) events
}.

Definition memberOf (l : list string) (x : string) : bool :=
  existsb (String.eqb x) l.

(** Calls recorded one after the other. *)
Definition logCalls (calls : list Call) (env : Env) : Env :=
  fold_left (fun e c => logCall c e) calls env.

Definition tokenOffset (pageToken : option nat) : nat :=
  match pageToken with Some n => n | None => O end.

(** Calls that create, update and delete nothing. *)
Definition quiet (calls : list Call) : Prop :=
  createdIds calls = [] /\ updatedIds calls = [] /\ deletedEntries calls = [].

(** The part of the host a pass of the adapter leaves alone. *)
Definition sameHost (env env' : Env) : Prop :=
  faults env' = faults env /\ stored_settings env' = stored_settings env.

(** No string twice in the list. *)
Fixpoint distinct (l : list string) : bool :=
  match l with
  | [] => true
  | x :: l' => negb (memberOf l' x) && distinct l'
  end.

(** The entries after [PUT eventId body]. *)
Definition replaced (eventId : string) (body : GoogleEventBody)
  (l : list GoogleCalendarEvent) : list GoogleCalendarEvent :=
  map (fun ev => if hasId eventId ev
                 then {| g_id := eventId; g_body := body |} else ev) l.

(** The entries after [DELETE eventId]. *)
Definition removed (eventId : string) (l : list GoogleCalendarEvent)
  : list GoogleCalendarEvent :=
  filter (fun ev => negb (hasId eventId ev)) l.

(** [hasChar c s]: the code unit [c] occurs in [s]. *)
Fixpoint hasChar (c : ascii) (s : string) : bool :=
  match s with
  | EmptyString => false
  | String d s' => Ascii.eqb d c || hasChar c s'
  end.

(** What [escapeIcsText] writes for one code unit. *)
Definition escapeChar (c : ascii) : string :=
  if Ascii.eqb c backslash then String backslash (String backslash EmptyString)
  else if Ascii.eqb c ";" then String backslash ";"
  else if Ascii.eqb c "," then String backslash ","
  else if Ascii.eqb c newline then String backslash "n"
  else String c EmptyString.

(** The reader's side of [escapeIcsText] (RFC 5545, TEXT): a backslash and
    the code unit after it stand for one code unit, LF when it is "n". *)
Fixpoint unescapeIcsText (s : string) : string :=
  match s with
  | EmptyString => EmptyString
  | String c s' =>
      if Ascii.eqb c backslash then
        match s' with
        | EmptyString => String c EmptyString
        | String d s'' =>
            String (if Ascii.eqb d "n" then newline else d) (unescapeIcsText s'')
        end
      else String c (unescapeIcsText s')
  end.

Definition CR : ascii := ascii_of_nat 13.

(** The reader's side of [foldLine] (RFC 5545, 3.1): a CRLF that a space
    follows is removed together with the space. *)
Fixpoint unfoldText (s : string) : string :=
  match s with
  | EmptyString => EmptyString
  | String c s' =>
      match s' with
      | String c1 (String c2 s'') =>
          if Ascii.eqb c CR && Ascii.eqb c1 newline && Ascii.eqb c2 " "
          then unfoldText s''
          else String c (unfoldText s')
      | _ => String c (unfoldText s')
      end
  end.

(** The message [ensureDate] throws on an invalid [Date]. *)
Definition invalidDate : string := "Invalid Date object: Invalid Date".

(** An appointment whose reserved slot (the individual one or else the
    group one) is not empty and holds no "|". *)
Definition brokenSlot (raw : EpitechRawEvent) : bool :=
  isRdvEvent raw
  && match JS.orElse (rdv_indiv_registered raw) (rdv_group_registered raw) with
     | Some slot => JS.truthy slot && negb (hasChar "|" slot)
     | None => false
     end.

(** The [TypeError] of [parseEpitechDate(undefined)]. *)
Definition undefinedSplit : string :=
  "Cannot read properties of undefined (reading 'split')".

(** The settings [getSettings] answers with. *)
Definition storedSettings (env : Env) : ExtensionSettings :=
  match stored_settings env with
  | Some stored => stored
  | None => DEFAULT_SETTINGS
  end.

(** The service identifiers of the entries a map holds. *)
Definition mappedIds (m : EventMap) : list string := map (fun en => g_id (snd en)) m.

(** A host whose storage and notifications never fail. *)
Definition hostReliable (env : Env) : Prop :=
  (forall key, faults env (StorageGet key) = None)
  /\ (forall key, faults env (StorageSet key) = None)
  /\ (forall title message, faults env (NotificationsCreate title message) = None).

(** A computation that leaves the failing calls as they are. *)
Definition keeps {A : Type} (m : M A) : Prop :=
  forall env, faults (snd (m env)) = faults env.

Definition keepsS {A : Type} (m : SyncManager.Step A) : Prop :=
  forall r env, faults (snd (m r env)) = faults env.

(** A step that leaves the result alone. *)
Definition keepsResult {A : Type} (m : SyncManager.Step A) : Prop :=
  forall r env, snd (fst (m r env)) = r.

(** [Q] holds of the result whenever the step returns. *)
Definition post {A : Type} (m : SyncManager.Step A) (Q : SyncManager.SyncResult -> Prop)
  : Prop :=
  forall r env a r' env', m r env = (Return a, r', env') -> Q r'.

(** The status [getSyncStatus] answers with. *)
Definition currentStatus (env : Env) : SyncStatus :=
  match stored_status env with
  | Some stored => stored
  | None => {| isConnected := false; status_isSyncing := false;
               lastSync := None; lastError := None |}
  end.

(** The environment after [updateSyncStatus p] on a reliable host. *)
Definition afterStatus (p : SyncStatusPatch) (env : Env) : Env :=
  setStatus (applyPatch (currentStatus env) p)
    (logCall (StorageSet SYNC_STATUS_KEY) (logCall (StorageGet SYNC_STATUS_KEY) env)).

(** [{ lastError: errorMsg }] and [{ isConnected: true }] *)
Definition lastErrorIs (errorMsg : string) : SyncStatusPatch :=
  {| set_isConnected := None; set_isSyncing := None;
     set_lastSync := None; set_lastError := Some (Some errorMsg) |}.
Definition nowConnected : SyncStatusPatch :=
  {| set_isConnected := Some true; set_isSyncing := None;
     set_lastSync := None; set_lastError := None |}.

Definition errorTitle : string := "Epitech Calendar Sync - Error".

(** The environment after the [catch] block of [performSync] on a
    reliable host. *)
Definition afterCatch (errorMsg : string) (env : Env) : Env :=
  let env2 := logCall (StorageGet SETTINGS_KEY) (afterStatus (lastErrorIs errorMsg) env) in
  if notificationsEnabled (storedSettings env)
  then SyncManager.addNotification errorTitle errorMsg
         (logCall (NotificationsCreate errorTitle errorMsg) env2)
  else env2.

(** The message of the [RangeError] of [toISOString]. *)
Definition invalidTime : string := "Invalid time value".

(** The events the normalizer makes of the planning of [env]. *)
Definition normalized (env : Env) : Outcome (list EpitechEvent) :=
  mapO (fun raw => transformEvent raw (eventPrefix (storedSettings env)))
    (filter isUserRegisteredToEvent (planning env)).

(** The first part of a string cut at [sep]. *)
Definition firstPart (sep : ascii) (s : string) : string :=
  nth 0 (JS.split sep s) EmptyString.

(** The settings after [markSyncCompleted] at the time [t]. *)
Definition completedAt (t : Z) (today : string) (current : ExtensionSettings)
  : ExtensionSettings :=
  {| eventPrefix := eventPrefix current;
     syncPeriod := syncPeriod current;
     autoSync := autoSync current;
     notificationsEnabled := notificationsEnabled current;
     googleCalendar := googleCalendar current;
     outlookCalendar := outlookCalendar current;
     icsExport := icsExport current;
     lastSyncTimestamp := Some t;
     lastSyncDate := Some today |}.

(** The day of [new Date(t).toISOString()]: what stands before "T". *)
Definition todayOf (t : Z) : string :=
  match isoDay t with
  | Return day => day
  | Throw _ => EmptyString
  end.

(** The date part of [toISOString] for a day number. *)
Definition isoDatePart (day : Z) : string :=
  let y := fst (fst (civilFromDay day)) in
  (if (0 <=? y) && (y <=? 9999) then padYear 4 y
   else if y <? 0 then "-" ++ padYear 6 (- y)
   else "+" ++ padYear 6 y)
  ++ "-" ++ pad (snd (fst (civilFromDay day)) + 1) ++ "-" ++ pad (snd (civilFromDay day)).

(** [{ lastSync: t, lastError: null }] *)
Definition completedPatch (t : Z) : SyncStatusPatch :=
  {| set_isConnected := None; set_isSyncing := None;
     set_lastSync := Some (Some t); set_lastError := Some None |}.

(** The environment after [markSyncCompleted] on a reliable host. *)
Definition afterCompleted (env : Env) : Env :=
  afterStatus (completedPatch (now env))
    (setSettings (completedAt (now env) (todayOf (now env)) (storedSettings env))
       (logCall (StorageSet SETTINGS_KEY) (logCall (StorageGet SETTINGS_KEY) env))).

(** The error of [getAccessToken] on a token past its expiry. *)
Definition tokenExpired : string := "Outlook token expired. Please reconnect.".

(** A computation that leaves the Outlook calendar as it is. *)
Definition keepsOutlook {A : Type} (m : M A) : Prop :=
  forall env, outlook (snd (m env)) = outlook env.

(** The service identifiers of the entries a map of Outlook entries holds. *)
Definition outlookIds (m : OutlookCalendar.EventMap) : list string :=
  map (fun en => o_id (snd en)) m.

(** A field of [width] digits that reads as [n]. *)
Definition fieldReads (width : nat) (digits : string) (n : Z) : bool :=
  (String.length digits =? width)%nat
  && match JS.digitsValue 0 digits with
     | Some v => v =? n
     | None => false
     end.

(** A valid date whose year [toISOString] writes with four digits. *)
(** [check] on the [count] numbers from [first] on. *)
Fixpoint checkedFrom (check : Z -> bool) (first : Z) (count : nat) : bool :=
  match count with
  | O => true
  | S count' => check first && checkedFrom check (first + 1) count'
  end.

Definition fourDigitYear (d : Date) : bool :=
  match d with
  | Some t => (0 <=? YearFromTime t) && (YearFromTime t <=? 9999)
  | None => false
  end.

(** An event whose two dates are such dates. *)
Definition cacheable (e : EpitechEvent) : bool :=
  fourDigitYear (startDate e) && fourDigitYear (endDate e).

(** The days of a unit counted in days. *)
Definition daysOf (unit : RelativeUnit) : option Z :=
  match unit with
  | UnitDay => Some 1
  | UnitWeek => Some 7
  | UnitMonth | UnitYear => None
  end.

(** The offsets of the zone lie within a day of each other: so it is in
    a zone at a constant offset, and in a zone whose offset moves by an hour
    or two for daylight saving time. *)
Definition offsetsWithinADay : Prop :=
  forall a b i j, LocalTZA a i - LocalTZA b j <= msPerDay.

(** The day number of the first day of a month, the months counted from
    January of the year 0. *)
Definition monthStart (index : Z) : Z :=
  DayFromYear (index / 12) + DaysBeforeMonth (InLeapYear (index / 12)) (index mod 12).

End Vocabulary.

(** ** Tactics *)

(** Case analysis on a month between 1 and 12. *)
Ltac month_cases mo :=
  let H := fresh "Hmo" in
  assert (H : mo = 1 \/ mo = 2 \/ mo = 3 \/ mo = 4 \/ mo = 5 \/ mo = 6 \/ mo = 7
              \/ mo = 8 \/ mo = 9 \/ mo = 10 \/ mo = 11 \/ mo = 12) by lia;
  repeat (destruct H as [H|H]; [subst mo|]); [..|subst mo].

(** Evaluates [DaysBeforeMonth] at closed arguments. *)
Ltac eval_months :=
  repeat match goal with
         | |- context [DaysBeforeMonth ?b ?m] =>
             let v := eval vm_compute in (DaysBeforeMonth b m) in
             change (DaysBeforeMonth b m) with v
         end.

(** Evaluates the conditionals whose value is a closed number. *)
Ltac eval_closed_ifs :=
  repeat match goal with
         | |- context [if ?c then ?a else ?b] =>
             let v := eval vm_compute in (if c then a else b) in
             match v with
             | Z0 => idtac | Zpos _ => idtac | Zneg _ => idtac
             end;
             change (if c then a else b) with v
         end.

(** ** Lemmas *)

Section Normalizer.
Context {zone : TimeZone}.

Lemma transformEvent_of_slot (raw : EpitechRawEvent) (prefix : string) (ts : TimeSlot) :
  getRealTimeSlot raw = Return ts ->
  exists e, transformEvent raw prefix = Return e
            /\ id e = eventId raw
            /\ startDate e = slot_start ts
            /\ endDate e = slot_end ts
            /\ isRegistered e = registrationOf raw
            /\ title e = match isPersonalSlot ts with
                         | Some false => prefix ++ NOT_RESERVED ++ cleanActivityTitle (acti_title raw)
                         | _ => prefix ++ cleanActivityTitle (acti_title raw)
                         end.
Proof.
  intros H. unfold transformEvent. rewrite H. cbn [bindO].
  eexists. split; [reflexivity|]. cbn. repeat split; reflexivity.
Qed.

Lemma transformEvent_throws (raw : EpitechRawEvent) (prefix : string) (m : string) :
  getRealTimeSlot raw = Throw m -> transformEvent raw prefix = Throw m.
Proof.
  intros H. unfold transformEvent. rewrite H. reflexivity.
Qed.

Lemma orElse_present (s : string) (b : option string) :
  s <> EmptyString -> JS.orElse (Some s) b = Some s /\ JS.truthy s = true.
Proof.
  intros Hs. destruct s as [|c s]; [contradiction|]. split; reflexivity.
Qed.

Lemma slot_reserved (raw : EpitechRawEvent) (indiv realStart realEnd : string)
  (rest : list string) :
  isRdvEvent raw = true ->
  rdv_indiv_registered raw = Some indiv ->
  indiv <> EmptyString ->
  JS.split "|" indiv = realStart :: realEnd :: rest ->
  exists d,
    getRealTimeSlot raw =
      Return {| slot_start := parseEpitechDate realStart;
                slot_end := parseEpitechDate realEnd;
                isPersonalSlot := Some true;
                duration := Some d |}.
Proof.
  intros Hrdv Hindiv Hne Hsplit. unfold getRealTimeSlot.
  rewrite Hrdv, Hindiv.
  destruct (orElse_present indiv (rdv_group_registered raw) Hne) as [Ho Ht].
  rewrite Ho, Ht, Hsplit. eexists. reflexivity.
Qed.

Lemma slot_not_reserved (raw : EpitechRawEvent) :
  isRdvEvent raw = true ->
  absent (rdv_indiv_registered raw) ->
  absent (rdv_group_registered raw) ->
  getRealTimeSlot raw =
    Return {| slot_start := parseEpitechDate (start raw);
              slot_end := parseEpitechDate (end_ raw);
              isPersonalSlot := Some false;
              duration := nb_hours raw |}.
Proof.
  intros Hrdv Hi Hg. unfold getRealTimeSlot. rewrite Hrdv.
  destruct Hi as [Hi|Hi], Hg as [Hg|Hg]; rewrite Hi, Hg; reflexivity.
Qed.

(** C5. For an appointment-type record, a present (non-empty) individual
    reservation is used whatever the group reservation is: the slot is cut
    at "|", its two halves are parsed into [startDate] and [endDate], and
    the title is the prefix followed by the cleaned activity title, without
    the not-reserved marker.  When neither reservation is present the event
    keeps the nominal [start]/[end] window and the marker stands in the
    title, before the activity title. *)
Theorem C5_personal_slot_override (raw : EpitechRawEvent) (prefix : string)
  (Hrdv : isRdvEvent raw = true) :
  (forall indiv realStart realEnd rest,
      rdv_indiv_registered raw = Some indiv ->
      indiv <> EmptyString ->
      JS.split "|" indiv = realStart :: realEnd :: rest ->
      exists e, transformEvent raw prefix = Return e
                /\ startDate e = parseEpitechDate realStart
                /\ endDate e = parseEpitechDate realEnd
                /\ title e = prefix ++ cleanActivityTitle (acti_title raw))
  /\
  (absent (rdv_indiv_registered raw) ->
   absent (rdv_group_registered raw) ->
   exists e, transformEvent raw prefix = Return e
             /\ startDate e = parseEpitechDate (start raw)
             /\ endDate e = parseEpitechDate (end_ raw)
             /\ title e = prefix ++ NOT_RESERVED ++ cleanActivityTitle (acti_title raw)).
Proof.
  split.
  - intros indiv realStart realEnd rest Hindiv Hne Hsplit.
    destruct (slot_reserved raw indiv realStart realEnd rest Hrdv Hindiv Hne Hsplit)
      as [d Hslot].
    destruct (transformEvent_of_slot raw prefix _ Hslot)
      as [e [He [_ [Hs [Hen [_ Ht]]]]]].
    exists e. repeat split; assumption.
  - intros Hi Hg.
    pose proof (slot_not_reserved raw Hrdv Hi Hg) as Hslot.
    destruct (transformEvent_of_slot raw prefix _ Hslot)
      as [e [He [_ [Hs [Hen [_ Ht]]]]]].
    exists e. repeat split; assumption.
Qed.

End Normalizer.

(** The example of the specification: the individual slot
    "2025-03-01 10:00:00|2025-03-01 11:00:00" gives 10:00 to 11:00 local
    time, the group slot is ignored, and the unreserved record keeps
    09:00 to 18:00. *)
Lemma C5_personal_slot_override_witness :
  isRdvEvent Samples.rdvReserved = true
  /\ (exists e, transformEvent Samples.rdvReserved "EPITECH - " = Return e
                /\ toIcsDateTime (startDate e) = Return "20250301T100000"
                /\ toIcsDateTime (endDate e) = Return "20250301T110000"
                /\ title e = "EPITECH - Follow-up")
  /\ (exists e, transformEvent Samples.rdvNotReserved "EPITECH - " = Return e
                /\ toIcsDateTime (startDate e) = Return "20250301T090000"
                /\ toIcsDateTime (endDate e) = Return "20250301T180000"
                /\ title e = "EPITECH - " ++ NOT_RESERVED ++ "Follow-up").
Proof.
  split; [reflexivity|]. split.
  - destruct (C5_personal_slot_override Samples.rdvReserved "EPITECH - " eq_refl)
      as [Hreserved _].
    destruct (Hreserved "2025-03-01 10:00:00|2025-03-01 11:00:00"
                "2025-03-01 10:00:00" "2025-03-01 11:00:00" []
                eq_refl ltac:(discriminate) eq_refl)
      as [e [He [Hs [Hen Ht]]]].
    exists e. rewrite Hs, Hen, Ht. repeat split; try reflexivity. exact He.
  - destruct (C5_personal_slot_override Samples.rdvNotReserved "EPITECH - " eq_refl)
      as [_ Hfree].
    destruct (Hfree (or_introl eq_refl) (or_introl eq_refl))
      as [e [He [Hs [Hen Ht]]]].
    exists e. rewrite Hs, Hen, Ht. repeat split; try reflexivity. exact He.
Defined.

(** ** The event id *)

Section EventId.
Context {zone : TimeZone}.

Lemma append_same_length_inj (a a' b b' : string) :
  String.length a = String.length a' ->
  a ++ b = a' ++ b' -> a = a' /\ b = b'.
Proof.
  revert a'. induction a as [|c a IH]; intros [|c' a'] Hlen H; simpl in *;
    try discriminate.
  - split; [reflexivity|assumption].
  - injection H as Hc Hrest. injection Hlen as Hlen.
    destruct (IH a' Hlen Hrest) as [-> ->]. subst. split; reflexivity.
Qed.

Lemma eventId_inj (r1 r2 : EpitechRawEvent) :
  String.length (codeacti r1) = String.length (codeacti r2) ->
  eventId r1 = eventId r2 ->
  codeacti r1 = codeacti r2 /\ codeevent r1 = codeevent r2.
Proof.
  unfold eventId. intros Hlen H.
  apply (append_same_length_inj "epitech-" "epitech-") in H; [|reflexivity].
  destruct H as [_ H].
  apply append_same_length_inj in H; [|assumption].
  destruct H as [Ha H]. split; [assumption|].
  apply (append_same_length_inj "-" "-") in H; [|reflexivity].
  apply H.
Qed.

Lemma transformEvent_id (raw : EpitechRawEvent) (prefix : string) (e : EpitechEvent) :
  transformEvent raw prefix = Return e -> id e = eventId raw.
Proof.
  intros H. destruct (getRealTimeSlot raw) as [ts|m] eqn:Hslot.
  - destruct (transformEvent_of_slot raw prefix ts Hslot) as [e' [He' [Hid _]]].
    rewrite He' in H. injection H as <-. exact Hid.
  - rewrite (transformEvent_throws raw prefix m Hslot) in H. discriminate.
Qed.

End EventId.

(** C6, as the claim states it, fails: two records that differ only in
    their module code have different natural keys and the same id. *)
Lemma C6_module_code_not_in_id :
  naturalKey Samples.rdvReserved <> naturalKey (Samples.withModule "B-CPE-100" Samples.rdvReserved)
  /\ idOf (transformEvent Samples.rdvReserved "EPITECH - ")
     = Some "epitech-acti-505014-event-474242"
  /\ idOf (transformEvent (Samples.withModule "B-CPE-100" Samples.rdvReserved) "EPITECH - ")
     = Some "epitech-acti-505014-event-474242".
Proof.
  split; [|split]; [discriminate | reflexivity | reflexivity].
Qed.

Section EventIdAmended.
Context {zone : TimeZone}.

(** C6, amended.  The id is "epitech-", the activity code, "-", the event
    code: it is a function of these two codes alone (neither the module
    code, nor the prefix, nor any other field takes part), and two records
    whose activity codes have the same length get the same id only if
    their activity codes and their event codes are equal. *)
Theorem C6_event_id_from_activity_and_event_codes
  (r1 r2 : EpitechRawEvent) (p1 p2 : string) (e1 e2 : EpitechEvent)
  (H1 : transformEvent r1 p1 = Return e1)
  (H2 : transformEvent r2 p2 = Return e2) :
  id e1 = "epitech-" ++ codeacti r1 ++ "-" ++ codeevent r1
  /\ (codeacti r1 = codeacti r2 -> codeevent r1 = codeevent r2 -> id e1 = id e2)
  /\ (String.length (codeacti r1) = String.length (codeacti r2) ->
      (codeacti r1, codeevent r1) <> (codeacti r2, codeevent r2) ->
      id e1 <> id e2).
Proof.
  pose proof (transformEvent_id r1 p1 e1 H1) as E1.
  pose proof (transformEvent_id r2 p2 e2 H2) as E2.
  split; [exact E1|]. split.
  - intros Ha Hev. rewrite E1, E2. unfold eventId. rewrite Ha, Hev. reflexivity.
  - intros Hlen Hne Hid. rewrite E1, E2 in Hid.
    destruct (eventId_inj r1 r2 Hlen Hid) as [Ha Hev].
    apply Hne. rewrite Ha, Hev. reflexivity.
Qed.

End EventIdAmended.

Lemma C6_event_id_from_activity_and_event_codes_witness :
  exists e1 e2,
    transformEvent Samples.rdvReserved "EPITECH - " = Return e1
    /\ transformEvent Samples.lectureBackwards "" = Return e2
    /\ id e1 = "epitech-acti-505014-event-474242"
    /\ id e1 <> id e2.
Proof.
  destruct (transformEvent Samples.rdvReserved "EPITECH - ") as [e1|] eqn:H1;
    [|discriminate].
  destruct (transformEvent Samples.lectureBackwards "") as [e2|] eqn:H2;
    [|discriminate].
  exists e1, e2.
  destruct (C6_event_id_from_activity_and_event_codes
              Samples.rdvReserved Samples.lectureBackwards "EPITECH - " "" e1 e2 H1 H2)
    as [Hid [_ Hdiff]].
  repeat split; [exact Hid|].
  apply Hdiff; [reflexivity|discriminate].
Defined.

(** ** Registration status *)

Section Registration.
Context {zone : TimeZone}.

Lemma vEventLines_returns (now : Z) (e : EpitechEvent) (s t : Z) :
  startDate e = Some s -> endDate e = Some t ->
  exists stamp dtstart dtend,
    vEventLines now e =
      Return (List.concat
           [ [ "BEGIN:VEVENT";
               "UID:" ++ generateUid e;
               "DTSTAMP:" ++ stamp;
               "DTSTART;TZID=Europe/Paris:" ++ dtstart;
               "DTEND;TZID=Europe/Paris:" ++ dtend;
               "SUMMARY:" ++ escapeIcsText (title e) ];
             if JS.truthy (description e)
             then [ "DESCRIPTION:" ++ escapeIcsText (description e) ] else [];
             if JS.truthy (location e)
             then [ "LOCATION:" ++ escapeIcsText (location e) ] else [];
             [ "CATEGORIES:EPITECH," ++ escapeIcsText (module_title (module e));
               "STATUS:" ++ (if isRegistered e then "CONFIRMED" else "TENTATIVE");
               "TRANSP:OPAQUE";
               "SEQUENCE:0";
               "END:VEVENT" ] ])
    /\ toIcsDateTime (Some now) = Return stamp.
Proof.
  intros Hs Ht. unfold vEventLines. rewrite Hs, Ht.
  unfold toIcsDateTime, ensureDate. cbn [bindO].
  do 3 eexists. split; reflexivity.
Qed.

Lemma vEventLines_throws (now : Z) (e : EpitechEvent) (m : string) :
  vEventLines now e = Throw m -> startDate e = None \/ endDate e = None.
Proof.
  destruct (startDate e) as [s|] eqn:Hs; [|left; reflexivity].
  destruct (endDate e) as [t|] eqn:Ht; [|right; reflexivity].
  destruct (vEventLines_returns now e s t Hs Ht) as [a [b [c [H _]]]].
  rewrite H. discriminate.
Qed.

Lemma status_lines (now : Z) (e : EpitechEvent) (lines : list string) :
  vEventLines now e = Return lines ->
  isRegistered e = true ->
  In "STATUS:CONFIRMED" lines /\ ~ In "STATUS:TENTATIVE" lines.
Proof.
  intros Hlines Hreg.
  destruct (startDate e) as [s|] eqn:Hs;
    [|unfold vEventLines in Hlines; rewrite Hs in Hlines; discriminate].
  destruct (endDate e) as [t|] eqn:Ht;
    [|unfold vEventLines in Hlines; rewrite Hs, Ht in Hlines; discriminate].
  destruct (vEventLines_returns now e s t Hs Ht) as [a [b [c [H _]]]].
  rewrite H in Hlines. injection Hlines as <-. rewrite Hreg.
  destruct (JS.truthy (description e)), (JS.truthy (location e)); cbn; split;
    try (intuition discriminate); tauto.
Qed.

(** C10. A record whose [event_registered] is "absent" is normalized to an
    event with [isRegistered = true], and the VEVENT of that event carries
    the line STATUS:CONFIRMED and no line STATUS:TENTATIVE.  (The
    normalizer throws only on an appointment slot without "|", the codec
    only on an invalid date.) *)
Theorem C10_absent_counts_as_registered (raw : EpitechRawEvent) (prefix : string)
  (Habsent : event_registered raw = RegString "absent") :
  match transformEvent raw prefix with
  | Return e =>
      isRegistered e = true
      /\ forall now,
          match vEventLines now e with
          | Return lines =>
              In "STATUS:CONFIRMED" lines /\ ~ In "STATUS:TENTATIVE" lines
              /\ generateVEvent now e = Return (JS.join CRLF (map foldLine lines))
          | Throw _ => startDate e = None \/ endDate e = None
          end
  | Throw m => getRealTimeSlot raw = Throw m
  end.
Proof.
  destruct (getRealTimeSlot raw) as [ts|m] eqn:Hslot.
  - destruct (transformEvent_of_slot raw prefix ts Hslot)
      as [e [He [_ [_ [_ [Hreg _]]]]]].
    rewrite He.
    assert (Hr : isRegistered e = true).
    { rewrite Hreg. unfold registrationOf. rewrite Habsent. reflexivity. }
    split; [exact Hr|]. intros now.
    destruct (vEventLines now e) as [lines|m] eqn:Hlines.
    + destruct (status_lines now e lines Hlines Hr) as [Hc Ht].
      repeat split; try assumption.
      unfold generateVEvent. rewrite Hlines. reflexivity.
    + exact (vEventLines_throws now e m Hlines).
  - rewrite (transformEvent_throws raw prefix m Hslot). reflexivity.
Qed.

End Registration.

Lemma C10_absent_counts_as_registered_witness :
  event_registered Samples.rdvReserved = RegString "absent"
  /\ exists e lines,
       transformEvent Samples.rdvReserved "EPITECH - " = Return e
       /\ isRegistered e = true
       /\ vEventLines 1740819600000 e = Return lines
       /\ In "STATUS:CONFIRMED" lines.
Proof.
  split; [reflexivity|].
  pose proof (C10_absent_counts_as_registered Samples.rdvReserved "EPITECH - " eq_refl) as H.
  destruct (transformEvent Samples.rdvReserved "EPITECH - ") as [e|] eqn:He;
    [|discriminate].
  destruct H as [Hreg Hdoc]. specialize (Hdoc 1740819600000).
  destruct (vEventLines 1740819600000 e) as [lines|] eqn:Hl.
  - exists e, lines. repeat split; try assumption. apply Hdoc.
  - exfalso. injection He as <-. destruct Hdoc as [Hd|Hd]; discriminate.
Defined.

(* ================================================================== *)
(** * Properties of the ICS codec *)
(* ================================================================== *)

(** ** The clock *)

Section Clock.
Context {zone : TimeZone}.

Lemma generateVEvent_stamp (t1 t2 : Z) (e : EpitechEvent) :
  toIcsDateTime (Some t1) = toIcsDateTime (Some t2) ->
  generateVEvent t1 e = generateVEvent t2 e.
Proof.
  intros H. unfold generateVEvent, vEventLines. rewrite H. reflexivity.
Qed.

Lemma generateVEvents_stamps (clock1 clock2 : nat -> Z) (events : list EpitechEvent) :
  forall k,
    (forall j, (j < List.length events)%nat ->
               toIcsDateTime (Some (clock1 (k + j)%nat))
               = toIcsDateTime (Some (clock2 (k + j)%nat))) ->
    generateVEvents clock1 k events = generateVEvents clock2 k events.
Proof.
  induction events as [|e rest IH]; intros k H; [reflexivity|].
  cbn [generateVEvents].
  rewrite (generateVEvent_stamp (clock1 k) (clock2 k) e).
  - rewrite (IH (S k)); [reflexivity|].
    intros j Hj. replace (S k + j)%nat with (k + S j)%nat by lia.
    apply H. simpl. lia.
  - specialize (H 0%nat). rewrite Nat.add_0_r in H. apply H. simpl. lia.
Qed.

End Clock.

(** C7, as the claim states it, fails: the same list encoded one second
    later gives another document. *)
Lemma C7_document_changes_with_the_clock :
  generateIcsContent (fun _ => 1740819600000) [Samples.lecture]
  <> generateIcsContent (fun _ => 1740819601000) [Samples.lecture].
Proof.
  intros H.
  apply (f_equal (fun o =>
           sameCompletion o (generateIcsContent (fun _ => 1740819601000) [Samples.lecture])))
    in H.
  vm_compute in H. discriminate.
Qed.

Section ClockAmended.
Context {zone : TimeZone}.

(** C7, amended.  The document is a function of the list and of the clock:
    each event is stamped (DTSTAMP) with the local time of the [new Date()]
    made for it, to the second.  Two calls with the same list whose clock
    readings agree to the second, event by event, give the same document. *)
Theorem C7_encode_deterministic_up_to_the_clock
  (clock1 clock2 : nat -> Z) (events : list EpitechEvent)
  (Hclock : forall k, (k < List.length events)%nat ->
                      toIcsDateTime (Some (clock1 k)) = toIcsDateTime (Some (clock2 k))) :
  generateIcsContent clock1 events = generateIcsContent clock2 events.
Proof.
  unfold generateIcsContent.
  rewrite (generateVEvents_stamps clock1 clock2 events 0%nat); [reflexivity|].
  intros j Hj. apply Hclock. exact Hj.
Qed.

End ClockAmended.

Lemma C7_encode_deterministic_up_to_the_clock_witness :
  (forall k, (k < 2)%nat ->
             toIcsDateTime (Some ((fun _ => 1740819600000) k))
             = toIcsDateTime (Some ((fun _ => 1740819600999) k)))
  /\ generateIcsContent (fun _ => 1740819600000) [Samples.lecture; Samples.lecture]
     = generateIcsContent (fun _ => 1740819600999) [Samples.lecture; Samples.lecture].
Proof.
  split.
  - intros k _. reflexivity.
  - apply (C7_encode_deterministic_up_to_the_clock
             (fun _ => 1740819600000) (fun _ => 1740819600999)
             [Samples.lecture; Samples.lecture]).
    intros k _. reflexivity.
Defined.

(** ** Line folding *)

Lemma length_take (n : nat) (s : string) :
  String.length (JS.take n s) = Nat.min n (String.length s).
Proof.
  revert s. induction n as [|n IH]; intros [|c s]; simpl; try reflexivity.
  rewrite IH. reflexivity.
Qed.

Lemma length_drop (n : nat) (s : string) :
  String.length (JS.drop n s) = (String.length s - n)%nat.
Proof.
  revert s. induction n as [|n IH]; intros [|c s]; simpl; try reflexivity.
  apply IH.
Qed.

Lemma take_drop (n : nat) (s : string) : JS.take n s ++ JS.drop n s = s.
Proof.
  revert s. induction n as [|n IH]; intros [|c s]; simpl; try reflexivity.
  rewrite IH. reflexivity.
Qed.

Lemma take_all (n : nat) (s : string) :
  (String.length s <= n)%nat -> JS.take n s = s.
Proof.
  revert s. induction n as [|n IH]; intros [|c s] H; simpl in *;
    try reflexivity; try lia.
  rewrite IH; [reflexivity|lia].
Qed.

Lemma octets_ascii (s : string) : JS.allAscii s = true -> JS.octets s = String.length s.
Proof.
  induction s as [|c s IH]; simpl; intros H; [reflexivity|].
  apply andb_true_iff in H. destruct H as [Hc Hs].
  unfold JS.utf8Octets. unfold JS.isAscii in Hc. rewrite Hc, (IH Hs). reflexivity.
Qed.

Lemma octets_at_least_length (s : string) : (String.length s <= JS.octets s)%nat.
Proof.
  induction s as [|c s IH]; simpl; [lia|].
  unfold JS.utf8Octets. destruct (JS.codeUnit c <? 128)%N; lia.
Qed.

Lemma allAscii_take (n : nat) (s : string) :
  JS.allAscii s = true -> JS.allAscii (JS.take n s) = true.
Proof.
  revert s. induction n as [|n IH]; intros [|c s] H; simpl in *; try reflexivity.
  apply andb_true_iff in H. destruct H as [Hc Hs].
  rewrite Hc, (IH s Hs). reflexivity.
Qed.

Lemma allAscii_drop (n : nat) (s : string) :
  JS.allAscii s = true -> JS.allAscii (JS.drop n s) = true.
Proof.
  revert s. induction n as [|n IH]; intros [|c s] H; simpl in *;
    try reflexivity; try assumption.
  apply andb_true_iff in H. destruct H as [_ Hs]. apply IH, Hs.
Qed.

Lemma continuationLines_S (fuel : nat) (remaining : string) :
  continuationLines (S fuel) remaining =
    if (0 <? String.length remaining)%nat
    then (" " ++ JS.take 74 remaining) :: continuationLines fuel (JS.drop 74 remaining)
    else [].
Proof. reflexivity. Qed.

Lemma append_empty_r (s : string) : s ++ "" = s.
Proof.
  induction s as [|c s IH]; simpl; [reflexivity|]. rewrite IH. reflexivity.
Qed.

Lemma concat_empty_cons (x : string) (xs : list string) :
  String.concat "" (x :: xs) = x ++ String.concat "" xs.
Proof.
  destruct xs; cbn [String.concat]; [symmetry; apply append_empty_r|reflexivity].
Qed.

(** Every continuation line is a space and at most 74 code units. *)
Lemma continuationLines_shape (fuel : nat) (remaining : string) :
  Forall (fun l => exists chunk,
                     l = " " ++ chunk
                     /\ (1 <= String.length chunk <= 74)%nat
                     /\ (JS.allAscii remaining = true -> JS.allAscii chunk = true))
         (continuationLines fuel remaining).
Proof.
  revert remaining. induction fuel as [|fuel IH]; intros remaining.
  - constructor.
  - rewrite continuationLines_S.
    destruct (0 <? String.length remaining)%nat eqn:Hlen; [|constructor].
    apply Nat.ltb_lt in Hlen.
    constructor.
    + exists (JS.take 74 remaining). split; [reflexivity|]. split.
      * rewrite length_take. lia.
      * apply allAscii_take.
    + eapply Forall_impl; [|apply IH].
      intros l [chunk [Hl [Hc Ha]]]. exists chunk. repeat split; try assumption; try lia.
      intros H. apply Ha, allAscii_drop, H.
Qed.

(** With one turn per code unit the loop consumes the whole string. *)
Lemma continuationLines_complete (fuel : nat) (remaining : string) :
  (String.length remaining <= fuel)%nat ->
  String.concat "" (map unfoldLine (continuationLines fuel remaining)) = remaining.
Proof.
  revert remaining. induction fuel as [|fuel IH]; intros remaining Hfuel.
  - destruct remaining; [reflexivity|simpl in Hfuel; lia].
  - rewrite continuationLines_S.
    destruct (0 <? String.length remaining)%nat eqn:Hlen.
    + apply Nat.ltb_lt in Hlen.
      cbn [map]. rewrite concat_empty_cons.
      rewrite IH by (rewrite length_drop; lia).
      change (unfoldLine (" " ++ JS.take 74 remaining)) with (JS.take 74 remaining).
      apply take_drop.
    + apply Nat.ltb_ge in Hlen. destruct remaining; [reflexivity|simpl in Hlen; lia].
Qed.

Lemma foldLine_physicalLines (line : string) :
  foldLine line = JS.join CRLF (physicalLines line).
Proof.
  unfold foldLine, physicalLines.
  destruct (String.length line <=? maxLength)%nat; reflexivity.
Qed.

(** Folding loses nothing: the physical lines, continuation spaces
    removed, are the content line. *)
Lemma physicalLines_unfolded (line : string) : unfolded (physicalLines line) = line.
Proof.
  unfold physicalLines.
  destruct (String.length line <=? maxLength)%nat.
  - cbn [unfolded map String.concat]. apply append_empty_r.
  - unfold foldedLines, unfolded.
    rewrite continuationLines_complete by (rewrite length_drop; lia).
    apply take_drop.
Qed.

(** What holds of the octets: a content line of ASCII characters is
    emitted in physical lines of at most 75 octets. *)
Lemma foldLine_ascii_at_most_75_octets (line : string) :
  JS.allAscii line = true ->
  Forall (fun l => (JS.octets l <= 75)%nat) (physicalLines line).
Proof.
  intros Hascii. unfold physicalLines.
  destruct (String.length line <=? maxLength)%nat eqn:Hlen.
  - apply Nat.leb_le in Hlen. constructor; [|constructor].
    rewrite (octets_ascii line Hascii). exact Hlen.
  - unfold foldedLines. constructor.
    + rewrite (octets_ascii _ (allAscii_take maxLength line Hascii)).
      rewrite length_take. unfold maxLength. lia.
    + eapply Forall_impl; [|apply continuationLines_shape].
      intros l [chunk [Hl [Hc Ha]]]. subst l.
      change (JS.octets (" " ++ chunk)) with (S (JS.octets chunk)).
      rewrite (octets_ascii chunk); [lia|].
      apply Ha, allAscii_drop, Hascii.
Qed.

(** In code units the bound always holds: no physical line is longer than
    75 code units. *)
Lemma foldLine_at_most_75_code_units (line : string) :
  Forall (fun l => (String.length l <= 75)%nat) (physicalLines line).
Proof.
  unfold physicalLines.
  destruct (String.length line <=? maxLength)%nat eqn:Hlen.
  - apply Nat.leb_le in Hlen. constructor; [exact Hlen|constructor].
  - unfold foldedLines. constructor.
    + rewrite length_take. unfold maxLength. lia.
    + eapply Forall_impl; [|apply continuationLines_shape].
      intros l [chunk [Hl [Hc _]]]. subst l.
      change (String.length (" " ++ chunk)) with (S (String.length chunk)). lia.
Qed.

(** C8: the code at a failing input.  The SUMMARY line of an unreserved
    appointment with a title of 35 letters has 75 code units and, with the
    three accented capitals of the marker, 78 octets in UTF-8; [foldLine]
    compares [line.length] with 75 and emits it unfolded. *)
Theorem C8_fold_counts_code_units_not_octets :
  exists e lines line,
    transformEvent Samples.rdvLongTitle "EPITECH - " = Return e
    /\ vEventLines 1740819600000 e = Return lines
    /\ line = "SUMMARY:" ++ escapeIcsText (title e)
    /\ In line lines
    /\ String.length line = 75%nat
    /\ JS.octets line = 78%nat
    /\ physicalLines line = [line]
    /\ foldLine line = line.
Proof.
  do 3 eexists. split; [reflexivity|]. split; [reflexivity|].
  split; [reflexivity|]. split; [vm_compute; do 5 right; left; reflexivity|].
  repeat split; reflexivity.
Qed.

(* ================================================================== *)
(** * Order of the dates of an event *)
(* ================================================================== *)

Section DateOrder.
Context {zone : TimeZone}.

Lemma getRealTimeSlot_window (raw : EpitechRawEvent) (s t : string) :
  windowOf raw = Some (s, t) ->
  exists ts, getRealTimeSlot raw = Return ts
             /\ slot_start ts = parseEpitechDate s
             /\ slot_end ts = parseEpitechDate t.
Proof.
  unfold windowOf, getRealTimeSlot. intros H.
  destruct (isRdvEvent raw).
  - destruct (JS.orElse (rdv_indiv_registered raw) (rdv_group_registered raw))
      as [slot|].
    + destruct (JS.truthy slot).
      * destruct (JS.split "|" slot) as [|a [|b rest]]; try discriminate.
        injection H as <- <-. eexists. repeat split.
      * injection H as <- <-. eexists. repeat split.
    + injection H as <- <-. eexists. repeat split.
  - injection H as <- <-. eexists. repeat split.
Qed.

Lemma parseEpitechDate_civilFields (dateStr : string) (f : Civil) :
  civilFields dateStr = Some f ->
  parseEpitechDate dateStr =
    let '(y, mo, d, h, mi, s) := f in
    newDate (Some y) (Some (mo - 1)) (Some d) (Some h) (Some mi) (Some s).
Proof.
  unfold civilFields, parseEpitechDate. cbv zeta.
  destruct (JS.Number (nth 0 (map Some (JS.split "-" (nth 0 (JS.split " " dateStr) ""))) None));
    [|discriminate].
  destruct (JS.Number (nth 1 (map Some (JS.split "-" (nth 0 (JS.split " " dateStr) ""))) None));
    [|discriminate].
  destruct (JS.Number (nth 2 (map Some (JS.split "-" (nth 0 (JS.split " " dateStr) ""))) None));
    [|discriminate].
  destruct (JS.Number (nth 0 _ None)); [|discriminate].
  destruct (JS.Number (nth 1 _ None)); [|discriminate].
  destruct (JS.Number (nth 2 _ None)); [|discriminate].
  intros H. injection H as <-. reflexivity.
Qed.

Lemma DayFromYear_step (y : Z) :
  DayFromYear (y + 1) = DayFromYear y + (if InLeapYear y then 366 else 365).
Proof.
  unfold DayFromYear, InLeapYear.
  destruct (y mod 4 =? 0) eqn:H4; destruct (y mod 100 =? 0) eqn:H100;
    destruct (y mod 400 =? 0) eqn:H400; cbn [andb orb negb];
    rewrite ?Z.eqb_eq, ?Z.eqb_neq in *;
    Z.div_mod_to_equations; lia.
Qed.

Lemma DayFromYear_mono (y y' : Z) : y <= y' -> DayFromYear y <= DayFromYear y'.
Proof.
  unfold DayFromYear. intros H. Z.div_mod_to_equations. lia.
Qed.

Lemma DayFromYear_bounds (y : Z) :
  1000 <= y <= 9999 -> -400000 <= DayFromYear y <= 3000000.
Proof.
  unfold DayFromYear. intros H. Z.div_mod_to_equations. lia.
Qed.

(** A valid day of a year falls inside the year. *)
Lemma day_within_year (y mo d : Z) :
  1 <= mo <= 12 -> 1 <= d <= daysInMonth y mo ->
  0 <= DaysBeforeMonth (InLeapYear y) (mo - 1) + d - 1
    <= (if InLeapYear y then 365 else 364).
Proof.
  intros Hmo Hd. unfold daysInMonth in Hd.
  destruct (InLeapYear y); month_cases mo; cbn in Hd; eval_months; lia.
Qed.

(** The first of a later month comes after every valid day of an earlier
    month of the same year. *)
Lemma month_before_month (y mo d mo' : Z) :
  1 <= mo -> mo < mo' -> mo' <= 12 -> 1 <= d <= daysInMonth y mo ->
  DaysBeforeMonth (InLeapYear y) (mo - 1) + d - 1
    < DaysBeforeMonth (InLeapYear y) (mo' - 1).
Proof.
  intros H1 Hlt H12 Hd. unfold daysInMonth in Hd.
  destruct (InLeapYear y); month_cases mo; month_cases mo';
    cbn in Hd; eval_months; lia.
Qed.

Lemma MakeDay_valid (y mo d : Z) :
  1 <= mo <= 12 ->
  MakeDay y (mo - 1) d = DayFromYear y + DaysBeforeMonth (InLeapYear y) (mo - 1) + d - 1.
Proof.
  intros Hmo. unfold MakeDay.
  replace ((mo - 1) / 12) with 0 by (symmetry; apply Z.div_small; lia).
  rewrite Z.mod_small by lia. rewrite Z.add_0_r. reflexivity.
Qed.

(** Day numbers follow the order of valid dates. *)
Lemma MakeDay_lt (y1 mo1 d1 y2 mo2 d2 : Z) :
  1 <= mo1 <= 12 -> 1 <= d1 <= daysInMonth y1 mo1 ->
  1 <= mo2 <= 12 -> 1 <= d2 <= daysInMonth y2 mo2 ->
  y1 < y2 \/ (y1 = y2 /\ (mo1 < mo2 \/ (mo1 = mo2 /\ d1 < d2))) ->
  MakeDay y1 (mo1 - 1) d1 < MakeDay y2 (mo2 - 1) d2.
Proof.
  intros Hm1 Hd1 Hm2 Hd2 Hlt.
  rewrite !MakeDay_valid by assumption.
  pose proof (day_within_year y1 mo1 d1 Hm1 Hd1) as B1.
  pose proof (day_within_year y2 mo2 d2 Hm2 Hd2) as B2.
  destruct Hlt as [Hy|[Hy [Hm|[Hm Hd]]]].
  - pose proof (DayFromYear_step y1) as Hs.
    pose proof (DayFromYear_mono (y1 + 1) y2 ltac:(lia)) as Hmono.
    destruct (InLeapYear y1); lia.
  - subst y2.
    pose proof (month_before_month y1 mo1 d1 mo2 ltac:(lia) Hm ltac:(lia) Hd1).
    lia.
  - subst y2 mo2. lia.
Qed.

Lemma validCivil_spec (y mo d h mi s : Z) :
  validCivil (y, mo, d, h, mi, s) = true ->
  1000 <= y <= 9999 /\ 1 <= mo <= 12 /\ 1 <= d <= daysInMonth y mo
  /\ 0 <= h <= 23 /\ 0 <= mi <= 59 /\ 0 <= s <= 59.
Proof.
  unfold validCivil. rewrite !andb_true_iff, !Z.leb_le. tauto.
Qed.

Lemma lexLe_spec (a1 a2 a3 a4 a5 a6 b1 b2 b3 b4 b5 b6 : Z) :
  lexLe [a1; a2; a3; a4; a5; a6] [b1; b2; b3; b4; b5; b6] = true <->
  a1 < b1 \/ (a1 = b1 /\ (a2 < b2 \/ (a2 = b2 /\ (a3 < b3 \/ (a3 = b3 /\
  (a4 < b4 \/ (a4 = b4 /\ (a5 < b5 \/ (a5 = b5 /\ a6 <= b6))))))))).
Proof.
  cbn [lexLe]. rewrite !orb_true_iff, !andb_true_iff, !Z.ltb_lt, !Z.eqb_eq. lia.
Qed.

(** Local time values follow the order of valid civil date-times. *)
Lemma localTimeOf_order (f1 f2 : Civil) :
  validCivil f1 = true -> validCivil f2 = true ->
  (localTimeOf f1 <=? localTimeOf f2) = civilLe f1 f2.
Proof.
  destruct f1 as [[[[[y1 mo1] d1] h1] mi1] s1].
  destruct f2 as [[[[[y2 mo2] d2] h2] mi2] s2].
  intros V1 V2.
  apply validCivil_spec in V1. apply validCivil_spec in V2.
  destruct V1 as [Hy1 [Hm1 [Hd1 [Hh1 [Hmi1 Hs1]]]]].
  destruct V2 as [Hy2 [Hm2 [Hd2 [Hh2 [Hmi2 Hs2]]]]].
  apply Bool.eq_iff_eq_true. rewrite Z.leb_le.
  unfold civilLe. rewrite lexLe_spec.
  unfold localTimeOf, MakeDate, MakeTime, msPerDay.
  assert (Flt : y1 < y2 \/ (y1 = y2 /\ (mo1 < mo2 \/ (mo1 = mo2 /\ d1 < d2))) ->
                MakeDay y1 (mo1 - 1) d1 < MakeDay y2 (mo2 - 1) d2)
    by (apply MakeDay_lt; assumption).
  assert (Fgt : y2 < y1 \/ (y2 = y1 /\ (mo2 < mo1 \/ (mo2 = mo1 /\ d2 < d1))) ->
                MakeDay y2 (mo2 - 1) d2 < MakeDay y1 (mo1 - 1) d1)
    by (apply MakeDay_lt; assumption).
  assert (Feq : y1 = y2 -> mo1 = mo2 -> d1 = d2 ->
                MakeDay y1 (mo1 - 1) d1 = MakeDay y2 (mo2 - 1) d2)
    by (intros; subst; reflexivity).
  clear Hd1 Hd2.
  generalize dependent (MakeDay y1 (mo1 - 1) d1).
  generalize dependent (MakeDay y2 (mo2 - 1) d2).
  intros n2 n1 Flt Fgt Feq. lia.
Qed.

Lemma newDate_valid (y mo d h mi s : Z) :
  validCivil (y, mo, d, h, mi, s) = true ->
  newDate (Some y) (Some (mo - 1)) (Some d) (Some h) (Some mi) (Some s)
  = Some (UTC (localTimeOf (y, mo, d, h, mi, s))).
Proof.
  intros V. apply validCivil_spec in V.
  destruct V as [Hy [Hm [Hd [Hh [Hmi Hs]]]]].
  unfold newDate.
  replace ((0 <=? y) && (y <=? 99)) with false
    by (symmetry; apply andb_false_iff; right; apply Z.leb_gt; lia).
  unfold TimeClip, localTimeOf.
  replace (Z.abs (UTC (MakeDate (MakeDay y (mo - 1) d) (MakeTime h mi s 0)))
           >? 8640000000000000) with false; [reflexivity|].
  symmetry. rewrite Z.gtb_ltb. apply Z.ltb_ge.
  unfold UTC.
  pose proof (LocalTZA_range (MakeDate (MakeDay y (mo - 1) d) (MakeTime h mi s 0)) false)
    as Hzone.
  rewrite MakeDay_valid in * by assumption.
  pose proof (DayFromYear_bounds y Hy) as HD.
  pose proof (day_within_year y mo d Hm Hd) as HW.
  unfold MakeDate, MakeTime, msPerDay in *.
  destruct (InLeapYear y); lia.
Qed.

Lemma parseEpitechDate_valid (dateStr : string) (f : Civil) :
  civilFields dateStr = Some f -> validCivil f = true ->
  parseEpitechDate dateStr = Some (UTC (localTimeOf f)).
Proof.
  intros Hf V. rewrite (parseEpitechDate_civilFields dateStr f Hf).
  destruct f as [[[[[y mo] d] h] mi] s]. apply newDate_valid, V.
Qed.

End DateOrder.

(** C9, as the claim states it, fails: a record whose nominal window ends
    before it starts, in the documented format, is normalized to an event
    whose [startDate] is after its [endDate]. *)
Lemma C9_backwards_window_is_kept :
  exists e,
    transformEvent Samples.lectureBackwards "EPITECH - " = Return e
    /\ toIcsDateTime (startDate e) = Return "20250301T110000"
    /\ toIcsDateTime (endDate e) = Return "20250301T100000"
    /\ dateLe (startDate e) (endDate e) = false.
Proof.
  eexists. split; [reflexivity|]. repeat split; reflexivity.
Qed.

Section DateOrderAmended.
Context {zone : TimeZone}.

(** C9, amended.  [startDate] and [endDate] are the two ends of the window
    the normalizer reads (the reserved slot of an appointment, the nominal
    window otherwise), parsed and left in the order of the source: when both
    ends are valid dates of the calendar in the format of the intranet, and
    the local time of the host has the same offset from UTC at both (no
    change of offset, as for daylight saving time, lies between them),
    [startDate <= endDate] holds exactly when the start of the window is not
    after its end. *)
Theorem C9_dates_ordered_as_the_source_window
  (raw : EpitechRawEvent) (prefix : string) (s t : string) (f1 f2 : Civil)
  (Hwindow : windowOf raw = Some (s, t))
  (Hstart : civilFields s = Some f1)
  (Hend : civilFields t = Some f2)
  (Vstart : validCivil f1 = true)
  (Vend : validCivil f2 = true)
  (Hoffset : LocalTZA (localTimeOf f1) false = LocalTZA (localTimeOf f2) false) :
  exists e, transformEvent raw prefix = Return e
            /\ startDate e = parseEpitechDate s
            /\ endDate e = parseEpitechDate t
            /\ dateLe (startDate e) (endDate e) = civilLe f1 f2.
Proof.
  destruct (getRealTimeSlot_window raw s t Hwindow) as [ts [Hslot [Hs Ht]]].
  destruct (transformEvent_of_slot raw prefix ts Hslot)
    as [e [He [_ [Hes [Hee _]]]]].
  exists e. split; [exact He|].
  rewrite Hes, Hee, Hs, Ht. split; [reflexivity|]. split; [reflexivity|].
  rewrite (parseEpitechDate_valid s f1 Hstart Vstart).
  rewrite (parseEpitechDate_valid t f2 Hend Vend).
  unfold dateLe, getTime, UTC. rewrite Hoffset.
  rewrite <- (localTimeOf_order f1 f2 Vstart Vend).
  apply Bool.eq_iff_eq_true. rewrite !Z.leb_le. lia.
Qed.

End DateOrderAmended.

Lemma C9_dates_ordered_as_the_source_window_witness :
  windowOf Samples.rdvReserved = Some ("2025-03-01 10:00:00", "2025-03-01 11:00:00")
  /\ civilFields "2025-03-01 10:00:00" = Some (2025, 3, 1, 10, 0, 0)
  /\ civilFields "2025-03-01 11:00:00" = Some (2025, 3, 1, 11, 0, 0)
  /\ validCivil (2025, 3, 1, 10, 0, 0) = true
  /\ validCivil (2025, 3, 1, 11, 0, 0) = true
  /\ LocalTZA (localTimeOf (2025, 3, 1, 10, 0, 0)) false
     = LocalTZA (localTimeOf (2025, 3, 1, 11, 0, 0)) false
  /\ exists e, transformEvent Samples.rdvReserved "EPITECH - " = Return e
               /\ dateLe (startDate e) (endDate e) = true.
Proof.
  repeat (split; [reflexivity|]).
  destruct (C9_dates_ordered_as_the_source_window (zone := Samples.cet)
              Samples.rdvReserved "EPITECH - "
              "2025-03-01 10:00:00" "2025-03-01 11:00:00"
              (2025, 3, 1, 10, 0, 0) (2025, 3, 1, 11, 0, 0)
              eq_refl eq_refl eq_refl eq_refl eq_refl eq_refl)
    as [e [He [_ [_ Hle]]]].
  exists e. split; [exact He|]. rewrite Hle. reflexivity.
Defined.

(* ================================================================== *)
(** * The concurrency guard of the orchestrator *)
(* ================================================================== *)

Section Guard.
Context {zone : TimeZone}.

(** A request that arrives during a pass is answered at once and changes
    nothing: neither the guard, nor the storage, nor the calendars, nor the
    list of calls made. *)
Lemma performSync_rejects_while_syncing (manual : bool) (st : SyncManager.State) :
  SyncManager.isSyncing st = true ->
  SyncManager.performSync manual st =
    (Return {| SyncManager.success := false;
               SyncManager.timestamp := now (SyncManager.env st);
               SyncManager.eventsProcessed := 0;
               SyncManager.eventsCreated := 0;
               SyncManager.eventsUpdated := 0;
               SyncManager.eventsDeleted := 0;
               SyncManager.errors := ["Sync already in progress"];
               SyncManager.details := [] |}, st).
Proof.
  intros H. unfold SyncManager.performSync. rewrite H. reflexivity.
Qed.

(** Once the pass is entered, the [finally] block resets the guard however
    the pass ends: with a result, or with an error thrown by the [catch]
    block or by the [finally] block itself. *)
Lemma performSync_resets_guard (manual : bool) (st : SyncManager.State) (env1 : Env) :
  SyncManager.isSyncing st = false ->
  updateSyncStatus SyncManager.markSyncing (SyncManager.env st) = (Return tt, env1) ->
  SyncManager.isSyncing (snd (SyncManager.performSync manual st)) = false.
Proof.
  intros Hidle Hfirst. unfold SyncManager.performSync. rewrite Hidle, Hfirst.
  destruct (SyncManager.stepTryCatch (SyncManager.tryBlock manual) SyncManager.catchBlock
              (SyncManager.freshResult (now env1)) env1) as [[completion result] env2].
  destruct (updateSyncStatus SyncManager.markIdle env2) as [[u|m] env3];
    [destruct completion|]; reflexivity.
Qed.

(** The first write of the status stands before the [try]: when it fails,
    the call throws and the guard stays set. *)
Lemma performSync_first_status_write_fails
  (manual : bool) (st : SyncManager.State) (m : string) (env1 : Env) :
  SyncManager.isSyncing st = false ->
  updateSyncStatus SyncManager.markSyncing (SyncManager.env st) = (Throw m, env1) ->
  SyncManager.performSync manual st
  = (Throw m, {| SyncManager.isSyncing := true; SyncManager.env := env1 |}).
Proof.
  intros Hidle Hfirst. unfold SyncManager.performSync. rewrite Hidle, Hfirst.
  reflexivity.
Qed.

End Guard.

(** C4.  The write of the sync status that follows [isSyncing = true]
    stands before the [try]: when the storage rejects it, the invocation
    completes with that error without reaching the [finally] block, which
    is where the guard is reset.  The guard stays set, and the next
    request, like every later one, is answered "Sync already in
    progress". *)
Theorem C4_guard_stays_set_after_a_failed_status_write :
  let st := {| SyncManager.isSyncing := false;
               SyncManager.env := Samples.world Samples.statusWriteFails |} in
  exists st',
    SyncManager.performSync true st = (Throw "QUOTA_BYTES quota exceeded", st')
    /\ SyncManager.isSyncing st' = true
    /\ exists r,
         SyncManager.performSync true st' = (Return r, st')
         /\ SyncManager.errors r = ["Sync already in progress"].
Proof.
  intros st.
  destruct (updateSyncStatus SyncManager.markSyncing (SyncManager.env st))
    as [o env1] eqn:Hfirst.
  assert (Ho : o = Throw "QUOTA_BYTES quota exceeded").
  { pose proof Hfirst as N. vm_compute in N. injection N as <- _. reflexivity. }
  subst o.
  exists {| SyncManager.isSyncing := true; SyncManager.env := env1 |}.
  split; [exact (performSync_first_status_write_fails true st _ env1 eq_refl Hfirst)|].
  split; [reflexivity|].
  eexists. split; [apply performSync_rejects_while_syncing; reflexivity|reflexivity].
Qed.

(* ================================================================== *)
(** * Reconciliation with the Google calendar *)
(* ================================================================== *)

(** ** Recorded calls *)

Lemma logCalls_frame (calls : list Call) (env : Env) :
  google (logCalls calls env) = google env
  /\ faults (logCalls calls env) = faults env
  /\ stored_settings (logCalls calls env) = stored_settings env
  /\ trace (logCalls calls env) = (trace env ++ calls)%list.
Proof.
  revert env. induction calls as [|c calls IH]; intros env.
  - cbn. rewrite app_nil_r. repeat split.
  - cbn [logCalls fold_left]. fold (logCalls calls (logCall c env)).
    destruct (IH (logCall c env)) as [Hg [Hf [Hs Ht]]].
    rewrite Hg, Hf, Hs, Ht. cbn. rewrite <- app_assoc. repeat split.
Qed.

Lemma quiet_nil : quiet [].
Proof. repeat split. Qed.

Lemma quiet_app (a b : list Call) : quiet a -> quiet b -> quiet (a ++ b).
Proof.
  unfold quiet, createdIds, updatedIds, deletedEntries.
  intros [A1 [A2 A3]] [B1 [B2 B3]]. rewrite !flat_map_app.
  rewrite A1, A2, A3, B1, B2, B3. repeat split.
Qed.

(** ** Listing the entries the query matches *)

Lemma maxResults_pos : (0 < maxResults)%nat.
Proof. unfold maxResults. lia. Qed.

Lemma collect_app (acc : EventMap) (a b : list GoogleCalendarEvent) :
  collect acc (a ++ b) = collect (collect acc a) b.
Proof. unfold collect. apply fold_left_app. Qed.

Lemma listRequest_ok (calendar : string) (pageToken : option nat) (env : Env) :
  faults env (Google (GList calendar pageToken)) = None ->
  listRequest calendar pageToken env =
    (Return {| items := firstn maxResults
                          (skipn (tokenOffset pageToken) (filter matchesQuery (google env)));
               nextPageToken :=
                 if (tokenOffset pageToken + maxResults
                     <? List.length (filter matchesQuery (google env)))%nat
                 then Some (tokenOffset pageToken + maxResults)%nat else None |},
     logCall (Google (GList calendar pageToken)) env).
Proof.
  intros H. unfold listRequest, googleApiRequest, call. rewrite H. reflexivity.
Qed.

Lemma listPages_ok (calendar : string) (fuel : nat) :
  forall (pageToken : option nat) (acc : EventMap) (env : Env),
    (forall t, faults env (Google (GList calendar t)) = None) ->
    (List.length (filter matchesQuery (google env)) < tokenOffset pageToken + fuel)%nat ->
    exists calls,
      listPages fuel calendar pageToken acc env =
        (Return (collect acc (skipn (tokenOffset pageToken)
                                (filter matchesQuery (google env)))),
         logCalls calls env)
      /\ quiet calls.
Proof.
  pose proof maxResults_pos as Hpos.
  induction fuel as [|fuel IH]; intros pageToken acc env Hfaults Hfuel.
  - exists []. split; [|apply quiet_nil].
    cbn [listPages]. unfold ret.
    rewrite skipn_all2 by lia. reflexivity.
  - cbn [listPages]. unfold bind.
    rewrite (listRequest_ok calendar pageToken env (Hfaults pageToken)).
    cbn [items nextPageToken].
    set (matching := filter matchesQuery (google env)) in *.
    set (offset := tokenOffset pageToken) in *.
    destruct (offset + maxResults <? List.length matching)%nat eqn:Hmore.
    + apply Nat.ltb_lt in Hmore.
      destruct (IH (Some (offset + maxResults)%nat)
                  (collect acc (firstn maxResults (skipn offset matching)))
                  (logCall (Google (GList calendar pageToken)) env))
        as [calls [Hrun Hquiet]].
      * intros t. apply Hfaults.
      * cbn [tokenOffset]. change (google (logCall _ env)) with (google env).
        fold matching. lia.
      * exists (Google (GList calendar pageToken) :: calls).
        split.
        -- rewrite Hrun. cbn [tokenOffset].
           change (google (logCall _ env)) with (google env). fold matching.
           rewrite <- collect_app.
           replace (skipn (offset + maxResults) matching)
             with (skipn maxResults (skipn offset matching))
             by (rewrite skipn_skipn; f_equal; lia).
           rewrite firstn_skipn. reflexivity.
        -- apply (quiet_app [Google (GList calendar pageToken)] calls);
             [repeat split|exact Hquiet].
    + apply Nat.ltb_ge in Hmore.
      exists [Google (GList calendar pageToken)]. split; [|repeat split].
      unfold ret. rewrite firstn_all2; [reflexivity|].
      rewrite length_skipn. lia.
Qed.

Lemma getExistingEvents_ok (calendar : string) (env : Env) :
  (forall t, faults env (Google (GList calendar t)) = None) ->
  exists calls,
    getExistingEvents calendar env =
      (Return (collect [] (filter matchesQuery (google env))), logCalls calls env)
    /\ quiet calls.
Proof.
  intros Hfaults. unfold getExistingEvents.
  destruct (listPages_ok calendar (S (List.length (google env))) None [] env Hfaults)
    as [calls [Hrun Hquiet]].
  - cbn [tokenOffset]. pose proof (filter_length_le matchesQuery (google env)). lia.
  - exists calls. split; [exact Hrun|exact Hquiet].
Qed.

(** ** The map of existing events *)

Lemma mapGet_In (k : string) (v : GoogleCalendarEvent) (m : EventMap) :
  mapGet k m = Some v -> In (k, v) m.
Proof.
  induction m as [|[k' v'] m IH]; cbn [mapGet]; [discriminate|].
  destruct (String.eqb k' k) eqn:E.
  - apply String.eqb_eq in E. intros H. injection H as <-. subst. left. reflexivity.
  - intros H. right. apply IH, H.
Qed.

Lemma mapGet_None (k : string) (m : EventMap) :
  mapGet k m = None <-> ~ In k (map fst m).
Proof.
  induction m as [|[k' v'] m IH]; cbn [mapGet map fst In]; [tauto|].
  destruct (String.eqb k' k) eqn:E.
  - apply String.eqb_eq in E. split; [discriminate|]. intros H. exfalso. tauto.
  - apply String.eqb_neq in E. rewrite IH. tauto.
Qed.

Lemma memberOf_In (l : list string) (x : string) : memberOf l x = true <-> In x l.
Proof.
  unfold memberOf. rewrite existsb_exists. split.
  - intros [y [Hin E]]. apply String.eqb_eq in E. subst. exact Hin.
  - intros Hin. exists x. split; [exact Hin|apply String.eqb_refl].
Qed.

Lemma memberOf_not_In (l : list string) (x : string) : memberOf l x = false <-> ~ In x l.
Proof.
  rewrite <- memberOf_In. destruct (memberOf l x); split; intros H;
    try discriminate; try reflexivity.
  exfalso. apply H. reflexivity.
Qed.

Lemma matchesQuery_spec (ev : GoogleCalendarEvent) :
  matchesQuery ev = true <-> tagOf ev = Some "epitech-".
Proof.
  unfold matchesQuery. destruct (tagOf ev) as [t|]; [|split; discriminate].
  rewrite String.eqb_eq. split.
  - intros ->. reflexivity.
  - intros H. injection H as ->. reflexivity.
Qed.

(** The id of a canonical event is not the value the query asks for. *)
Lemma canonical_not_the_query (i : string) : canonicalId i = true -> i <> "epitech-".
Proof.
  unfold canonicalId. intros H ->. apply andb_true_iff in H. destruct H as [_ H].
  rewrite String.eqb_refl in H. discriminate.
Qed.

Lemma mapSet_keys (k0 : string) (v0 : GoogleCalendarEvent) (m : EventMap) (k : string) :
  In k (map fst (mapSet k0 v0 m)) -> k = k0 \/ In k (map fst m).
Proof.
  induction m as [|[k' v'] m IH]; cbn [mapSet map fst In].
  - intros [<-|[]]. left. reflexivity.
  - destruct (String.eqb k' k0) eqn:E; cbn [map fst In].
    + intros [<-|H]; [right; left; reflexivity|right; right; exact H].
    + intros [<-|H]; [right; left; reflexivity|].
      destruct (IH H) as [->|H']; [left; reflexivity|right; right; exact H'].
Qed.

(** A key of the map is the tag of an entry of a page. *)
Lemma collect_keys (page : list GoogleCalendarEvent) :
  forall (acc : EventMap) (k : string),
    In k (map fst (collect acc page)) ->
    In k (map fst acc) \/ exists ev, In ev page /\ tagOf ev = Some k.
Proof.
  induction page as [|ev page IH]; intros acc k H.
  - left. exact H.
  - unfold collect in H. cbn [fold_left] in H.
    match type of H with
    | In k (map fst (fold_left ?step page ?acc1)) =>
        change (fold_left step page acc1) with (collect acc1 page) in H
    end.
    destruct (IH _ _ H) as [Hacc|[ev' [Hin Htag]]].
    + destruct (tagOf ev) as [t|] eqn:Et; [|left; exact Hacc].
      destruct (JS.truthy t); [|left; exact Hacc].
      destruct (mapSet_keys t ev acc k Hacc) as [->|Hk]; [|left; exact Hk].
      right. exists ev. split; [left; reflexivity|exact Et].
    + right. exists ev'. split; [right; exact Hin|exact Htag].
Qed.

(** Every key of the map the listing gives is the value of the query. *)
Lemma listed_keys (l : list GoogleCalendarEvent) (k : string) :
  In k (map fst (collect [] (filter matchesQuery l))) -> k = "epitech-".
Proof.
  intros H. destruct (collect_keys _ _ _ H) as [[]|[ev [Hin Htag]]].
  apply filter_In in Hin. destruct Hin as [_ Hm].
  apply matchesQuery_spec in Hm. congruence.
Qed.

Lemma canonical_not_listed (l : list GoogleCalendarEvent) (i : string) :
  canonicalId i = true -> mapGet i (collect [] (filter matchesQuery l)) = None.
Proof.
  intros Hc. apply mapGet_None. intros Hin. apply listed_keys in Hin.
  exact (canonical_not_the_query i Hc Hin).
Qed.

Lemma mirroredIds_app (a b : list GoogleCalendarEvent) :
  mirroredIds (a ++ b) = (mirroredIds a ++ mirroredIds b)%list.
Proof. unfold mirroredIds. apply flat_map_app. Qed.

(** ** The calendar service *)

Lemma entry_unique (l : list GoogleCalendarEvent) (a b : GoogleCalendarEvent) :
  NoDup (map g_id l) -> In a l -> In b l -> g_id a = g_id b -> a = b.
Proof.
  induction l as [|x l IH]; intros Hnd Ha Hb Heq; [contradiction|].
  cbn [map] in Hnd. inversion Hnd as [|? ? Hnotin Hnd']; subst.
  destruct Ha as [Ha|Ha], Hb as [Hb|Hb]; subst.
  - reflexivity.
  - exfalso. apply Hnotin. rewrite Heq. apply in_map, Hb.
  - exfalso. apply Hnotin. rewrite <- Heq. apply in_map, Ha.
  - apply IH; assumption.
Qed.

Lemma hasId_spec (g : string) (ev : GoogleCalendarEvent) :
  hasId g ev = true <-> g_id ev = g.
Proof. unfold hasId. apply String.eqb_eq. Qed.

Lemma insertRequest_ok (calendar : string) (body : GoogleEventBody) (env : Env) :
  faults env (Google (GInsert calendar body)) = None ->
  insertRequest calendar body env =
    (Return {| g_id := freshId (google env); g_body := body |},
     setGoogle (google env ++ [ {| g_id := freshId (google env); g_body := body |} ])%list
       (logCall (Google (GInsert calendar body)) env)).
Proof. intros H. unfold insertRequest, googleApiRequest, call. rewrite H. reflexivity. Qed.

Lemma insertRequest_fails (calendar msg : string) (body : GoogleEventBody) (env : Env) :
  faults env (Google (GInsert calendar body)) = Some msg ->
  insertRequest calendar body env =
    (Throw msg, logCall (Google (GInsert calendar body)) env).
Proof. intros H. unfold insertRequest, googleApiRequest, call. rewrite H. reflexivity. Qed.

(** The delete of an entry that is there removes it, and the call is
    rejected all the same: the reply has no body to parse. *)
Lemma deleteRequest_no_body (calendar g : string) (env : Env) :
  faults env (Google (GDelete calendar g)) = None ->
  existsb (hasId g) (google env) = true ->
  deleteRequest calendar g env =
    (Throw emptyBody,
     setGoogle (removed g (google env)) (logCall (Google (GDelete calendar g)) env)).
Proof.
  intros H Hex. unfold deleteRequest, googleApiRequest, call. rewrite H.
  change (google (logCall _ env)) with (google env). rewrite Hex. reflexivity.
Qed.

(** No delete returns normally. *)
Lemma deleteRequest_throws (calendar g : string) (env : Env) :
  exists msg env', deleteRequest calendar g env = (Throw msg, env').
Proof.
  unfold deleteRequest, googleApiRequest, call.
  destruct (faults env (Google (GDelete calendar g))) as [msg|]; [eexists; eexists; reflexivity|].
  destruct (existsb (hasId g) (google (logCall (Google (GDelete calendar g)) env)));
    eexists; eexists; reflexivity.
Qed.

Lemma toGoogleEvent_ok (e : EpitechEvent) :
  validDates e = true ->
  exists body,
    toGoogleEvent e = Return body
    /\ bodyTag body = [id e]
    /\ forall g, tagOf {| g_id := g; g_body := body |} = Some (id e).
Proof.
  unfold validDates, toGoogleEvent. intros H.
  destruct (startDate e) as [s|]; [|discriminate].
  destruct (endDate e) as [t|]; [|discriminate].
  cbn [toISOString bindO]. eexists. split; [reflexivity|].
  split; [reflexivity|]. intros g. reflexivity.
Qed.

(** ** The create-or-update loop *)

Lemma calls_cons (c : Call) (calls : list Call) :
  createdIds (c :: calls) = (createdIds [c] ++ createdIds calls)%list
  /\ updatedIds (c :: calls) = (updatedIds [c] ++ updatedIds calls)%list
  /\ deletedEntries (c :: calls) = (deletedEntries [c] ++ deletedEntries calls)%list.
Proof.
  unfold createdIds, updatedIds, deletedEntries. cbn [flat_map].
  rewrite !app_nil_r. repeat split.
Qed.

Lemma calls_app (a b : list Call) :
  createdIds (a ++ b) = (createdIds a ++ createdIds b)%list
  /\ updatedIds (a ++ b) = (updatedIds a ++ updatedIds b)%list
  /\ deletedEntries (a ++ b) = (deletedEntries a ++ deletedEntries b)%list.
Proof.
  unfold createdIds, updatedIds, deletedEntries. rewrite !flat_map_app. repeat split.
Qed.

(** An event the map does not hold is created, or its create fails. *)
Lemma upsert_new (fails : string -> bool) (msg calendar : string) (m : EventMap)
  (e : EpitechEvent) (r : SyncResultDetails) (env : Env) :
  writesFail fails msg env ->
  mapGet (id e) m = None ->
  validDates e = true ->
  exists body,
    bodyTag body = [id e]
    /\ (forall g, tagOf {| g_id := g; g_body := body |} = Some (id e))
    /\ upsert calendar m e r env =
       if fails (id e)
       then (Return tt, pushError ("Event " ++ id e ++ ": " ++ msg) r,
             logCall (Google (GInsert calendar body)) env)
       else (Return tt, incrCreated r,
             setGoogle (google env
                          ++ [ {| g_id := freshId (google env); g_body := body |} ])%list
               (logCall (Google (GInsert calendar body)) env)).
Proof.
  intros Hf Hnew Hv. destruct (toGoogleEvent_ok e Hv) as [body [Hb [Htag Htag']]].
  exists body. split; [exact Htag|]. split; [exact Htag'|].
  unfold upsert. rewrite Hb, Hnew.
  pose proof (Hf (GInsert calendar body)) as Hfault. cbn beta iota in Hfault.
  rewrite Htag in Hfault. cbn [existsb] in Hfault. rewrite orb_false_r in Hfault.
  destruct (fails (id e)).
  - rewrite (insertRequest_fails _ _ _ _ Hfault). reflexivity.
  - rewrite (insertRequest_ok _ _ _ Hfault). reflexivity.
Qed.

Lemma mirroredIds_new (l : list GoogleCalendarEvent) (ev : GoogleCalendarEvent) (i : string) :
  tagOf ev = Some i -> canonicalId i = true ->
  mirroredIds (l ++ [ev]) = (mirroredIds l ++ [i])%list
  /\ filter matchesQuery (l ++ [ev]) = filter matchesQuery l.
Proof.
  intros Htag Hc. split.
  - rewrite mirroredIds_app. f_equal. unfold mirroredIds. cbn [flat_map].
    unfold mirroredId. rewrite Htag, Hc. reflexivity.
  - rewrite filter_app. cbn [filter].
    destruct (matchesQuery ev) eqn:Hm; [|apply app_nil_r].
    apply matchesQuery_spec in Hm. rewrite Hm in Htag. injection Htag as <-.
    exfalso. exact (canonical_not_the_query _ Hc eq_refl).
Qed.

Lemma upsertAll_new (fails : string -> bool) (msg calendar : string) (m : EventMap)
  (events : list EpitechEvent) :
  forall (r : SyncResultDetails) (env : Env),
    writesFail fails msg env ->
    Forall (fun e => mapGet (id e) m = None) events ->
    Forall (fun e => validDates e = true) events ->
    Forall (fun e => canonicalId (id e) = true) events ->
    exists r' env' calls,
      upsertAll calendar m events r env = (Return tt, r', env')
      /\ created r'
         = (created r + List.length (filter (fun e => negb (fails (id e))) events))%nat
      /\ updated r' = updated r
      /\ deleted r' = deleted r
      /\ errors r' = List.app (errors r)
                       (map (fun e => "Event " ++ id e ++ ": " ++ msg)
                          (filter (fun e => fails (id e)) events))
      /\ mirroredIds (google env')
         = (mirroredIds (google env)
            ++ map id (filter (fun e => negb (fails (id e))) events))%list
      /\ filter matchesQuery (google env') = filter matchesQuery (google env)
      /\ trace env' = (trace env ++ calls)%list
      /\ createdIds calls = map id events
      /\ updatedIds calls = []
      /\ deletedEntries calls = []
      /\ sameHost env env'.
Proof.
  induction events as [|e events IH]; intros r env Hf Hnew Hv Hc.
  - exists r, env, []. cbn [upsertAll filter map List.length].
    rewrite Nat.add_0_r, !app_nil_r. repeat split.
  - inversion Hnew as [|? ? Hn Hnew']; subst. inversion Hv as [|? ? Hve Hv']; subst.
    inversion Hc as [|? ? Hce Hc']; subst.
    destruct (upsert_new fails msg calendar m e r env Hf Hn Hve)
      as [body [Htag [Htag' Hup]]].
    cbn [upsertAll]. rewrite Hup. cbn [filter map].
    destruct (fails (id e)) eqn:Hfe; cbn [negb].
    + destruct (IH (pushError ("Event " ++ id e ++ ": " ++ msg) r)
                  (logCall (Google (GInsert calendar body)) env))
        as [r' [env' [calls [Hrun [Hcr [Hu [Hd [He [Hm [Hq [Ht [Hci [Hui [Hdi Hs]]]]]]]]]]]]]];
        [exact Hf|assumption..|].
      exists r', env', (Google (GInsert calendar body) :: calls).
      split; [exact Hrun|]. split; [exact Hcr|]. split; [exact Hu|]. split; [exact Hd|].
      split; [rewrite He; cbn [errors pushError map]; rewrite <- app_assoc; reflexivity|].
      split; [exact Hm|]. split; [exact Hq|].
      split; [rewrite Ht; cbn [trace logCall]; rewrite <- app_assoc; reflexivity|].
      destruct (calls_cons (Google (GInsert calendar body)) calls) as [C1 [C2 C3]].
      rewrite C1, C2, C3, Hci, Hui, Hdi.
      unfold createdIds, updatedIds, deletedEntries. cbn [flat_map]. rewrite Htag.
      repeat split; try reflexivity; apply Hs.
    + set (entry := {| g_id := freshId (google env); g_body := body |}).
      destruct (mirroredIds_new (google env) entry (id e) (Htag' _) Hce) as [Hmi Hqi].
      destruct (IH (incrCreated r)
                  (setGoogle (google env ++ [entry])
                     (logCall (Google (GInsert calendar body)) env)))
        as [r' [env' [calls [Hrun [Hcr [Hu [Hd [He [Hm [Hq [Ht [Hci [Hui [Hdi Hs]]]]]]]]]]]]]];
        [exact Hf|assumption..|].
      exists r', env', (Google (GInsert calendar body) :: calls).
      split; [exact Hrun|].
      split; [rewrite Hcr; cbn [created incrCreated List.length]; lia|].
      split; [exact Hu|]. split; [exact Hd|]. split; [exact He|].
      split; [rewrite Hm; cbn [google setGoogle map]; rewrite Hmi, <- app_assoc;
              reflexivity|].
      split; [rewrite Hq; cbn [google setGoogle]; exact Hqi|].
      split; [rewrite Ht; cbn [trace setGoogle logCall]; rewrite <- app_assoc; reflexivity|].
      destruct (calls_cons (Google (GInsert calendar body)) calls) as [C1 [C2 C3]].
      rewrite C1, C2, C3, Hci, Hui, Hdi.
      unfold createdIds, updatedIds, deletedEntries. cbn [flat_map]. rewrite Htag.
      repeat split; try reflexivity; apply Hs.
Qed.

(** ** The delete loop *)

Lemma removed_In (g : string) (l : list GoogleCalendarEvent) (ev : GoogleCalendarEvent) :
  In ev (removed g l) <-> In ev l /\ g_id ev <> g.
Proof.
  unfold removed. rewrite filter_In. split; intros [Hin H]; split; try assumption.
  - intros E. apply hasId_spec in E. rewrite E in H. discriminate.
  - destruct (hasId g ev) eqn:E; [|reflexivity].
    apply hasId_spec in E. contradiction.
Qed.

(** The delete loop counts no deletion: no delete returns normally. *)
Lemma deleteAll_counts_nothing (calendar : string) (processedIds : list string)
  (entries : EventMap) :
  forall (r : SyncResultDetails) (env : Env),
    exists r' env',
      deleteAll calendar processedIds entries r env = (Return tt, r', env')
      /\ created r' = created r /\ updated r' = updated r /\ deleted r' = deleted r.
Proof.
  induction entries as [|[k ex] entries IH]; intros r env; cbn [deleteAll].
  - exists r, env. repeat split.
  - destruct (existsb (String.eqb k) processedIds); [apply IH|].
    destruct (deleteRequest_throws calendar (g_id ex) env) as [msg [env1 ->]].
    destruct (IH (pushError ("Delete " ++ k ++ ": " ++ msg) r) env1)
      as [r' [env' [Hrun [Hc [Hu Hd]]]]].
    exists r', env'. split; [exact Hrun|]. repeat split; assumption.
Qed.

(** ** One pass *)

Lemma getSettings_ok (env : Env) :
  faults env (StorageGet SETTINGS_KEY) = None ->
  getSettings env =
    (Return (match stored_settings env with
             | Some stored => stored
             | None => DEFAULT_SETTINGS
             end),
     logCall (StorageGet SETTINGS_KEY) env).
Proof.
  intros H. unfold getSettings, call. rewrite H.
  change (stored_settings (logCall _ env)) with (stored_settings env).
  destruct (stored_settings env); reflexivity.
Qed.

(** A pass over canonical events, when the listing returns nothing: every
    event is sent to the calendar as a new entry. *)
Lemma pass_of_new_events (fails : string -> bool) (msg calendar : string)
  (events : list EpitechEvent) (env : Env) :
  Ready calendar env ->
  writesFail fails msg env ->
  Canonical events ->
  filter matchesQuery (google env) = [] ->
  exists r env' calls,
    syncToGoogleCalendar events env = (Return r, env')
    /\ created r = List.length (filter (fun e => negb (fails (id e))) events)
    /\ updated r = 0%nat
    /\ deleted r = 0%nat
    /\ errors r = map (fun e => "Event " ++ id e ++ ": " ++ msg)
                    (filter (fun e => fails (id e)) events)
    /\ mirroredIds (google env')
       = (mirroredIds (google env)
          ++ map id (filter (fun e => negb (fails (id e))) events))%list
    /\ filter matchesQuery (google env') = []
    /\ trace env' = (trace env ++ calls)%list
    /\ createdIds calls = map id events
    /\ updatedIds calls = []
    /\ deletedEntries calls = []
    /\ Ready calendar env'
    /\ sameHost env env'.
Proof.
  intros [Hget Hcal Htruthy] Hf [Hids Hnodup Hdates] Hnone.
  unfold syncToGoogleCalendar, bind. rewrite (getSettings_ok env Hget).
  unfold connectedCalendar in Hcal.
  replace (calendarId (googleCalendar match stored_settings env with
                                      | Some stored => stored
                                      | None => DEFAULT_SETTINGS
                                      end)) with (Some calendar)
    by (destruct (stored_settings env); symmetry; exact Hcal).
  rewrite Htruthy. unfold reconcile.
  set (env0 := logCall (StorageGet SETTINGS_KEY) env).
  destruct (getExistingEvents_ok calendar env0 (fun t => Hf (GList calendar t)))
    as [calls1 [Hlist Hquiet]].
  rewrite Hlist. change (google env0) with (google env). rewrite Hnone.
  change (collect [] []) with (@nil (string * GoogleCalendarEvent)).
  destruct (logCalls_frame calls1 env0) as [Hg1 [Hf1 [Hs1 Ht1]]].
  destruct (upsertAll_new fails msg calendar [] events emptyResult (logCalls calls1 env0))
    as [r [env2 [calls2 [Hrun [Hcr [Hu [Hd [He [Hm [Hq [Ht [Hci [Hui [Hdi [Hsf Hss]]]]]]]]]]]]]]].
  - intros q. rewrite Hf1. apply Hf.
  - apply Forall_forall. intros e _. reflexivity.
  - exact Hdates.
  - exact Hids.
  - rewrite Hrun. cbn [deleteAll].
    destruct Hquiet as [Q1 [Q2 Q3]].
    exists r, env2, (StorageGet SETTINGS_KEY :: calls1 ++ calls2)%list.
    split; [reflexivity|]. split; [exact Hcr|]. split; [exact Hu|]. split; [exact Hd|].
    split; [exact He|].
    split; [rewrite Hm, Hg1; reflexivity|].
    split; [rewrite Hq, Hg1; exact Hnone|].
    split; [rewrite Ht, Ht1; cbn [trace env0 logCall]; rewrite <- !app_assoc; reflexivity|].
    destruct (calls_cons (StorageGet SETTINGS_KEY) (calls1 ++ calls2)) as [C1 [C2 C3]].
    destruct (calls_app calls1 calls2) as [A1 [A2 A3]].
    rewrite C1, C2, C3, A1, A2, A3, Q1, Q2, Q3, Hci, Hui, Hdi.
    split; [reflexivity|]. split; [reflexivity|]. split; [reflexivity|].
    assert (Hsame : sameHost env env2).
    { split; [rewrite Hsf, Hf1; reflexivity|rewrite Hss, Hs1; reflexivity]. }
    split; [|exact Hsame].
    destruct Hsame as [Hfa Hse]. constructor.
    + rewrite Hfa. exact Hget.
    + unfold connectedCalendar. rewrite Hse. exact Hcal.
    + exact Htruthy.
Qed.

(** ** The claims about reconciliation *)

Lemma distinct_NoDup (l : list string) : distinct l = true -> NoDup l.
Proof.
  induction l as [|x l IH]; intros H; [constructor|].
  cbn [distinct] in H. apply andb_true_iff in H. destruct H as [Hx Hl].
  constructor; [|apply IH, Hl].
  apply memberOf_not_In. destruct (memberOf l x); [discriminate|reflexivity].
Qed.

Lemma NoDup_map_inj {A B : Type} (f : A -> B) (l : list A) (a b : A) :
  NoDup (map f l) -> In a l -> In b l -> f a = f b -> a = b.
Proof.
  induction l as [|x l IH]; intros Hnd Ha Hb Heq; [contradiction|].
  cbn [map] in Hnd. inversion Hnd as [|? ? Hnotin Hnd']; subst.
  destruct Ha as [Ha|Ha], Hb as [Hb|Hb]; subst.
  - reflexivity.
  - exfalso. apply Hnotin. rewrite Heq. apply in_map, Hb.
  - exfalso. apply Hnotin. rewrite <- Heq. apply in_map, Ha.
  - apply IH; assumption.
Qed.

Lemma filter_none {A : Type} (p : A -> bool) (l : list A) :
  (forall x, In x l -> p x = false) -> filter p l = [].
Proof.
  induction l as [|x l IH]; intros H; [reflexivity|].
  cbn [filter]. rewrite (H x (or_introl eq_refl)).
  apply IH. intros y Hy. apply H. right. exact Hy.
Qed.

Lemma filter_all {A : Type} (p : A -> bool) (l : list A) :
  (forall x, In x l -> p x = true) -> filter p l = l.
Proof.
  induction l as [|x l IH]; intros H; [reflexivity|].
  cbn [filter]. rewrite (H x (or_introl eq_refl)).
  rewrite IH; [reflexivity|]. intros y Hy. apply H. right. exact Hy.
Qed.

Lemma filter_only {A : Type} (p : A -> bool) (l : list A) (a : A) :
  NoDup l -> In a l -> (forall x, In x l -> (p x = true <-> x = a)) ->
  filter p l = [a].
Proof.
  induction l as [|x l IH]; intros Hnd Hin Hp; [contradiction|].
  inversion Hnd as [|? ? Hnotin Hnd']; subst. cbn [filter].
  destruct Hin as [->|Hin].
  - rewrite (proj2 (Hp a (or_introl eq_refl)) eq_refl). f_equal.
    apply filter_none. intros y Hy.
    destruct (p y) eqn:E; [|reflexivity].
    apply (Hp y (or_intror Hy)) in E. subst y. contradiction.
  - destruct (p x) eqn:E.
    + apply (Hp x (or_introl eq_refl)) in E. subst x. contradiction.
    + apply IH; [exact Hnd'|exact Hin|].
      intros y Hy. apply Hp. right. exact Hy.
Qed.

Lemma world_ready (failing : Call -> option string) :
  failing (StorageGet SETTINGS_KEY) = None ->
  Ready "cal-1" (Samples.world failing).
Proof.
  intros H. constructor.
  - exact H.
  - reflexivity.
  - reflexivity.
Qed.

Lemma canonicalBCD_canonical : Canonical Samples.canonicalBCD.
Proof.
  constructor.
  - repeat constructor.
  - apply distinct_NoDup. reflexivity.
  - repeat constructor.
Qed.

Lemma no_fault_no_write_fails (env : Env) :
  (forall r, faults env (Google r) = None) ->
  writesFail (fun _ => false) EmptyString env.
Proof.
  intros H r. rewrite H. destruct r as [| ? body | ? ? body |]; try reflexivity.
  - destruct (existsb (fun _ => false) (bodyTag body)) eqn:E; [|reflexivity].
    apply existsb_exists in E. destruct E as [? [_ E]]. discriminate.
  - destruct (existsb (fun _ => false) (bodyTag body)) eqn:E; [|reflexivity].
    apply existsb_exists in E. destruct E as [? [_ E]]. discriminate.
Qed.

Lemma world_write_of_B_fails :
  writesFail (String.eqb Samples.idB) "Google API error: 500 - Backend Error"
    (Samples.world Samples.writeOfBFails).
Proof.
  intros r. destruct r as [| ? body | ? ? body |]; try reflexivity;
    cbn [faults Samples.world Samples.writeOfBFails]; unfold bodyTag;
    destruct (extendedProperties body) as [p|]; try reflexivity;
    destruct (epitechId p) as [t|]; try reflexivity;
    cbn [existsb]; rewrite orb_false_r; reflexivity.
Qed.

(** The one event of a list without repeated ids that has a given id. *)
Lemma the_event_of_an_id (events : list EpitechEvent) (eB : EpitechEvent) :
  NoDup (map id events) -> In eB events ->
  filter (fun e => String.eqb (id eB) (id e)) events = [eB].
Proof.
  intros Hnd HB. apply filter_only.
  - apply (NoDup_map_inv id). exact Hnd.
  - exact HB.
  - intros x Hx. rewrite String.eqb_eq. split.
    + intros E. apply (NoDup_map_inj id events); [exact Hnd|exact Hx|exact HB|].
      symmetry. exact E.
    + intros ->. reflexivity.
Qed.

(** C3, amended.  The request a pass issues for the event B is the one
    request that fails.  The pass returns normally; its error list is the
    single entry "Event <id of B>: <message>"; the request of every event
    of the list is issued, that of B among them and in its place; every
    other event is counted, and is in the calendar afterwards.  Stated for
    a pass whose listing returns nothing, so that every request is a
    create and no delete is due. *)
Theorem C3_partial_failure_isolated
  (calendar : string) (events : list EpitechEvent) (env : Env)
  (eB : EpitechEvent) (msg : string)
  (Hready : Ready calendar env)
  (Hcanon : Canonical events)
  (HB : In eB events)
  (Hnone : filter matchesQuery (google env) = [])
  (Hfaults : writesFail (String.eqb (id eB)) msg env) :
  exists r env' calls,
    syncToGoogleCalendar events env = (Return r, env')
    /\ errors r = ["Event " ++ id eB ++ ": " ++ msg]
    /\ S (created r + updated r) = List.length events
    /\ deleted r = 0%nat
    /\ trace env' = (trace env ++ calls)%list
    /\ (createdIds calls ++ updatedIds calls)%list = map id events
    /\ mirroredIds (google env')
       = (mirroredIds (google env)
          ++ filter (fun i => negb (String.eqb (id eB) i)) (map id events))%list.
Proof.
  destruct (pass_of_new_events (String.eqb (id eB)) msg calendar events env
              Hready Hfaults Hcanon Hnone)
    as [r [env' [calls [Hrun [Hcr [Hup [Hdel [Herr [Hmir [_ [Htrace [Hci [Hui _]]]]]]]]]]]]].
  rewrite (the_event_of_an_id events eB (ids_unique events Hcanon) HB) in Herr.
  pose proof (filter_length (fun e => String.eqb (id eB) (id e)) events) as Hlen.
  rewrite (the_event_of_an_id events eB (ids_unique events Hcanon) HB) in Hlen.
  cbn [List.length] in Hlen.
  exists r, env', calls.
  split; [exact Hrun|]. split; [exact Herr|].
  split; [rewrite Hcr, Hup; lia|]. split; [exact Hdel|]. split; [exact Htrace|].
  split; [rewrite Hci, Hui; apply app_nil_r|].
  rewrite Hmir. f_equal. clear. induction events as [|e events IH]; [reflexivity|].
  cbn [filter map]. destruct (String.eqb (id eB) (id e)); cbn [negb map]; rewrite IH;
    reflexivity.
Qed.

(** C1.  The remote calendar holds the mirrored events A, B and C, the
    canonical list holds B, C and D, and no request fails.  The listing
    asks for the entries whose private property is [epitech-], finds none
    of the three, and the pass creates B, C and D: created = 3, updated =
    0, deleted = 0, and afterwards B and C are mirrored twice and A is
    still there. *)
Theorem C1_listing_finds_no_mirrored_event :
  mirroredIds (google (Samples.world Samples.noFault))
  = [Samples.idA; Samples.idB; Samples.idC]
  /\ map id Samples.canonicalBCD = [Samples.idB; Samples.idC; Samples.idD]
  /\ exists r env',
       syncToGoogleCalendar Samples.canonicalBCD (Samples.world Samples.noFault)
       = (Return r, env')
       /\ created r = 3%nat /\ updated r = 0%nat /\ deleted r = 0%nat
       /\ errors r = []
       /\ mirroredIds (google env')
          = [Samples.idA; Samples.idB; Samples.idC;
             Samples.idB; Samples.idC; Samples.idD].
Proof.
  split; [reflexivity|]. split; [reflexivity|].
  destruct (syncToGoogleCalendar Samples.canonicalBCD (Samples.world Samples.noFault))
    as [o env'] eqn:Hrun.
  vm_compute in Hrun. injection Hrun as <- <-.
  eexists. eexists. split; [reflexivity|]. repeat split; reflexivity.
Qed.

(** C2.  A pass without failure from a calendar that mirrors nothing, and
    a second pass over the same canonical list: the second pass finds none
    of the entries of the first, creates every event again and updates
    none. *)
Theorem C2_second_pass_creates_again :
  exists r1 env1 r2 env2,
    syncToGoogleCalendar Samples.canonicalBCD
      (Samples.withGoogle [Samples.ownEntry "g3"] (Samples.world Samples.noFault))
    = (Return r1, env1)
    /\ created r1 = 3%nat /\ errors r1 = []
    /\ mirroredIds (google env1) = [Samples.idB; Samples.idC; Samples.idD]
    /\ syncToGoogleCalendar Samples.canonicalBCD env1 = (Return r2, env2)
    /\ created r2 = 3%nat /\ updated r2 = 0%nat /\ deleted r2 = 0%nat
    /\ errors r2 = []
    /\ mirroredIds (google env2)
       = [Samples.idB; Samples.idC; Samples.idD; Samples.idB; Samples.idC; Samples.idD].
Proof.
  destruct (syncToGoogleCalendar Samples.canonicalBCD
              (Samples.withGoogle [Samples.ownEntry "g3"] (Samples.world Samples.noFault)))
    as [o1 env1] eqn:Hfirst.
  destruct (syncToGoogleCalendar Samples.canonicalBCD env1) as [o2 env2] eqn:Hsecond.
  pose proof Hfirst as N1. vm_compute in N1. injection N1 as No1 Ne1.
  pose proof Hsecond as N2. rewrite <- Ne1 in N2. vm_compute in N2.
  injection N2 as No2 Ne2.
  subst o1 o2.
  eexists. exists env1. eexists. exists env2.
  split; [reflexivity|]. split; [reflexivity|]. split; [reflexivity|].
  split; [rewrite <- Ne1; reflexivity|].
  split; [exact Hsecond|]. split; [reflexivity|]. split; [reflexivity|].
  split; [reflexivity|]. split; [reflexivity|].
  rewrite <- Ne2. reflexivity.
Qed.

(** C3, as the claim states it, fails: the entry of the error list is not
    "<id>: <message>"; the word "Event" stands before the id. *)
Lemma C3_error_entry_starts_with_a_word :
  exists r env',
    syncToGoogleCalendar Samples.canonicalBCD (Samples.world Samples.writeOfBFails)
    = (Return r, env')
    /\ errors r = ["Event epitech-acti-2-event-2: Google API error: 500 - Backend Error"]
    /\ errors r <> [Samples.idB ++ ": " ++ "Google API error: 500 - Backend Error"].
Proof.
  destruct (syncToGoogleCalendar Samples.canonicalBCD (Samples.world Samples.writeOfBFails))
    as [o env'] eqn:Hrun.
  vm_compute in Hrun. injection Hrun as <- <-.
  eexists. eexists. split; [reflexivity|]. split; [reflexivity|].
  cbn [errors]. intros H. discriminate H.
Qed.

Lemma C3_partial_failure_isolated_witness :
  Ready "cal-1" (Samples.world Samples.writeOfBFails)
  /\ Canonical Samples.canonicalBCD
  /\ In (Samples.eventWithId Samples.idB) Samples.canonicalBCD
  /\ filter matchesQuery (google (Samples.world Samples.writeOfBFails)) = []
  /\ writesFail (String.eqb (id (Samples.eventWithId Samples.idB)))
       "Google API error: 500 - Backend Error" (Samples.world Samples.writeOfBFails)
  /\ exists r env',
       syncToGoogleCalendar Samples.canonicalBCD (Samples.world Samples.writeOfBFails)
       = (Return r, env')
       /\ errors r = ["Event epitech-acti-2-event-2: Google API error: 500 - Backend Error"]
       /\ created r = 2%nat /\ updated r = 0%nat /\ deleted r = 0%nat.
Proof.
  split; [exact (world_ready Samples.writeOfBFails eq_refl)|].
  split; [exact canonicalBCD_canonical|].
  split; [left; reflexivity|]. split; [reflexivity|].
  split; [exact world_write_of_B_fails|].
  destruct (C3_partial_failure_isolated "cal-1" Samples.canonicalBCD
              (Samples.world Samples.writeOfBFails)
              (Samples.eventWithId Samples.idB)
              "Google API error: 500 - Backend Error"
              (world_ready Samples.writeOfBFails eq_refl)
              canonicalBCD_canonical
              (or_introl eq_refl) eq_refl
              world_write_of_B_fails)
    as [r [env' [calls [Hrun [Herr [Hc [Hd _]]]]]]].
  assert (Hu : updated r = 0%nat).
  { destruct (syncToGoogleCalendar Samples.canonicalBCD
                (Samples.world Samples.writeOfBFails)) as [o e] eqn:E.
    vm_compute in E. rewrite <- E in Hrun. injection Hrun as <- _. reflexivity. }
  exists r, env'.
  split; [exact Hrun|]. split; [exact Herr|].
  split; [|split; [exact Hu|exact Hd]].
  rewrite Hu in Hc. cbn [List.length Samples.canonicalBCD] in Hc. lia.
Defined.

(* ================================================================== *)
(** * Further properties of the sources *)
(* ================================================================== *)

(** ** The ICS codec: escaping and folding *)

Lemma append_associative (a b c : string) : (a ++ b) ++ c = a ++ (b ++ c).
Proof.
  induction a as [|x a IH]; [reflexivity|].
  cbn [append]. rewrite IH. reflexivity.
Qed.

Lemma replaceAll_app (c : ascii) (r a b : string) :
  JS.replaceAll c r (a ++ b) = JS.replaceAll c r a ++ JS.replaceAll c r b.
Proof.
  induction a as [|d a IH]; [reflexivity|].
  simpl. destruct (Ascii.eqb d c).
  - rewrite IH. symmetry. apply append_associative.
  - rewrite IH. reflexivity.
Qed.

(** The four replacements of [escapeIcsText], one after the other, come to
    one pass that writes [escapeChar] for every code unit: the backslashes
    the later replacements insert are never escaped again. *)
Lemma escapeIcsText_cons (c : ascii) (s : string) :
  escapeIcsText (String c s) = escapeChar c ++ escapeIcsText s.
Proof.
  change (String c s) with (String c EmptyString ++ s).
  unfold escapeIcsText. rewrite !replaceAll_app.
  f_equal. unfold escapeChar.
  destruct (Ascii.eqb c backslash) eqn:Hb.
  { apply Ascii.eqb_eq in Hb. subst c. reflexivity. }
  destruct (Ascii.eqb c ";") eqn:Hs.
  { apply Ascii.eqb_eq in Hs. subst c. reflexivity. }
  destruct (Ascii.eqb c ",") eqn:Hc.
  { apply Ascii.eqb_eq in Hc. subst c. reflexivity. }
  destruct (Ascii.eqb c newline) eqn:Hn.
  { apply Ascii.eqb_eq in Hn. subst c. reflexivity. }
  cbn [JS.replaceAll]. rewrite Hb. cbn [JS.replaceAll]. rewrite Hs.
  cbn [JS.replaceAll]. rewrite Hc. cbn [JS.replaceAll]. rewrite Hn. reflexivity.
Qed.

(** X1. [escapeIcsText] loses nothing: a reader that takes
    a backslash and the code unit after it for one code unit (LF for "n")
    gets back the text that was escaped, whatever the text.  So two texts
    with the same escaped form are the same text. *)
Theorem escapeIcsText_unescaped (text : string) :
  unescapeIcsText (escapeIcsText text) = text.
Proof.
  induction text as [|c s IH]; [reflexivity|].
  rewrite escapeIcsText_cons. unfold escapeChar.
  destruct (Ascii.eqb c backslash) eqn:Hb.
  { apply Ascii.eqb_eq in Hb. subst c. cbn. rewrite IH. reflexivity. }
  destruct (Ascii.eqb c ";") eqn:Hs.
  { apply Ascii.eqb_eq in Hs. subst c. cbn. rewrite IH. reflexivity. }
  destruct (Ascii.eqb c ",") eqn:Hc.
  { apply Ascii.eqb_eq in Hc. subst c. cbn. rewrite IH. reflexivity. }
  destruct (Ascii.eqb c newline) eqn:Hn.
  { apply Ascii.eqb_eq in Hn. subst c. cbn. rewrite IH. reflexivity. }
  cbn [append unescapeIcsText]. rewrite Hb, IH. reflexivity.
Qed.

(** X2. The escaped form of a text holds no line feed: a
    title or a description of several lines stays on one content line. *)
Theorem escapeIcsText_no_line_feed (text : string) :
  hasChar newline (escapeIcsText text) = false.
Proof.
  induction text as [|c s IH]; [reflexivity|].
  rewrite escapeIcsText_cons. unfold escapeChar.
  destruct (Ascii.eqb c backslash) eqn:Hb; [cbn; exact IH|].
  destruct (Ascii.eqb c ";") eqn:Hs; [cbn; exact IH|].
  destruct (Ascii.eqb c ",") eqn:Hc; [cbn; exact IH|].
  destruct (Ascii.eqb c newline) eqn:Hn; [cbn; exact IH|].
  cbn [append hasChar]. rewrite Hn. exact IH.
Qed.

Lemma unfoldText_cons_other (c : ascii) (s : string) :
  Ascii.eqb c CR = false -> unfoldText (String c s) = String c (unfoldText s).
Proof.
  intros H. destruct s as [|c1 [|c2 s]]; cbn [unfoldText]; try reflexivity.
  rewrite H. reflexivity.
Qed.

Lemma unfoldText_app (a b : string) :
  hasChar CR a = false -> unfoldText (a ++ b) = a ++ unfoldText b.
Proof.
  induction a as [|c a IH]; intros H; [reflexivity|].
  cbn [hasChar] in H. apply orb_false_iff in H. destruct H as [Hc Ha].
  cbn [append]. rewrite unfoldText_cons_other by exact Hc. rewrite IH by exact Ha.
  reflexivity.
Qed.

Lemma hasChar_take (c : ascii) (n : nat) (s : string) :
  hasChar c s = false -> hasChar c (JS.take n s) = false.
Proof.
  revert s. induction n as [|n IH]; intros s H; [reflexivity|].
  destruct s as [|d s]; [reflexivity|].
  cbn [hasChar] in H. apply orb_false_iff in H. destruct H as [Hd Hs].
  cbn [JS.take hasChar]. rewrite Hd. apply IH, Hs.
Qed.

Lemma hasChar_drop (c : ascii) (n : nat) (s : string) :
  hasChar c s = false -> hasChar c (JS.drop n s) = false.
Proof.
  revert s. induction n as [|n IH]; intros s H; [exact H|].
  destruct s as [|d s]; [reflexivity|].
  cbn [hasChar] in H. apply orb_false_iff in H. destruct H as [Hd Hs].
  cbn [JS.drop]. apply IH, Hs.
Qed.

Lemma concat_prefix (sep p a : string) (l : list string) :
  String.concat sep ((p ++ a) :: l) = p ++ String.concat sep (a :: l).
Proof.
  destruct l as [|b l]; [reflexivity|].
  cbn [String.concat]. apply append_associative.
Qed.

Lemma unfoldText_continuationLines (fuel : nat) :
  forall remaining first : string,
    hasChar CR remaining = false -> hasChar CR first = false ->
    (String.length remaining <= fuel)%nat ->
    unfoldText (JS.join CRLF (first :: continuationLines fuel remaining))
    = first ++ remaining.
Proof.
  induction fuel as [|fuel IH]; intros remaining first Hr Hf Hlen.
  - destruct remaining; [|simpl in Hlen; lia].
    cbn [continuationLines JS.join String.concat].
    rewrite <- (append_empty_r first) at 1.
    rewrite unfoldText_app by exact Hf. reflexivity.
  - rewrite continuationLines_S.
    destruct (0 <? String.length remaining)%nat eqn:Hpos.
    + unfold JS.join in *.
      change (String.concat CRLF (first :: (" " ++ JS.take 74 remaining)
                :: continuationLines fuel (JS.drop 74 remaining)))
        with (first ++ CRLF ++ String.concat CRLF ((" " ++ JS.take 74 remaining)
                :: continuationLines fuel (JS.drop 74 remaining))).
      rewrite unfoldText_app by exact Hf.
      rewrite concat_prefix.
      change (unfoldText (CRLF ++ " " ++ ?x)) with (unfoldText x).
      rewrite IH.
      * rewrite take_drop. reflexivity.
      * apply hasChar_drop, Hr.
      * apply hasChar_take, Hr.
      * rewrite length_drop. apply Nat.ltb_lt in Hpos. lia.
    + apply Nat.ltb_ge in Hpos. destruct remaining; [|simpl in Hpos; lia].
      cbn [JS.join String.concat].
      rewrite <- (append_empty_r first) at 1.
      rewrite unfoldText_app by exact Hf. reflexivity.
Qed.

(** X3. Folding is undone by unfolding: for a content line
    that holds no carriage return, removing from what [foldLine] returns
    every CRLF followed by a space gives the line back, whatever its
    length.  No code unit is lost or doubled at a cut. *)
Theorem foldLine_unfolds (line : string) :
  hasChar CR line = false -> unfoldText (foldLine line) = line.
Proof.
  intros H. unfold foldLine.
  destruct (String.length line <=? maxLength)%nat.
  - rewrite <- (append_empty_r line) at 1.
    rewrite unfoldText_app by exact H. apply append_empty_r.
  - unfold foldedLines. rewrite unfoldText_continuationLines.
    + apply take_drop.
    + apply hasChar_drop, H.
    + apply hasChar_take, H.
    + rewrite length_drop. lia.
Qed.

Lemma foldLine_unfolds_witness :
  hasChar CR Samples.longLine = false
  /\ (maxLength <? String.length Samples.longLine)%nat = true
  /\ unfoldText (foldLine Samples.longLine) = Samples.longLine.
Proof.
  split; [reflexivity|]. split; [reflexivity|].
  apply (foldLine_unfolds Samples.longLine). reflexivity.
Defined.

(** X4. For a content line of ASCII characters the
    limit of RFC 5545 holds: what [foldLine] returns is made of physical
    lines, joined by CRLF, of at most 75 octets each. *)
Theorem foldLine_ascii_within_75_octets (line : string) :
  JS.allAscii line = true ->
  foldLine line = JS.join CRLF (physicalLines line)
  /\ Forall (fun l => (JS.octets l <= 75)%nat) (physicalLines line).
Proof.
  intros H. split.
  - apply foldLine_physicalLines.
  - apply foldLine_ascii_at_most_75_octets, H.
Qed.

Lemma foldLine_ascii_within_75_octets_witness :
  JS.allAscii Samples.longLine = true
  /\ foldLine Samples.longLine = JS.join CRLF (physicalLines Samples.longLine)
  /\ Forall (fun l => (JS.octets l <= 75)%nat) (physicalLines Samples.longLine).
Proof.
  split; [reflexivity|].
  apply (foldLine_ascii_within_75_octets Samples.longLine). reflexivity.
Defined.

(** ** The ICS codec: invalid dates *)

Section InvalidDates.
Context {zone : TimeZone}.

Lemma toIcsDateTime_valid (t : Z) : exists s, toIcsDateTime (Some t) = Return s.
Proof. eexists. reflexivity. Qed.

Lemma generateVEvent_outcome (now : Z) (e : EpitechEvent) :
  if validDates e
  then exists v, generateVEvent now e = Return v
  else generateVEvent now e = Throw invalidDate.
Proof.
  unfold validDates, generateVEvent, vEventLines.
  destruct (toIcsDateTime_valid now) as [stamp ->]. cbn [bindO].
  destruct (startDate e) as [s|]; [|reflexivity].
  destruct (toIcsDateTime_valid s) as [ds ->]. cbn [bindO].
  destruct (endDate e) as [t|]; [|reflexivity].
  destruct (toIcsDateTime_valid t) as [dt ->]. cbn [bindO]. eexists. reflexivity.
Qed.

Lemma generateVEvents_outcome (clock : nat -> Z) (events : list EpitechEvent) :
  forall k,
    if forallb validDates events
    then exists vs, generateVEvents clock k events = Return vs
    else generateVEvents clock k events = Throw invalidDate.
Proof.
  induction events as [|e events IH]; intros k.
  - eexists. reflexivity.
  - cbn [forallb generateVEvents].
    pose proof (generateVEvent_outcome (clock k) e) as He.
    destruct (validDates e).
    + destruct He as [v ->]. cbn [bindO andb].
      specialize (IH (S k)). destruct (forallb validDates events).
      * destruct IH as [vs ->]. eexists. reflexivity.
      * rewrite IH. reflexivity.
    + rewrite He. reflexivity.
Qed.

(** X5. [generateIcsContent] produces no document at all
    as soon as one event of the list has an invalid start or end date: it
    throws the error of [ensureDate], and it throws in no other case. *)
Theorem generateIcsContent_fails_on_an_invalid_date
  (clock : nat -> Z) (events : list EpitechEvent) :
  forallb validDates events = false
  <-> generateIcsContent clock events = Throw invalidDate.
Proof.
  unfold generateIcsContent.
  pose proof (generateVEvents_outcome clock events 0%nat) as H.
  destruct (forallb validDates events).
  - destruct H as [vs ->]. cbn [bindO]. split; discriminate.
  - rewrite H. cbn [bindO]. split; reflexivity.
Qed.

(** ** The normalizer: when it throws, and what it keeps *)

Lemma split_not_empty (sep : ascii) (s : string) : JS.split sep s <> [].
Proof.
  destruct s as [|c s]; cbn [JS.split]; [discriminate|].
  destruct (Ascii.eqb c sep); [discriminate|].
  destruct (JS.split sep s); discriminate.
Qed.

Lemma split_without_separator (sep : ascii) (s : string) :
  hasChar sep s = false -> JS.split sep s = [s].
Proof.
  induction s as [|c s IH]; intros H; [reflexivity|].
  cbn [hasChar] in H. apply orb_false_iff in H. destruct H as [Hc Hs].
  cbn [JS.split]. rewrite Hc, (IH Hs). reflexivity.
Qed.

Lemma split_with_separator (sep : ascii) (s : string) :
  hasChar sep s = true -> exists a b rest, JS.split sep s = a :: b :: rest.
Proof.
  induction s as [|c s IH]; intros H; [discriminate|].
  cbn [hasChar] in H. cbn [JS.split].
  destruct (Ascii.eqb c sep).
  - destruct (JS.split sep s) as [|b rest] eqn:Hsplit.
    + exfalso. exact (split_not_empty sep s Hsplit).
    + exists EmptyString, b, rest. reflexivity.
  - cbn [orb] in H. destruct (IH H) as [a [b [rest ->]]].
    exists (String c a), b, rest. reflexivity.
Qed.

Lemma getRealTimeSlot_outcome (raw : EpitechRawEvent) :
  if brokenSlot raw
  then getRealTimeSlot raw = Throw undefinedSplit
  else exists ts, getRealTimeSlot raw = Return ts.
Proof.
  unfold brokenSlot, getRealTimeSlot.
  destruct (isRdvEvent raw); cbn [andb]; [|eexists; reflexivity].
  destruct (JS.orElse (rdv_indiv_registered raw) (rdv_group_registered raw)) as [slot|];
    [|eexists; reflexivity].
  destruct (JS.truthy slot); cbn [andb]; [|eexists; reflexivity].
  destruct (hasChar "|" slot) eqn:Hbar; cbn [negb].
  - destruct (split_with_separator "|" slot Hbar) as [a [b [rest ->]]].
    eexists. reflexivity.
  - rewrite (split_without_separator "|" slot Hbar). reflexivity.
Qed.

(** X6. [transformEvent] throws in one case only: the
    record is an appointment whose reserved slot (the individual one, or
    else the group one) is not empty and holds no "|"; the error is the
    [TypeError] of [parseEpitechDate(undefined)].  In every other case it
    returns an event: dates are not validated, a date that cannot be read
    gives an event with an invalid [Date]. *)
Theorem transformEvent_fails_only_on_a_slot_without_bar
  (raw : EpitechRawEvent) (prefix : string) :
  (brokenSlot raw = true <-> transformEvent raw prefix = Throw undefinedSplit)
  /\ (brokenSlot raw = false <-> exists e, transformEvent raw prefix = Return e).
Proof.
  pose proof (getRealTimeSlot_outcome raw) as H.
  destruct (brokenSlot raw).
  - rewrite (transformEvent_throws raw prefix _ H).
    split; split; try reflexivity; try discriminate.
    intros [e He]. discriminate.
  - destruct H as [ts Hts].
    destruct (transformEvent_of_slot raw prefix ts Hts) as [e [He _]].
    rewrite He. split; split; try reflexivity; try discriminate.
    intros _. exists e. reflexivity.
Qed.

Lemma prefix_of_append (p s : string) : String.prefix p (p ++ s) = true.
Proof.
  induction p as [|c p IH]; [destruct s; reflexivity|].
  cbn [append String.prefix]. destruct (ascii_dec c c) as [_|Hne]; [exact IH|].
  exfalso. apply Hne. reflexivity.
Qed.

Lemma eventId_canonical (raw : EpitechRawEvent) : canonicalId (eventId raw) = true.
Proof.
  unfold canonicalId, eventId. apply andb_true_iff. split; [apply prefix_of_append|].
  cbn. destruct (codeacti raw); reflexivity.
Qed.

Lemma mapO_transformEvent (prefix : string) (l : list EpitechRawEvent) :
  if existsb brokenSlot l
  then mapO (fun raw => transformEvent raw prefix) l = Throw undefinedSplit
  else exists events,
      mapO (fun raw => transformEvent raw prefix) l = Return events
      /\ map id events = map eventId l.
Proof.
  induction l as [|raw l IH].
  - exists []. split; reflexivity.
  - cbn [existsb mapO].
    pose proof (getRealTimeSlot_outcome raw) as H.
    destruct (brokenSlot raw).
    + rewrite (transformEvent_throws raw prefix _ H). reflexivity.
    + destruct H as [ts Hts].
      destruct (transformEvent_of_slot raw prefix ts Hts) as [e [He _]].
      rewrite He. cbn [bindO orb].
      destruct (existsb brokenSlot l).
      * rewrite IH. reflexivity.
      * destruct IH as [events [-> Hids]]. cbn [bindO].
        exists (e :: events). split; [reflexivity|].
        cbn [map]. rewrite Hids, (transformEvent_id raw prefix e He). reflexivity.
Qed.

Lemma getEventsForSync_run (env : Env) :
  faults env (StorageGet SETTINGS_KEY) = None ->
  faults env FetchPlanning = None ->
  EpitechFetch.getEventsForSync env
  = (mapO (fun raw => transformEvent raw (eventPrefix (storedSettings env)))
       (filter isUserRegisteredToEvent (planning env)),
     logCall FetchPlanning (logCall (StorageGet SETTINGS_KEY) env)).
Proof.
  intros Hget Hfetch.
  unfold EpitechFetch.getEventsForSync, bind.
  rewrite (getSettings_ok env Hget).
  unfold EpitechFetch.fetchPlanningEvents, call at 1.
  cbn [faults logCall]. rewrite Hfetch. reflexivity.
Qed.

(** X7. When the settings can be read, the planning request
    succeeds and no registered record has a slot without "|",
    [getEventsForSync] returns one event per record the user is registered
    to, in the order of the planning, each under the id of its record; all
    these ids have the form the remote adapters look for ("epitech-...").
    It makes two calls: the read of the settings and the planning
    request. *)
Theorem getEventsForSync_keeps_the_registered_records (env : Env) :
  faults env (StorageGet SETTINGS_KEY) = None ->
  faults env FetchPlanning = None ->
  existsb brokenSlot (filter isUserRegisteredToEvent (planning env)) = false ->
  exists events env',
    EpitechFetch.getEventsForSync env = (Return events, env')
    /\ map id events = map eventId (filter isUserRegisteredToEvent (planning env))
    /\ Forall (fun e => canonicalId (id e) = true) events
    /\ trace env' = (trace env ++ [StorageGet SETTINGS_KEY; FetchPlanning])%list.
Proof.
  intros Hget Hfetch Hslots.
  rewrite (getEventsForSync_run env Hget Hfetch).
  pose proof (mapO_transformEvent
                (eventPrefix (storedSettings env))
                (filter isUserRegisteredToEvent (planning env))) as H.
  rewrite Hslots in H. destruct H as [events [-> Hids]].
  eexists. eexists. split; [reflexivity|]. split; [exact Hids|]. split.
  - apply Forall_forall. intros e He.
    apply (in_map id) in He. rewrite Hids in He.
    apply in_map_iff in He. destruct He as [raw [<- _]]. apply eventId_canonical.
  - cbn [trace logCall]. rewrite <- app_assoc. reflexivity.
Qed.

End InvalidDates.

Lemma getEventsForSync_keeps_the_registered_records_witness :
  faults (Samples.world Samples.noFault) (StorageGet SETTINGS_KEY) = None
  /\ faults (Samples.world Samples.noFault) FetchPlanning = None
  /\ existsb brokenSlot
       (filter isUserRegisteredToEvent (planning (Samples.world Samples.noFault))) = false
  /\ exists events env',
       EpitechFetch.getEventsForSync (Samples.world Samples.noFault) = (Return events, env')
       /\ map id events
          = map eventId (filter isUserRegisteredToEvent
                           (planning (Samples.world Samples.noFault)))
       /\ Forall (fun e => canonicalId (id e) = true) events
       /\ trace env'
          = (trace (Samples.world Samples.noFault)
               ++ [StorageGet SETTINGS_KEY; FetchPlanning])%list.
Proof.
  split; [reflexivity|]. split; [reflexivity|]. split; [reflexivity|].
  apply (getEventsForSync_keeps_the_registered_records (Samples.world Samples.noFault));
    reflexivity.
Defined.

Section Fetch.
Context {zone : TimeZone}.

(** X8. One registered appointment with a slot without "|" is
    enough for [getEventsForSync] to throw: no event of the planning is
    returned, the well-formed ones included.  (Records the user is not
    registered to are filtered out before and cannot make it throw.) *)
Theorem getEventsForSync_fails_on_one_slot_without_bar (env : Env) :
  faults env (StorageGet SETTINGS_KEY) = None ->
  faults env FetchPlanning = None ->
  existsb brokenSlot (filter isUserRegisteredToEvent (planning env)) = true ->
  fst (EpitechFetch.getEventsForSync env) = Throw undefinedSplit.
Proof.
  intros Hget Hfetch Hslots.
  rewrite (getEventsForSync_run env Hget Hfetch).
  pose proof (mapO_transformEvent
                (eventPrefix (storedSettings env))
                (filter isUserRegisteredToEvent (planning env))) as H.
  rewrite Hslots in H. cbn [fst]. exact H.
Qed.

End Fetch.

Lemma getEventsForSync_fails_on_one_slot_without_bar_witness :
  let env := Samples.withPlanning [Samples.lectureBackwards; Samples.rdvSlotWithoutBar]
               (Samples.world Samples.noFault) in
  faults env (StorageGet SETTINGS_KEY) = None
  /\ faults env FetchPlanning = None
  /\ existsb brokenSlot (filter isUserRegisteredToEvent (planning env)) = true
  /\ fst (EpitechFetch.getEventsForSync env) = Throw undefinedSplit.
Proof.
  split; [reflexivity|]. split; [reflexivity|]. split; [reflexivity|].
  apply (getEventsForSync_fails_on_one_slot_without_bar
           (Samples.withPlanning [Samples.lectureBackwards; Samples.rdvSlotWithoutBar]
              (Samples.world Samples.noFault))); reflexivity.
Defined.

Lemma trimStart_keeps_absent (c : ascii) (s : string) :
  hasChar c s = false -> hasChar c (JS.trimStart s) = false.
Proof.
  induction s as [|d s IH]; intros H; [reflexivity|].
  cbn [JS.trimStart]. destruct (JS.isSpace d); [|exact H].
  cbn [hasChar] in H. apply orb_false_iff in H. apply IH, H.
Qed.

Lemma upper_bracket (b : ascii) :
  Ascii.eqb (JS.upper "[") (JS.upper b) = Ascii.eqb b "[".
Proof.
  destruct b as [[] [] [] [] [] [] [] []]; reflexivity.
Qed.

Lemma afterPrefixCI_without_bracket (s : string) :
  hasChar "[" s = false -> afterPrefixCI OBLIGATOIRE s = None.
Proof.
  intros H. destruct s as [|b s]; [reflexivity|].
  cbn [hasChar] in H. apply orb_false_iff in H. destruct H as [Hb _].
  unfold OBLIGATOIRE. cbn [afterPrefixCI]. rewrite upper_bracket, Hb. reflexivity.
Qed.

Lemma replaceObligatoire_without_bracket (fuel : nat) :
  forall s, hasChar "[" s = false -> replaceObligatoire fuel s = s.
Proof.
  induction fuel as [|fuel IH]; intros s H; [reflexivity|].
  destruct s as [|c s]; [reflexivity|].
  cbn [replaceObligatoire].
  rewrite (afterPrefixCI_without_bracket _ (trimStart_keeps_absent "[" _ H)).
  cbn [hasChar] in H. apply orb_false_iff in H. rewrite (IH s (proj2 H)). reflexivity.
Qed.

(** X9. A title without "[" holds no tag to remove:
    [cleanActivityTitle] returns it trimmed and otherwise unchanged, the
    white space between its words included. *)
Theorem cleanActivityTitle_without_bracket (title : string) :
  hasChar "[" title = false -> cleanActivityTitle title = JS.trim title.
Proof.
  intros H. unfold cleanActivityTitle.
  rewrite replaceObligatoire_without_bracket by exact H. reflexivity.
Qed.

Lemma cleanActivityTitle_without_bracket_witness :
  hasChar "[" "  Kick-off  C Pool " = false
  /\ cleanActivityTitle "  Kick-off  C Pool " = JS.trim "  Kick-off  C Pool ".
Proof.
  split; [reflexivity|].
  apply (cleanActivityTitle_without_bracket "  Kick-off  C Pool "). reflexivity.
Defined.

(** X10. A room code of fewer than three parts between "/" has
    no building part: [formatRoomCode] returns it as it is, its "-"
    included. *)
Theorem formatRoomCode_short_code (code : string) :
  (List.length (JS.split "/" code) <= 2)%nat -> formatRoomCode code = code.
Proof.
  intros H. unfold formatRoomCode.
  destruct (JS.split "/" code) as [|a [|b [|c l]]]; cbn [skipn]; try reflexivity.
  cbn [List.length] in H. lia.
Qed.

Lemma formatRoomCode_short_code_witness :
  (List.length (JS.split "/" "FR/PAR-Online") <= 2)%nat
  /\ formatRoomCode "FR/PAR-Online" = "FR/PAR-Online".
Proof.
  split; [vm_compute; lia|].
  apply (formatRoomCode_short_code "FR/PAR-Online"). vm_compute. lia.
Defined.

(** ** Dates: from the day number to the calendar and back *)

Section CivilDates.
Context {zone : TimeZone}.

Lemma InLeapYear_true (y : Z) :
  InLeapYear y = true -> (y mod 4 = 0 /\ y mod 100 <> 0) \/ y mod 400 = 0.
Proof.
  unfold InLeapYear.
  rewrite orb_true_iff, andb_true_iff, negb_true_iff, !Z.eqb_eq, Z.eqb_neq.
  tauto.
Qed.

Lemma InLeapYear_false (y : Z) :
  InLeapYear y = false -> (y mod 4 <> 0 \/ y mod 100 = 0) /\ y mod 400 <> 0.
Proof.
  unfold InLeapYear.
  rewrite orb_false_iff, andb_false_iff, negb_false_iff, !Z.eqb_eq, !Z.eqb_neq.
  tauto.
Qed.

(** The year, month and day [civilFromDay] computes are those of the day
    number: [MakeDay] takes them back to it, and they are a date of the
    calendar. *)
Lemma civilFromDay_spec (n : Z) :
  MakeDay (fst (fst (civilFromDay n))) (snd (fst (civilFromDay n))) (snd (civilFromDay n)) = n
  /\ 0 <= snd (fst (civilFromDay n)) <= 11
  /\ 1 <= snd (civilFromDay n)
          <= daysInMonth (fst (fst (civilFromDay n))) (snd (fst (civilFromDay n)) + 1).
Proof.
  unfold civilFromDay. cbv zeta. cbn [fst snd].
  set (z := n + 719468).
  set (era := z / 146097).
  set (doe := z - era * 146097).
  set (yoe := (doe - doe / 1460 + doe / 36524 - doe / 146096) / 365).
  set (doy := doe - (365 * yoe + yoe / 4 - yoe / 100)).
  set (mp := (5 * doy + 2) / 153).
  assert (Hdoe : 0 <= doe <= 146096) by (unfold doe, era; Z.div_mod_to_equations; lia).
  assert (Hy : 0 <= yoe <= 399 /\ 0 <= doy <= 365
               /\ (doy = 365 -> (yoe mod 4 = 3 /\ yoe mod 100 <> 99) \/ yoe = 399)).
  { unfold doy, yoe. clearbody doe. clear -Hdoe. Z.div_mod_to_equations. lia. }
  destruct Hy as [Hyoe [Hdoy Hleapday]].
  assert (Hmpd : 153 * mp <= 5 * doy + 2 < 153 * mp + 153)
    by (unfold mp; Z.div_mod_to_equations; lia).
  assert (Hz : n = era * 146097 + 365 * yoe + yoe / 4 - yoe / 100 + doy - 719468)
    by (unfold doy, doe, z; lia).
  clearbody mp doy yoe era. clear z doe Hdoe.
  assert (Hk : mp = 0 \/ mp = 1 \/ mp = 2 \/ mp = 3 \/ mp = 4 \/ mp = 5 \/ mp = 6
               \/ mp = 7 \/ mp = 8 \/ mp = 9 \/ mp = 10 \/ mp = 11) by lia.
  repeat (destruct Hk as [Hk|Hk]; [subst mp|]); [..|subst mp].
  all: eval_closed_ifs.
  all: match goal with
       | |- context [(?a * ?b + 2) / 5] =>
           let v := eval vm_compute in ((a * b + 2) / 5) in
           change ((a * b + 2) / 5) with v
       end.
  all: repeat match goal with
       | |- context [?m - 1 + 1] =>
           let v := eval vm_compute in (m - 1 + 1) in
           match v with
           | Z0 => idtac | Zpos _ => idtac | Zneg _ => idtac
           end;
           change (m - 1 + 1) with v
       end.
  all: match goal with
       | |- context [MakeDay ?y (?m - 1) ?d] =>
           let v := eval vm_compute in (m - 1) in change (m - 1) with v
       end.
  all: unfold MakeDay; cbv zeta.
  all: match goal with
       | |- context [?m / 12] =>
           let v := eval vm_compute in (m / 12) in change (m / 12) with v
       end.
  all: match goal with
       | |- context [?m mod 12] =>
           let v := eval vm_compute in (m mod 12) in change (m mod 12) with v
       end.
  all: rewrite ?Z.add_0_r.
  all: unfold daysInMonth.
  all: repeat match goal with
       | |- context [(?a =? ?b) || ?c] =>
           let v := eval vm_compute in (a =? b) in
           match v with true => idtac | false => idtac end;
           change (a =? b) with v; cbn [orb]
       end.
  all: repeat match goal with
       | |- context [if (?a =? ?b) then _ else _] =>
           let v := eval vm_compute in (a =? b) in
           match v with true => idtac | false => idtac end;
           change (a =? b) with v; cbv iota
       end.
  all: cbv iota.
  all: try match goal with
       | |- context [InLeapYear ?y] =>
           destruct (InLeapYear y) eqn:HL;
           [apply InLeapYear_true in HL|apply InLeapYear_false in HL]
       end.
  all: try match goal with
       | |- context [DaysBeforeMonth ?b ?m] =>
           let v := eval vm_compute in (DaysBeforeMonth b m) in
           change (DaysBeforeMonth b m) with v
       end.
  all: unfold DayFromYear.
  all: (Z.div_mod_to_equations; lia).
Qed.

Lemma civilFromDay_MakeDay (y mo d : Z) :
  1 <= mo <= 12 -> 1 <= d <= daysInMonth y mo ->
  civilFromDay (MakeDay y (mo - 1) d) = (y, mo - 1, d).
Proof.
  intros Hmo Hd.
  destruct (civilFromDay_spec (MakeDay y (mo - 1) d)) as [Hday [Hm' Hd']].
  destruct (civilFromDay (MakeDay y (mo - 1) d)) as [[y' m'] d'].
  cbn [fst snd] in *.
  replace m' with (m' + 1 - 1) in Hday by lia.
  assert (Hmo' : 1 <= m' + 1 <= 12) by lia.
  assert (Hcases :
    (y' < y \/ (y' = y /\ (m' + 1 < mo \/ (m' + 1 = mo /\ d' < d))))
    \/ (y < y' \/ (y = y' /\ (mo < m' + 1 \/ (mo = m' + 1 /\ d < d'))))
    \/ (y' = y /\ m' + 1 = mo /\ d' = d)) by lia.
  destruct Hcases as [Hlt|[Hgt|[-> [Hm ->]]]].
  - pose proof (MakeDay_lt y' (m' + 1) d' y mo d Hmo' Hd' Hmo Hd Hlt). lia.
  - pose proof (MakeDay_lt y mo d y' (m' + 1) d' Hmo Hd Hmo' Hd' Hgt). lia.
  - replace m' with (mo - 1) by lia. reflexivity.
Qed.

Lemma time_fields (day h mi s : Z) :
  0 <= h <= 23 -> 0 <= mi <= 59 -> 0 <= s <= 59 ->
  let t := MakeDate day (MakeTime h mi s 0) in
  Day t = day /\ HourFromTime t = h /\ MinFromTime t = mi /\ SecFromTime t = s.
Proof.
  intros Hh Hmi Hs t. subst t.
  unfold Day, HourFromTime, MinFromTime, SecFromTime, MakeDate, MakeTime, msPerDay.
  repeat split; Z.div_mod_to_equations; lia.
Qed.

Lemma LocalTime_UTC (lt : Z) : shownByTheClock lt -> LocalTime (UTC lt) = lt.
Proof. unfold shownByTheClock, LocalTime. intros ->. unfold UTC. lia. Qed.

(** X11. The local time the intranet gives is the local
    time the ICS document gives: for a date string of six numbers that
    are a date of the calendar and a time of day, and a time that the
    clock of the host shows (not one skipped at a change of offset),
    [toIcsDateTime] of [parseEpitechDate] of the string is these numbers
    again, year, month, day, "T", hours, minutes, seconds, each of month
    to seconds padded to two digits. *)
Theorem toIcsDateTime_of_parseEpitechDate (dateStr : string) (y mo d h mi s : Z) :
  civilFields dateStr = Some (y, mo, d, h, mi, s) ->
  validCivil (y, mo, d, h, mi, s) = true ->
  shownByTheClock (localTimeOf (y, mo, d, h, mi, s)) ->
  toIcsDateTime (parseEpitechDate dateStr)
  = Return (JS.toString y ++ pad mo ++ pad d ++ "T" ++ pad h ++ pad mi ++ pad s).
Proof.
  intros Hfields Hvalid Hclock.
  rewrite (parseEpitechDate_valid dateStr _ Hfields Hvalid).
  destruct (validCivil_spec _ _ _ _ _ _ Hvalid) as [_ [Hmo [Hd [Hh [Hmi Hs]]]]].
  unfold toIcsDateTime, ensureDate. cbn [bindO].
  rewrite (LocalTime_UTC _ Hclock).
  unfold localTimeOf.
  destruct (time_fields (MakeDay y (mo - 1) d) h mi s Hh Hmi Hs) as [HD [HH [HM HS]]].
  unfold YearFromTime, MonthFromTime, DateFromTime.
  rewrite HD, HH, HM, HS, (civilFromDay_MakeDay y mo d Hmo Hd).
  cbn [fst snd]. replace (mo - 1 + 1) with mo by lia. reflexivity.
Qed.

End CivilDates.

Lemma toIcsDateTime_of_parseEpitechDate_witness :
  civilFields "2024-02-29 09:05:00" = Some (2024, 2, 29, 9, 5, 0)
  /\ validCivil (2024, 2, 29, 9, 5, 0) = true
  /\ shownByTheClock (localTimeOf (2024, 2, 29, 9, 5, 0))
  /\ toIcsDateTime (parseEpitechDate "2024-02-29 09:05:00") = Return "20240229T090500".
Proof.
  split; [reflexivity|]. split; [reflexivity|]. split; [vm_compute; reflexivity|].
  rewrite (toIcsDateTime_of_parseEpitechDate (zone := Samples.cet)
             "2024-02-29 09:05:00" 2024 2 29 9 5 0);
    vm_compute; reflexivity.
Defined.

(** ** Relative dates *)

Section RelativeDates.
Context {zone : TimeZone}.

Lemma MakeDay_plus (y m d v : Z) : MakeDay y m (d + v) = MakeDay y m d + v.
Proof. unfold MakeDay. cbv zeta. lia. Qed.

Lemma local_day (t : Z) :
  MakeDay (YearFromTime t) (MonthFromTime t) (DateFromTime t) = Day t.
Proof. apply (civilFromDay_spec (Day t)). Qed.

(** A local time with the day number replaced moves by the difference of
    the days. *)
Lemma day_replaced (lt day : Z) :
  MakeDate day (TimeWithinDay lt) = lt + (day - Day lt) * msPerDay.
Proof.
  unfold MakeDate, TimeWithinDay, Day, msPerDay. Z.div_mod_to_equations. lia.
Qed.

Lemma setDate_shift (t value : Z) :
  setDate (plus (getDate (Some t)) value) (Some t)
  = TimeClip (UTC (LocalTime t + value * msPerDay)).
Proof.
  unfold setDate, plus, getDate. cbn [option_map]. cbv zeta.
  rewrite MakeDay_plus, local_day, day_replaced. do 2 f_equal. ring.
Qed.

(** Where the zone has the same offset at both ends, a move in local time
    is the same move of the instant. *)
Lemma UTC_moved (t delta : Z) :
  LocalTZA (LocalTime t + delta) false = LocalTZA t true ->
  UTC (LocalTime t + delta) = t + delta.
Proof. unfold UTC. intros ->. unfold LocalTime. lia. Qed.

(** X24. A relative date in days or weeks moves the local time of the
    date it starts from by that many days of 24 hours: the local time of
    day is kept and the local date moves, through the ends of months and
    years; the result is an invalid date only when it leaves the range of
    time values.  Where the local time of the host has the same offset from
    UTC at both ends, the result is the start moved by that many times 24
    hours, to the millisecond; across a change of offset it is not. *)
Theorem parseRelativeDate_days_and_weeks
  (relative : string) (t value n : Z) (unit : RelativeUnit) :
  matchRelative relative = Some (value, unit) ->
  daysOf unit = Some n ->
  let moved := LocalTime t + value * n * msPerDay in
  parseRelativeDate relative (Some t) = Return (TimeClip (UTC moved))
  /\ parseRelativeDateSimple relative (Some t) = TimeClip (UTC moved)
  /\ (LocalTZA moved false = LocalTZA t true ->
      parseRelativeDate relative (Some t) = Return (TimeClip (t + value * n * msPerDay))).
Proof.
  intros Hmatch Hdays moved.
  assert (Hshift : shifted value unit (Some t) = TimeClip (UTC moved)).
  { subst moved. destruct unit; try discriminate; injection Hdays as <-; cbn [shifted];
      rewrite setDate_shift; do 3 f_equal; ring. }
  unfold parseRelativeDate, parseRelativeDateSimple. rewrite Hmatch, Hshift.
  split; [reflexivity|]. split; [reflexivity|].
  intros Hsame. subst moved. rewrite (UTC_moved t _ Hsame). reflexivity.
Qed.

End RelativeDates.

Lemma parseRelativeDate_days_and_weeks_witness :
  matchRelative "-2weeks" = Some (-2, UnitWeek)
  /\ daysOf UnitWeek = Some 7
  /\ parseRelativeDate "-2weeks" (Some 1740819600000) = Return (Some 1739610000000)
  /\ parseRelativeDateSimple "-2weeks" (Some 1740819600000) = Some 1739610000000
  /\ LocalTZA (LocalTime 1740819600000 + -2 * 7 * msPerDay) false
     = LocalTZA 1740819600000 true
  /\ parseRelativeDate "-2weeks" (Some 1740819600000)
     = Return (TimeClip (1740819600000 + -2 * 7 * msPerDay)).
Proof.
  split; [reflexivity|]. split; [reflexivity|].
  destruct (parseRelativeDate_days_and_weeks (zone := Samples.cet)
              "-2weeks" 1740819600000 (-2) 7 UnitWeek eq_refl eq_refl)
    as [Hfull [Hsimple Hsame]].
  split; [exact Hfull|]. split; [exact Hsimple|]. split; [reflexivity|].
  apply Hsame. reflexivity.
Defined.

Section RelativeDatesMonthsAndYears.
Context {zone : TimeZone}.

Lemma MakeDay_months (y m d k : Z) :
  MakeDay y (m + 12 * k) d = MakeDay (y + k) m d.
Proof.
  unfold MakeDay. cbv zeta.
  replace ((m + 12 * k) / 12) with (m / 12 + k) by (Z.div_mod_to_equations; lia).
  replace ((m + 12 * k) mod 12) with (m mod 12) by (Z.div_mod_to_equations; lia).
  replace (y + (m / 12 + k)) with (y + k + m / 12) by lia. reflexivity.
Qed.

(** X25. Twelve months are a year: a relative date of
    [12 * k] months and a relative date of [k] years are the same date,
    from every date and in both parsers; the default end of the sync
    period, "+12months", is "+1year". *)
Theorem parseRelativeDate_twelve_months_are_a_year
  (months years : string) (k : Z) (from : Date) :
  matchRelative months = Some (12 * k, UnitMonth) ->
  matchRelative years = Some (k, UnitYear) ->
  parseRelativeDate months from = parseRelativeDate years from
  /\ parseRelativeDateSimple months from = parseRelativeDateSimple years from.
Proof.
  intros Hm Hy. unfold parseRelativeDate, parseRelativeDateSimple.
  rewrite Hm, Hy. cbn [shifted].
  destruct from as [tv|]; [|split; reflexivity].
  assert (H : setMonth (plus (getMonth (Some tv)) (12 * k)) (Some tv)
              = setFullYear (plus (getFullYear (Some tv)) k) (Some tv)).
  { unfold setMonth, setFullYear, plus, getMonth, getFullYear. cbn [option_map]. cbv zeta.
    rewrite MakeDay_months. reflexivity. }
  rewrite H. split; reflexivity.
Qed.

End RelativeDatesMonthsAndYears.

Lemma parseRelativeDate_twelve_months_are_a_year_witness :
  matchRelative "+12months" = Some (12 * 1, UnitMonth)
  /\ matchRelative "+1year" = Some (1, UnitYear)
  /\ parseRelativeDate "+12months" (Some 1740819600000)
     = parseRelativeDate "+1year" (Some 1740819600000)
  /\ parseRelativeDateSimple "+12months" (Some 1740819600000)
     = parseRelativeDateSimple "+1year" (Some 1740819600000).
Proof.
  split; [reflexivity|]. split; [reflexivity|].
  apply (parseRelativeDate_twelve_months_are_a_year (zone := Samples.cet)
           "+12months" "+1year" 1 (Some 1740819600000)); reflexivity.
Defined.

(** ** The period of the sync *)

Section SyncPeriod.
Context {zone : TimeZone}.

Lemma MakeDay_monthStart (y m d : Z) : MakeDay y m d = monthStart (12 * y + m) + d - 1.
Proof.
  unfold MakeDay, monthStart. cbv zeta.
  replace ((12 * y + m) / 12) with (y + m / 12) by (Z.div_mod_to_equations; lia).
  replace ((12 * y + m) mod 12) with (m mod 12) by (Z.div_mod_to_equations; lia).
  reflexivity.
Qed.

Lemma DaysBeforeMonth_next (leap : bool) (mn : Z) :
  0 <= mn < 11 -> DaysBeforeMonth leap mn < DaysBeforeMonth leap (mn + 1).
Proof.
  intros Hmn.
  assert (Hcases : mn = 0 \/ mn = 1 \/ mn = 2 \/ mn = 3 \/ mn = 4 \/ mn = 5 \/ mn = 6
                   \/ mn = 7 \/ mn = 8 \/ mn = 9 \/ mn = 10) by lia.
  clear Hmn.
  destruct leap; repeat (destruct Hcases as [->|Hcases]); try subst mn; reflexivity.
Qed.

Lemma DaysBeforeMonth_December (leap : bool) :
  DaysBeforeMonth leap 11 < (if leap then 366 else 365) /\ DaysBeforeMonth leap 0 = 0.
Proof. destruct leap; split; reflexivity. Qed.

Lemma monthStart_next (index : Z) : monthStart index < monthStart (index + 1).
Proof.
  unfold monthStart.
  assert (Hcases : index mod 12 = 11 \/ 0 <= index mod 12 < 11)
    by (Z.div_mod_to_equations; lia).
  destruct Hcases as [Hlast|Hin].
  - replace ((index + 1) / 12) with (index / 12 + 1) by (Z.div_mod_to_equations; lia).
    replace ((index + 1) mod 12) with 0 by (Z.div_mod_to_equations; lia).
    rewrite Hlast, DayFromYear_step.
    destruct (DaysBeforeMonth_December (InLeapYear (index / 12))) as [Hdec _].
    destruct (DaysBeforeMonth_December (InLeapYear (index / 12 + 1))) as [_ ->].
    lia.
  - replace ((index + 1) / 12) with (index / 12) by (Z.div_mod_to_equations; lia).
    replace ((index + 1) mod 12) with (index mod 12 + 1) by (Z.div_mod_to_equations; lia).
    pose proof (DaysBeforeMonth_next (InLeapYear (index / 12)) (index mod 12) Hin). lia.
Qed.

Lemma monthStart_mono (a b : Z) : a <= b -> monthStart a <= monthStart b.
Proof.
  intros Hab. replace b with (a + Z.of_nat (Z.to_nat (b - a))) by lia.
  induction (Z.to_nat (b - a)) as [|n IH].
  - rewrite Z.add_0_r. lia.
  - pose proof (monthStart_next (a + Z.of_nat n)) as Hnext.
    replace (a + Z.of_nat (S n)) with (a + Z.of_nat n + 1) by lia. lia.
Qed.

Lemma monthStart_lt (a b : Z) : a < b -> monthStart a < monthStart b.
Proof.
  intros Hab. pose proof (monthStart_next a). pose proof (monthStart_mono (a + 1) b).
  lia.
Qed.

Lemma TimeClip_value (v te : Z) : TimeClip v = Some te -> te = v.
Proof.
  unfold TimeClip. destruct (Z.abs v >? 8640000000000000); [discriminate|].
  intros H. injection H as <-. reflexivity.
Qed.

Lemma days_between (first first' date value : Z) :
  (0 < value -> first < first') -> (value < 0 -> first' < first) ->
  (value = 0 -> first' = first) ->
  let days := first' + date - 1 - (first + date - 1) in
  (1 <= value -> 1 <= days) /\ (value <= -1 -> days <= -1) /\ (value = 0 -> days = 0).
Proof. intros Hup Hdown Hsame days. subst days. lia. Qed.

(** A relative date that is valid: the local time of its start, moved by
    whole days, and by at least one when the amount is not zero, to the
    side the sign of the amount tells. *)
Lemma shifted_local (value : Z) (unit : RelativeUnit) (t te : Z) :
  shifted value unit (Some t) = Some te ->
  exists days,
    te = UTC (LocalTime t + days * msPerDay)
    /\ (1 <= value -> 1 <= days) /\ (value <= -1 -> days <= -1)
    /\ (value = 0 -> days = 0).
Proof.
  destruct unit; cbn [shifted].
  - rewrite setDate_shift. intros H. apply TimeClip_value in H.
    exists value. split; [exact H|]. lia.
  - rewrite setDate_shift. intros H. apply TimeClip_value in H.
    exists (value * 7). split; [exact H|]. lia.
  - unfold setMonth, plus, getMonth. cbn [option_map]. cbv zeta.
    intros H. apply TimeClip_value in H.
    rewrite day_replaced, <- (local_day (LocalTime t)), !MakeDay_monthStart in H.
    eexists. split; [exact H|].
    apply days_between; intros Hv.
    + apply monthStart_lt. lia.
    + apply monthStart_lt. lia.
    + subst value. f_equal. lia.
  - unfold setFullYear, plus, getFullYear. cbn [option_map]. cbv zeta.
    intros H. apply TimeClip_value in H.
    rewrite day_replaced, <- (local_day (LocalTime t)), !MakeDay_monthStart in H.
    eexists. split; [exact H|].
    apply days_between; intros Hv.
    + apply monthStart_lt. lia.
    + apply monthStart_lt. lia.
    + subst value. f_equal. lia.
Qed.

Lemma shifted_direction (value : Z) (unit : RelativeUnit) (t te : Z) :
  offsetsWithinADay ->
  shifted value unit (Some t) = Some te ->
  (1 <= value -> t <= te) /\ (value <= -1 -> te <= t).
Proof.
  intros Hzone Hshift.
  destruct (shifted_local value unit t te Hshift) as [days [-> [Hup [Hdown _]]]].
  unfold UTC.
  pose proof (Hzone (LocalTime t + days * msPerDay) t false true) as Hforth.
  pose proof (Hzone t (LocalTime t + days * msPerDay) true false) as Hback.
  generalize dependent (LocalTZA (LocalTime t + days * msPerDay) false).
  intros offset Hforth Hback.
  unfold LocalTime. generalize dependent (LocalTZA t true). intros offset' Hforth Hback.
  unfold msPerDay in *. split; intros Hv; [specialize (Hup Hv)|specialize (Hdown Hv)]; nia.
Qed.

Lemma setHours_midnight (clock ts : Z) :
  setHours 0 0 0 0 (Some clock) = Some ts ->
  exists lm, ts = UTC lm /\ TimeWithinDay lm = 0
             /\ lm <= LocalTime clock < lm + msPerDay.
Proof.
  unfold setHours. intros H. apply TimeClip_value in H.
  exists (MakeDate (Day (LocalTime clock)) (MakeTime 0 0 0 0)).
  split; [exact H|].
  unfold MakeDate, MakeTime, Day, TimeWithinDay, msPerDay.
  generalize (LocalTime clock). intros lt.
  split; Z.div_mod_to_equations; lia.
Qed.

(** X26. With the start "today" and a relative end,
    [getDateRange] starts the period at the instant the zone of the host
    gives to the local start of the day of the clock, and, when both dates
    are valid and the offsets of the zone lie within a day of each other,
    ends it on the side of the start that the sign of the amount tells:
    not before the start for an amount of one or more, in days, weeks,
    months or years, and not after it for an amount of minus one or less,
    which gives a period that runs backwards. *)
Theorem getDateRange_from_today (parse : string -> Date) (end_ : string)
  (clock value : Z) (unit : RelativeUnit) (ts te : Z) :
  offsetsWithinADay ->
  signedAmount end_ = true ->
  matchRelative end_ = Some (value, unit) ->
  getDateRange parse "today" end_ clock = (Some ts, Some te) ->
  (exists lm, ts = UTC lm /\ TimeWithinDay lm = 0
              /\ lm <= LocalTime clock < lm + msPerDay)
  /\ (1 <= value -> ts <= te)
  /\ (value <= -1 -> te <= ts).
Proof.
  intros Hzone Hsigned Hmatch. unfold getDateRange. cbv zeta.
  change (String.eqb "today" "today") with true. cbv iota.
  rewrite Hsigned. unfold parseRelativeDateSimple. rewrite Hmatch.
  intros Hrange. injection Hrange as Hstart Hend.
  rewrite Hstart in Hend. split.
  - apply setHours_midnight. exact Hstart.
  - apply (shifted_direction value unit _ _ Hzone). exact Hend.
Qed.

Lemma fixedOffset_within_a_day (offset : Z) (Hrange : fixedRange offset) :
  offsetsWithinADay (zone := fixedOffset offset Hrange).
Proof. intros a b i j. cbn. unfold msPerDay. lia. Qed.

End SyncPeriod.

Lemma getDateRange_from_today_witness :
  offsetsWithinADay (zone := Samples.cet)
  /\ signedAmount "+12months" = true
  /\ matchRelative "+12months" = Some (12, UnitMonth)
  /\ getDateRange fromISOString "today" "+12months" 1740819600000
     = (Some 1740783600000, Some 1772319600000)
  /\ (exists lm, 1740783600000 = UTC lm /\ TimeWithinDay lm = 0
                 /\ lm <= LocalTime 1740819600000 < lm + msPerDay)
  /\ (1 <= 12 -> 1740783600000 <= 1772319600000)
  /\ (12 <= -1 -> 1772319600000 <= 1740783600000).
Proof.
  split; [apply fixedOffset_within_a_day|].
  split; [vm_compute; reflexivity|]. split; [vm_compute; reflexivity|].
  split; [vm_compute; reflexivity|].
  apply (getDateRange_from_today (zone := Samples.cet)
           fromISOString "+12months" 1740819600000 12 UnitMonth);
    [apply fixedOffset_within_a_day|vm_compute; reflexivity..].
Defined.

Section SyncPeriodStrings.
Context {zone : TimeZone}.

Lemma signedAmount_sign (s : string) :
  signedAmount s = true -> startsWithChar "+" s || startsWithChar "-" s = true.
Proof.
  destruct s as [|c [|d s']]; try discriminate.
  unfold signedAmount, startsWithChar. intros H.
  apply andb_true_iff in H. exact (proj1 H).
Qed.

(** X27. For the start "today" and an end that begins
    with a sign and a digit, [getSyncPeriodDates] returns the dates of
    [getDateRange] when the end is a relative date, and throws when it is
    not, for instance for an unknown unit; [getDateRange], which the
    sync uses, then throws nothing and ends the period where it starts,
    at the start of today. *)
Theorem getDateRange_and_getSyncPeriodDates (parse : string -> Date) (end_ : string)
  (clock : Z) :
  signedAmount end_ = true ->
  getSyncPeriodDates parse "today" end_ clock
  = match matchRelative end_ with
    | Some _ => Return (getDateRange parse "today" end_ clock)
    | None => Throw ("Invalid relative date format: " ++ end_)
    end
  /\ (matchRelative end_ = None ->
      getDateRange parse "today" end_ clock
      = (setHours 0 0 0 0 (Some clock), setHours 0 0 0 0 (Some clock))).
Proof.
  intros Hsigned. unfold getSyncPeriodDates, getDateRange. cbv zeta.
  change (String.eqb "today" "today") with true. cbv iota.
  rewrite Hsigned, (signedAmount_sign end_ Hsigned).
  unfold parseRelativeDate, parseRelativeDateSimple.
  destruct (matchRelative end_) as [[value unit]|].
  - split; [reflexivity|discriminate].
  - split; [reflexivity|]. intros _. reflexivity.
Qed.

End SyncPeriodStrings.

Lemma getDateRange_and_getSyncPeriodDates_witness :
  signedAmount "+3fortnights" = true
  /\ getSyncPeriodDates fromISOString "today" "+3fortnights" 1740819600000
     = match matchRelative "+3fortnights" with
       | Some _ => Return (getDateRange fromISOString "today" "+3fortnights" 1740819600000)
       | None => Throw ("Invalid relative date format: " ++ "+3fortnights")
       end
  /\ (matchRelative "+3fortnights" = None ->
      getDateRange fromISOString "today" "+3fortnights" 1740819600000
      = (setHours 0 0 0 0 (Some 1740819600000), setHours 0 0 0 0 (Some 1740819600000))).
Proof.
  split; [vm_compute; reflexivity|].
  apply (getDateRange_and_getSyncPeriodDates (zone := Samples.cet)
           fromISOString "+3fortnights" 1740819600000).
  vm_compute. reflexivity.
Defined.

(** ** A host whose offset changes

    The conditions on the offset in the statements about local time are
    needed: on a host that follows the change of 2025-03-30, each of them
    fails where the condition does. *)

(** The window 02:30 to 03:00 of that day is in order, and its dates are
    not: 02:30 is read an hour from UTC, 03:00 two hours. *)
Lemma order_lost_in_the_skipped_hour :
  let raw := Samples.withWindow "2025-03-30 02:30:00" "2025-03-30 03:00:00"
               Samples.lectureBackwards in
  civilLe (2025, 3, 30, 2, 30, 0) (2025, 3, 30, 3, 0, 0) = true
  /\ exists e,
       transformEvent (zone := Samples.springForward) raw "EPITECH - " = Return e
       /\ startDate e = Some 1743298200000
       /\ endDate e = Some 1743296400000
       /\ dateLe (startDate e) (endDate e) = false.
Proof.
  intros raw. split; [reflexivity|].
  eexists. split; [vm_compute; reflexivity|]. repeat split; vm_compute; reflexivity.
Qed.

(** A time of the skipped hour comes back an hour later. *)
Lemma skipped_hour_is_written_an_hour_later :
  toIcsDateTime (zone := Samples.springForward)
    (parseEpitechDate (zone := Samples.springForward) "2025-03-30 02:30:00")
  = Return "20250330T033000".
Proof. vm_compute. reflexivity. Qed.

(** Two days from the local midnight of 2025-03-29 are 47 hours. *)
Lemma two_days_of_47_hours :
  parseRelativeDate (zone := Samples.springForward) "+2days" (Some 1743202800000)
  = Return (Some (1743202800000 + 47 * 3600000)).
Proof. vm_compute. reflexivity. Qed.

(** ** The Google adapter: what a pass leaves alone *)

Lemma call_cases {A : Type} (c : Call) (effect : Env -> Outcome A * Env) (env : Env) :
  call c effect env
  = match faults env c with
    | Some message => (Throw message, logCall c env)
    | None => effect (logCall c env)
    end.
Proof. reflexivity. Qed.

Lemma googleApiRequest_cases {A : Type} (r : GoogleRequest)
  (service : Env -> Outcome (option A) * Env) (env : Env) :
  googleApiRequest r service env
  = match faults env (Google r) with
    | Some message => (Throw message, logCall (Google r) env)
    | None =>
        match service (logCall (Google r) env) with
        | (Return body, env') => (responseJson body, env')
        | (Throw message, env') => (Throw message, env')
        end
    end.
Proof. reflexivity. Qed.

Lemma page_of_listing {T : Type} (count offset : nat) (entries : list T) (entry : T) :
  In entry (firstn count (skipn offset entries)) -> In entry entries.
Proof.
  intros H.
  assert (Hs : In entry (skipn offset entries)).
  { rewrite <- (firstn_skipn count (skipn offset entries)). apply in_or_app. left. exact H. }
  rewrite <- (firstn_skipn offset entries). apply in_or_app. right. exact Hs.
Qed.

Lemma mapSet_In (k : string) (v : GoogleCalendarEvent) (m : EventMap)
  (k' : string) (v' : GoogleCalendarEvent) :
  In (k', v') (mapSet k v m) -> In (k', v') m \/ v' = v.
Proof.
  induction m as [|[k0 v0] m IH]; cbn [mapSet]; intros H.
  - destruct H as [H|[]]. injection H as _ <-. right. reflexivity.
  - destruct (String.eqb k0 k).
    + destruct H as [H|H].
      * injection H as _ <-. right. reflexivity.
      * left. right. exact H.
    + destruct H as [H|H].
      * left. left. exact H.
      * destruct (IH H) as [H'|H']; [left; right; exact H'|right; exact H'].
Qed.

Lemma collect_values (page : list GoogleCalendarEvent) :
  forall (acc : EventMap) (k : string) (ex : GoogleCalendarEvent),
    In (k, ex) (collect acc page) -> In (k, ex) acc \/ In ex page.
Proof.
  induction page as [|ev page IH]; intros acc k ex H; [left; exact H|].
  unfold collect in *. cbn [fold_left] in H.
  apply IH in H. destruct H as [H|H]; [|right; right; exact H].
  destruct (tagOf ev) as [t|]; [|left; exact H].
  destruct (JS.truthy t); [|left; exact H].
  apply mapSet_In in H. destruct H as [H| ->]; [left; exact H|right; left; reflexivity].
Qed.

(** Listing changes no entry, and the map it returns holds entries of the
    calendar that match the query. *)
Lemma listPages_values (calendar : string) (fuel : nat) :
  forall (pageToken : option nat) (acc : EventMap) (env : Env),
    google (snd (listPages fuel calendar pageToken acc env)) = google env
    /\ match fst (listPages fuel calendar pageToken acc env) with
       | Return m =>
           forall k ex, In (k, ex) m ->
                        In (k, ex) acc \/ (In ex (google env) /\ matchesQuery ex = true)
       | Throw _ => True
       end.
Proof.
  induction fuel as [|fuel IH]; intros pageToken acc env.
  - cbn. split; [reflexivity|]. intros k ex H. left. exact H.
  - cbn [listPages]. unfold bind, listRequest. rewrite googleApiRequest_cases.
    destruct (faults env (Google (GList calendar pageToken))) as [msg|].
    + cbn. split; [reflexivity|exact I].
    + cbn [items nextPageToken google logCall responseJson].
      set (page := firstn maxResults _).
      assert (Hpage : forall ex, In ex page -> In ex (google env) /\ matchesQuery ex = true).
      { intros ex Hex. apply page_of_listing in Hex. apply filter_In in Hex. exact Hex. }
      destruct (_ <? _)%nat.
      * specialize (IH (Some (match pageToken with Some n => n | None => O end
                               + maxResults)%nat)
                      (collect acc page)
                      (logCall (Google (GList calendar pageToken)) env)).
        destruct IH as [Hg Hm]. split; [exact Hg|].
        destruct (fst (listPages fuel calendar _ (collect acc page) _)); [|exact I].
        intros k ex H. apply Hm in H. destruct H as [H|H]; [|right; exact H].
        apply collect_values in H. destruct H as [H|H]; [left; exact H|right; auto].
      * cbn. split; [reflexivity|].
        intros k ex H. apply collect_values in H.
        destruct H as [H|H]; [left; exact H|right; auto].
Qed.

Lemma replaced_keeps (g : string) (body : GoogleEventBody)
  (l : list GoogleCalendarEvent) (ev : GoogleCalendarEvent) :
  g_id ev <> g -> In ev l -> In ev (replaced g body l).
Proof.
  intros Hne Hin. unfold replaced. apply in_map_iff. exists ev. split; [|exact Hin].
  destruct (hasId g ev) eqn:Hid; [|reflexivity].
  apply hasId_spec in Hid. contradiction.
Qed.

Lemma updateRequest_keeps (calendar g : string) (body : GoogleEventBody) (env : Env)
  (ev : GoogleCalendarEvent) :
  g_id ev <> g -> In ev (google env) ->
  In ev (google (snd (updateRequest calendar g body env))).
Proof.
  intros Hne Hin. unfold updateRequest. rewrite googleApiRequest_cases.
  destruct (faults env _); [exact Hin|].
  cbn [google logCall]. destruct (existsb _ _); [|exact Hin].
  cbn [snd google setGoogle]. apply (replaced_keeps g body _ ev Hne Hin).
Qed.

Lemma insertRequest_keeps (calendar : string) (body : GoogleEventBody) (env : Env)
  (ev : GoogleCalendarEvent) :
  In ev (google env) -> In ev (google (snd (insertRequest calendar body env))).
Proof.
  intros Hin. unfold insertRequest. rewrite googleApiRequest_cases.
  destruct (faults env _); [exact Hin|].
  cbn [snd google setGoogle logCall]. apply in_or_app. left. exact Hin.
Qed.

Lemma deleteRequest_keeps (calendar g : string) (env : Env) (ev : GoogleCalendarEvent) :
  g_id ev <> g -> In ev (google env) ->
  In ev (google (snd (deleteRequest calendar g env))).
Proof.
  intros Hne Hin. unfold deleteRequest. rewrite googleApiRequest_cases.
  destruct (faults env _); [exact Hin|].
  cbn [google logCall]. destruct (existsb _ _); [|exact Hin].
  cbn [snd google setGoogle]. apply (removed_In g _ ev). split; assumption.
Qed.

Lemma mapGet_mapped (k : string) (ex : GoogleCalendarEvent) (m : EventMap) :
  mapGet k m = Some ex -> In (g_id ex) (mappedIds m).
Proof.
  intros H. apply mapGet_In in H. unfold mappedIds.
  apply in_map_iff. exists (k, ex). split; [reflexivity|exact H].
Qed.

Lemma upsert_keeps (calendar : string) (m : EventMap) (e : EpitechEvent)
  (r : SyncResultDetails) (env : Env) (ev : GoogleCalendarEvent) :
  ~ In (g_id ev) (mappedIds m) -> In ev (google env) ->
  In ev (google (snd (upsert calendar m e r env))).
Proof.
  intros Hout Hin. unfold upsert.
  destruct (toGoogleEvent e) as [body|msg]; [|exact Hin].
  destruct (mapGet (id e) m) as [ex|] eqn:Hget.
  - assert (Hne : g_id ev <> g_id ex).
    { intros Heq. apply Hout. rewrite Heq. apply (mapGet_mapped _ _ _ Hget). }
    pose proof (updateRequest_keeps calendar (g_id ex) body env ev Hne Hin) as H.
    destruct (updateRequest calendar (g_id ex) body env) as [[u|msg] env']; exact H.
  - pose proof (insertRequest_keeps calendar body env ev Hin) as H.
    destruct (insertRequest calendar body env) as [[u|msg] env']; exact H.
Qed.

Lemma upsertAll_keeps (calendar : string) (m : EventMap) (ev : GoogleCalendarEvent)
  (events : list EpitechEvent) :
  forall (r : SyncResultDetails) (env : Env),
    ~ In (g_id ev) (mappedIds m) -> In ev (google env) ->
    In ev (google (snd (upsertAll calendar m events r env))).
Proof.
  induction events as [|e events IH]; intros r env Hout Hin; [exact Hin|].
  cbn [upsertAll].
  pose proof (upsert_keeps calendar m e r env ev Hout Hin) as H.
  destruct (upsert calendar m e r env) as [[[u|msg] r'] env']; cbn [snd] in H.
  - apply IH; assumption.
  - exact H.
Qed.

Lemma deleteAll_keeps (calendar : string) (processedIds : list string)
  (ev : GoogleCalendarEvent) (entries : EventMap) :
  forall (r : SyncResultDetails) (env : Env),
    ~ In (g_id ev) (mappedIds entries) -> In ev (google env) ->
    In ev (google (snd (deleteAll calendar processedIds entries r env))).
Proof.
  induction entries as [|[k ex] entries IH]; intros r env Hout Hin; [exact Hin|].
  cbn [deleteAll].
  assert (Hrest : ~ In (g_id ev) (mappedIds entries)).
  { intros H. apply Hout. right. exact H. }
  destruct (existsb (String.eqb k) processedIds); [apply IH; assumption|].
  assert (Hne : g_id ev <> g_id ex).
  { intros Heq. apply Hout. left. symmetry. exact Heq. }
  pose proof (deleteRequest_keeps calendar (g_id ex) env ev Hne Hin) as H.
  destruct (deleteRequest calendar (g_id ex) env) as [[u|msg] env']; cbn [snd] in H;
    apply IH; assumption.
Qed.

Lemma reconcile_keeps (calendar : string) (events : list EpitechEvent) (env : Env)
  (ev : GoogleCalendarEvent) :
  NoDup (map g_id (google env)) ->
  In ev (google env) -> matchesQuery ev = false ->
  In ev (google (snd (reconcile calendar events env))).
Proof.
  intros Hids Hin Hother. unfold reconcile, getExistingEvents.
  destruct (listPages_values calendar (S (List.length (google env))) None [] env)
    as [Hg Hm].
  destruct (listPages (S (List.length (google env))) calendar None [] env)
    as [[m|msg] env1]; cbn [fst snd] in Hg, Hm.
  - assert (Hout : ~ In (g_id ev) (mappedIds m)).
    { intros H. unfold mappedIds in H. apply in_map_iff in H.
      destruct H as [[k ex] [Hid Hex]]. cbn [snd] in Hid.
      destruct (Hm k ex Hex) as [[]|[Hex' Hq]].
      assert (ex = ev) by (apply (entry_unique (google env)); assumption).
      subst ex. congruence. }
    assert (Hin1 : In ev (google env1)) by (rewrite Hg; exact Hin).
    pose proof (upsertAll_keeps calendar m ev events emptyResult env1 Hout Hin1) as H.
    destruct (upsertAll calendar m events emptyResult env1) as [[[u|msg] r] env2];
      cbn [snd] in H.
    + apply deleteAll_keeps; assumption.
    + exact H.
  - cbn [snd]. rewrite Hg. exact Hin.
Qed.

(** X12. A pass never touches an entry that the listing
    query does not match, an entry of the user's own for instance: when
    the identifiers of the calendar are unique, every such entry is in the
    calendar afterwards, as it was.  This holds for every list of events,
    whatever the settings, and whichever requests fail. *)
Theorem syncToGoogleCalendar_leaves_other_entries
  (events : list EpitechEvent) (env : Env) (ev : GoogleCalendarEvent) :
  NoDup (map g_id (google env)) ->
  In ev (google env) -> matchesQuery ev = false ->
  In ev (google (snd (syncToGoogleCalendar events env))).
Proof.
  intros Hids Hin Hother. unfold syncToGoogleCalendar, bind, getSettings.
  rewrite call_cases.
  destruct (faults env (StorageGet SETTINGS_KEY)); [exact Hin|].
  set (env0 := logCall (StorageGet SETTINGS_KEY) env).
  assert (H0 : In ev (google (snd (reconcile "" events env0)))
               /\ forall calendar, In ev (google (snd (reconcile calendar events env0)))).
  { split; [|intros calendar]; apply reconcile_keeps; assumption. }
  destruct H0 as [_ H0].
  assert (Hrun : forall calendar,
             In ev (google (snd (match reconcile calendar events env0 with
                                 | (Return _, result, env') => (Return result, env')
                                 | (Throw errorMsg, result, env') =>
                                     (Return (pushError errorMsg result), env')
                                 end)))).
  { intros calendar. specialize (H0 calendar).
    destruct (reconcile calendar events env0) as [[[u|msg] r] env']; exact H0. }
  destruct (stored_settings _) as [s|]; cbn [logCall stored_settings].
  - destruct (calendarId (googleCalendar s)) as [calendar|]; [|exact Hin].
    destruct (JS.truthy calendar); [apply Hrun|exact Hin].
  - cbn. exact Hin.
Qed.

Lemma syncToGoogleCalendar_leaves_other_entries_witness :
  NoDup (map g_id (google (Samples.world Samples.updateOfG2Fails)))
  /\ In (Samples.ownEntry "g3") (google (Samples.world Samples.updateOfG2Fails))
  /\ matchesQuery (Samples.ownEntry "g3") = false
  /\ In (Samples.ownEntry "g3")
       (google (snd (syncToGoogleCalendar Samples.canonicalBCD
                       (Samples.world Samples.updateOfG2Fails)))).
Proof.
  assert (Hids : NoDup (map g_id (google (Samples.world Samples.updateOfG2Fails))))
    by (apply distinct_NoDup; reflexivity).
  assert (Hin : In (Samples.ownEntry "g3") (google (Samples.world Samples.updateOfG2Fails)))
    by (right; right; left; reflexivity).
  split; [exact Hids|]. split; [exact Hin|]. split; [reflexivity|].
  apply (syncToGoogleCalendar_leaves_other_entries Samples.canonicalBCD
           (Samples.world Samples.updateOfG2Fails) (Samples.ownEntry "g3") Hids Hin).
  reflexivity.
Defined.

(** ** The Google adapter: a listing that fails *)

(** X13. When the request that lists the mirrored events
    fails, the pass stops there: it returns a result whose counts are zero
    and whose one error is the message of the failure, and the list
    request is the only request sent to the calendar. *)
Theorem syncToGoogleCalendar_listing_fails
  (events : list EpitechEvent) (env : Env) (calendar msg : string) :
  faults env (StorageGet SETTINGS_KEY) = None ->
  connectedCalendar env = Some calendar ->
  JS.truthy calendar = true ->
  faults env (Google (GList calendar None)) = Some msg ->
  syncToGoogleCalendar events env
  = (Return {| created := 0; updated := 0; deleted := 0; errors := [msg] |},
     logCall (Google (GList calendar None)) (logCall (StorageGet SETTINGS_KEY) env)).
Proof.
  intros Hget Hcal Htruthy Hlist.
  unfold syncToGoogleCalendar, bind. rewrite (getSettings_ok env Hget).
  unfold connectedCalendar in Hcal.
  assert (Hc : calendarId (googleCalendar match stored_settings env with
                                          | Some stored => stored
                                          | None => DEFAULT_SETTINGS
                                          end) = Some calendar).
  { destruct (stored_settings env); exact Hcal. }
  rewrite Hc, Htruthy.
  unfold reconcile, getExistingEvents. cbn [listPages].
  unfold bind, listRequest. rewrite googleApiRequest_cases. cbn [faults logCall].
  rewrite Hlist. reflexivity.
Qed.

Lemma syncToGoogleCalendar_listing_fails_witness :
  let env := Samples.world Samples.listingFails in
  faults env (StorageGet SETTINGS_KEY) = None
  /\ connectedCalendar env = Some "cal-1"
  /\ JS.truthy "cal-1" = true
  /\ faults env (Google (GList "cal-1" None)) = Some "Google API error: 503 - Service Unavailable"
  /\ syncToGoogleCalendar Samples.canonicalBCD env
     = (Return {| created := 0; updated := 0; deleted := 0;
                  errors := ["Google API error: 503 - Service Unavailable"] |},
        logCall (Google (GList "cal-1" None)) (logCall (StorageGet SETTINGS_KEY) env)).
Proof.
  split; [reflexivity|]. split; [reflexivity|]. split; [reflexivity|].
  split; [reflexivity|].
  apply (syncToGoogleCalendar_listing_fails Samples.canonicalBCD
           (Samples.world Samples.listingFails) "cal-1"
           "Google API error: 503 - Service Unavailable"); reflexivity.
Defined.

(** ** The calls that fail are a fixed part of the environment *)

Section Frames.
Context {zone : TimeZone}.

Lemma keeps_ret {A : Type} (a : A) : keeps (ret a).
Proof. intros env. reflexivity. Qed.

Lemma keeps_throw {A : Type} (message : string) : keeps (@throw A message).
Proof. intros env. reflexivity. Qed.

Lemma keeps_lift {A : Type} (o : Outcome A) : keeps (lift o).
Proof. intros env. reflexivity. Qed.

Lemma keeps_dateNow : keeps dateNow.
Proof. intros env. reflexivity. Qed.

Lemma keeps_bind {A B : Type} (m : M A) (k : A -> M B) :
  keeps m -> (forall a, keeps (k a)) -> keeps (bind m k).
Proof.
  intros Hm Hk env. unfold bind. specialize (Hm env).
  destruct (m env) as [[a|msg] env1]; cbn [snd] in Hm.
  - rewrite (Hk a env1). exact Hm.
  - exact Hm.
Qed.

Lemma keeps_tryCatch {A : Type} (m : M A) (handler : string -> M A) :
  keeps m -> (forall message, keeps (handler message)) -> keeps (tryCatch m handler).
Proof.
  intros Hm Hh env. unfold tryCatch. specialize (Hm env).
  destruct (m env) as [[a|msg] env1]; cbn [snd] in Hm.
  - exact Hm.
  - rewrite (Hh msg env1). exact Hm.
Qed.

Lemma keeps_call {A : Type} (c : Call) (effect : Env -> Outcome A * Env) :
  (forall env, faults (snd (effect env)) = faults env) -> keeps (call c effect).
Proof.
  intros He env. rewrite call_cases.
  destruct (faults env c); [reflexivity|]. rewrite He. reflexivity.
Qed.

Lemma keeps_getSettings : keeps getSettings.
Proof.
  apply keeps_call. intros env. destruct (stored_settings env); reflexivity.
Qed.

Lemma keeps_saveSettings (update : ExtensionSettings -> ExtensionSettings) :
  keeps (saveSettings update).
Proof.
  apply keeps_bind; [apply keeps_getSettings|]. intros current.
  apply keeps_call. reflexivity.
Qed.

Lemma keeps_getSyncStatus : keeps getSyncStatus.
Proof.
  apply keeps_call. intros env. destruct (stored_status env); reflexivity.
Qed.

Lemma keeps_updateSyncStatus (p : SyncStatusPatch) : keeps (updateSyncStatus p).
Proof.
  apply keeps_bind; [apply keeps_getSyncStatus|]. intros current.
  apply keeps_call. reflexivity.
Qed.

Lemma keeps_cacheEvents (events : list EpitechEvent) : keeps (cacheEvents events).
Proof.
  apply keeps_bind; [apply keeps_lift|]. intros serialized.
  apply keeps_call. reflexivity.
Qed.

Lemma keeps_markSyncCompleted : keeps markSyncCompleted.
Proof.
  unfold markSyncCompleted.
  apply keeps_bind; [apply keeps_dateNow|]. intros t.
  apply keeps_bind; [apply keeps_dateNow|]. intros t'.
  apply keeps_bind; [apply keeps_lift|]. intros today.
  apply keeps_bind; [apply keeps_saveSettings|]. intros _.
  apply keeps_updateSyncStatus.
Qed.

Lemma keeps_checkAuthentication : keeps EpitechFetch.checkAuthentication.
Proof.
  apply keeps_tryCatch.
  - apply keeps_call. reflexivity.
  - intros message. apply keeps_ret.
Qed.

Lemma keeps_getEventsForSync : keeps EpitechFetch.getEventsForSync.
Proof.
  apply keeps_bind; [apply keeps_getSettings|]. intros settings.
  apply keeps_bind; [apply keeps_call; reflexivity|]. intros rawEvents.
  apply keeps_lift.
Qed.

Lemma keeps_notificationsCreate (title message : string) :
  keeps (SyncManager.notificationsCreate title message).
Proof. apply keeps_call. reflexivity. Qed.

Lemma keeps_showNotification (result : SyncManager.SyncResult) :
  keeps (SyncManager.showNotification result).
Proof. apply keeps_notificationsCreate. Qed.

Lemma keeps_listPages (calendar : string) (fuel : nat) :
  forall pageToken acc, keeps (listPages fuel calendar pageToken acc).
Proof.
  induction fuel as [|fuel IH]; intros pageToken acc; [apply keeps_ret|].
  cbn [listPages]. apply keeps_bind; [apply keeps_call; reflexivity|].
  intros response. destruct (nextPageToken response); [apply IH|apply keeps_ret].
Qed.

Lemma keeps_upsert (calendar : string) (m : EventMap) (e : EpitechEvent)
  (r : SyncResultDetails) (env : Env) :
  faults (snd (upsert calendar m e r env)) = faults env.
Proof.
  unfold upsert. destruct (toGoogleEvent e) as [body|msg]; [|reflexivity].
  destruct (mapGet (id e) m) as [ex|].
  - assert (H : keeps (updateRequest calendar (g_id ex) body)).
    { apply keeps_call. intros env0. destruct (existsb _ _); reflexivity. }
    specialize (H env).
    destruct (updateRequest calendar (g_id ex) body env) as [[u|msg] env']; exact H.
  - assert (H : keeps (insertRequest calendar body)) by (apply keeps_call; reflexivity).
    specialize (H env).
    destruct (insertRequest calendar body env) as [[u|msg] env']; exact H.
Qed.

Lemma keeps_upsertAll (calendar : string) (m : EventMap) (events : list EpitechEvent) :
  forall r env, faults (snd (upsertAll calendar m events r env)) = faults env.
Proof.
  induction events as [|e events IH]; intros r env; [reflexivity|].
  cbn [upsertAll]. pose proof (keeps_upsert calendar m e r env) as H.
  destruct (upsert calendar m e r env) as [[[u|msg] r'] env']; cbn [snd] in H.
  - rewrite IH. exact H.
  - exact H.
Qed.

Lemma keeps_deleteAll (calendar : string) (processedIds : list string) (entries : EventMap) :
  forall r env, faults (snd (deleteAll calendar processedIds entries r env)) = faults env.
Proof.
  induction entries as [|[k ex] entries IH]; intros r env; [reflexivity|].
  cbn [deleteAll]. destruct (existsb _ processedIds); [apply IH|].
  assert (H : keeps (deleteRequest calendar (g_id ex))).
  { apply keeps_call. intros env0. destruct (existsb _ _); reflexivity. }
  specialize (H env).
  destruct (deleteRequest calendar (g_id ex) env) as [[u|msg] env']; cbn [snd] in H;
    rewrite IH; exact H.
Qed.

Lemma keeps_syncToGoogleCalendar (events : list EpitechEvent) :
  keeps (syncToGoogleCalendar events).
Proof.
  apply keeps_bind; [apply keeps_getSettings|]. intros settings.
  assert (Hrun : forall calendar,
             keeps (fun env =>
                      match reconcile calendar events env with
                      | (Return _, result, env') => (Return result, env')
                      | (Throw errorMsg, result, env') =>
                          (Return (pushError errorMsg result), env')
                      end)).
  { intros calendar env. unfold reconcile, getExistingEvents.
    pose proof (keeps_listPages calendar (S (List.length (google env))) None [] env) as H1.
    destruct (listPages _ calendar None [] env) as [[m|msg] env1]; cbn [snd] in H1;
      [|exact H1].
    pose proof (keeps_upsertAll calendar m events emptyResult env1) as H2.
    destruct (upsertAll calendar m events emptyResult env1) as [[[u|msg] r] env2];
      cbn [snd] in H2.
    - pose proof (keeps_deleteAll calendar (map id events) m r env2) as H3.
      destruct (deleteAll calendar (map id events) m r env2) as [[[u'|msg] r'] env3];
        cbn [snd] in *; congruence.
    - cbn [snd]. congruence. }
  destruct (calendarId (googleCalendar settings)) as [calendar|]; [|apply keeps_throw].
  destruct (JS.truthy calendar); [apply Hrun|apply keeps_throw].
Qed.

Lemma keeps_getAccessToken : keeps OutlookCalendar.getAccessToken.
Proof.
  apply keeps_bind; [apply keeps_getSettings|]. intros settings.
  destruct (accessToken (outlookCalendar settings)) as [token|]; [|apply keeps_throw].
  destruct (JS.truthy token); [|apply keeps_throw].
  apply keeps_bind; [apply keeps_dateNow|]. intros t.
  destruct (tokenExpiry (outlookCalendar settings)) as [expiry|]; [|apply keeps_ret].
  destruct (negb (expiry =? 0) && (t >? expiry)); [apply keeps_throw|apply keeps_ret].
Qed.

Lemma keeps_graphApiRequest {A : Type} (r : GraphRequest)
  (effect : Env -> Outcome A * Env) :
  (forall env, faults (snd (effect env)) = faults env) ->
  keeps (OutlookCalendar.graphApiRequest r effect).
Proof.
  intros He. apply keeps_bind; [apply keeps_getAccessToken|]. intros _.
  apply keeps_call, He.
Qed.

Lemma keeps_outlook_listPages (calendar : string) (fuel : nat) :
  forall skip acc, keeps (OutlookCalendar.listPages fuel calendar skip acc).
Proof.
  induction fuel as [|fuel IH]; intros skip acc; [apply keeps_ret|].
  cbn [OutlookCalendar.listPages].
  apply keeps_bind; [apply keeps_graphApiRequest; reflexivity|].
  intros response. destruct (OutlookCalendar.nextLink response); [apply IH|apply keeps_ret].
Qed.

Lemma keeps_outlook_upsert (calendar : string) (m : OutlookCalendar.EventMap)
  (e : EpitechEvent) (r : SyncResultDetails) (env : Env) :
  faults (snd (OutlookCalendar.upsert calendar m e r env)) = faults env.
Proof.
  unfold OutlookCalendar.upsert.
  destruct (OutlookCalendar.toOutlookEvent e) as [body|msg]; [|reflexivity].
  destruct (OutlookCalendar.mapGet (id e) m) as [ex|].
  - assert (H : keeps (OutlookCalendar.patchRequest calendar (o_id ex) body)).
    { apply keeps_graphApiRequest. intros env0. destruct (existsb _ _); reflexivity. }
    specialize (H env).
    destruct (OutlookCalendar.patchRequest calendar (o_id ex) body env)
      as [[u|msg] env']; exact H.
  - assert (H : keeps (OutlookCalendar.createRequest calendar body))
      by (apply keeps_graphApiRequest; reflexivity).
    specialize (H env).
    destruct (OutlookCalendar.createRequest calendar body env) as [[u|msg] env']; exact H.
Qed.

Lemma keeps_outlook_upsertAll (calendar : string) (m : OutlookCalendar.EventMap)
  (events : list EpitechEvent) :
  forall r env, faults (snd (OutlookCalendar.upsertAll calendar m events r env)) = faults env.
Proof.
  induction events as [|e events IH]; intros r env; [reflexivity|].
  cbn [OutlookCalendar.upsertAll].
  pose proof (keeps_outlook_upsert calendar m e r env) as H.
  destruct (OutlookCalendar.upsert calendar m e r env) as [[[u|msg] r'] env'];
    cbn [snd] in H.
  - rewrite IH. exact H.
  - exact H.
Qed.

Lemma keeps_outlook_deleteAll (calendar : string) (processedIds : list string)
  (entries : OutlookCalendar.EventMap) :
  forall r env,
    faults (snd (OutlookCalendar.deleteAll calendar processedIds entries r env))
    = faults env.
Proof.
  induction entries as [|[k ex] entries IH]; intros r env; [reflexivity|].
  cbn [OutlookCalendar.deleteAll]. destruct (existsb _ processedIds); [apply IH|].
  assert (H : keeps (OutlookCalendar.deleteRequest calendar (o_id ex))).
  { apply keeps_graphApiRequest. intros env0. destruct (existsb _ _); reflexivity. }
  specialize (H env).
  destruct (OutlookCalendar.deleteRequest calendar (o_id ex) env) as [[u|msg] env'];
    cbn [snd] in H; rewrite IH; exact H.
Qed.

Lemma keeps_syncToOutlookCalendar (events : list EpitechEvent) :
  keeps (OutlookCalendar.syncToOutlookCalendar events).
Proof.
  apply keeps_bind; [apply keeps_getSettings|]. intros settings.
  assert (Hrun : forall calendar,
             keeps (fun env =>
                      match OutlookCalendar.reconcile calendar events env with
                      | (Return _, result, env') => (Return result, env')
                      | (Throw errorMsg, result, env') =>
                          (Return (pushError errorMsg result), env')
                      end)).
  { intros calendar env. unfold OutlookCalendar.reconcile, OutlookCalendar.getExistingEvents.
    pose proof (keeps_outlook_listPages calendar (S (List.length (outlook env))) O [] env)
      as H1.
    destruct (OutlookCalendar.listPages _ calendar O [] env) as [[m|msg] env1];
      cbn [snd] in H1; [|exact H1].
    pose proof (keeps_outlook_upsertAll calendar m events emptyResult env1) as H2.
    destruct (OutlookCalendar.upsertAll calendar m events emptyResult env1)
      as [[[u|msg] r] env2]; cbn [snd] in H2.
    - pose proof (keeps_outlook_deleteAll calendar (map id events) m r env2) as H3.
      destruct (OutlookCalendar.deleteAll calendar (map id events) m r env2)
        as [[[u'|msg] r'] env3]; cbn [snd] in *; congruence.
    - cbn [snd]. congruence. }
  destruct (calendarId (outlookCalendar settings)) as [calendar|]; [|apply keeps_throw].
  destruct (JS.truthy calendar); [apply Hrun|apply keeps_throw].
Qed.

(** ** The Google adapter: the listing *)

(** X17. The listing of [getExistingEvents] finds no mirrored
    entry.  The query asks for the entries whose private property
    [epitechId] is [epitech-] itself: when no list request fails, every
    key of the map returned is that value, and the id of a canonical
    event, which goes on after [epitech-], is no key of it, whatever the
    calendar holds and however many pages the listing takes.  The listing
    changes no entry. *)
Theorem getExistingEvents_lists_no_mirrored_entry (calendar : string) (env : Env) :
  (forall t, faults env (Google (GList calendar t)) = None) ->
  exists m env',
    getExistingEvents calendar env = (Return m, env')
    /\ (forall k, In k (map fst m) -> k = "epitech-")
    /\ (forall i, canonicalId i = true -> mapGet i m = None)
    /\ google env' = google env.
Proof.
  intros Hlist.
  destruct (getExistingEvents_ok calendar env Hlist) as [calls [Hrun _]].
  eexists. eexists. split; [exact Hrun|]. split; [|split].
  - intros k. apply listed_keys.
  - intros i. apply canonical_not_listed.
  - apply (logCalls_frame calls env).
Qed.

(** ** The Google adapter: a pass after a pass *)

(** X28. What a pass writes, the next pass does not find.  From a calendar
    in which the listing finds nothing, a pass over a canonical list in
    which no request fails creates every event, and a second pass over the
    same list creates every event again: it updates nothing and deletes
    nothing, and every event is then mirrored twice more than before. *)
Theorem syncToGoogleCalendar_creates_every_event_again
  (calendar : string) (events : list EpitechEvent) (env : Env) :
  Ready calendar env ->
  (forall r, faults env (Google r) = None) ->
  Canonical events ->
  filter matchesQuery (google env) = [] ->
  exists r1 env1 r2 env2,
    syncToGoogleCalendar events env = (Return r1, env1)
    /\ created r1 = List.length events /\ errors r1 = []
    /\ syncToGoogleCalendar events env1 = (Return r2, env2)
    /\ created r2 = List.length events /\ updated r2 = 0%nat /\ deleted r2 = 0%nat
    /\ errors r2 = []
    /\ mirroredIds (google env2)
       = (mirroredIds (google env) ++ map id events ++ map id events)%list.
Proof.
  intros Hready Hnofault Hcanon Hnone.
  assert (Hall : forall l : list EpitechEvent,
             filter (fun e => negb ((fun _ : string => false) (id e))) l = l
             /\ filter (fun e => (fun _ : string => false) (id e)) l = []).
  { intros l. split; [apply filter_all|apply filter_none]; intros; reflexivity. }
  destruct (Hall events) as [Hkeep Hdrop].
  destruct (pass_of_new_events (fun _ => false) EmptyString calendar events env
              Hready (no_fault_no_write_fails env Hnofault) Hcanon Hnone)
    as [r1 [env1 [calls1 [Hrun1 [Hc1 [_ [_ [He1 [Hm1 [Hq1 [_ [_ [_ [_ [Hready1 Hsame]]]]]]]]]]]]]]].
  assert (Hnofault1 : forall r, faults env1 (Google r) = None).
  { intros r. destruct Hsame as [Hf _]. rewrite Hf. apply Hnofault. }
  destruct (pass_of_new_events (fun _ => false) EmptyString calendar events env1
              Hready1 (no_fault_no_write_fails env1 Hnofault1) Hcanon Hq1)
    as [r2 [env2 [calls2 [Hrun2 [Hc2 [Hu2 [Hd2 [He2 [Hm2 _]]]]]]]]].
  rewrite Hkeep in *. rewrite Hdrop in *.
  exists r1, env1, r2, env2.
  split; [exact Hrun1|]. split; [exact Hc1|]. split; [exact He1|].
  split; [exact Hrun2|]. split; [exact Hc2|]. split; [exact Hu2|]. split; [exact Hd2|].
  split; [exact He2|]. rewrite Hm2, Hm1, <- app_assoc. reflexivity.
Qed.

(** ** The Google adapter: deletions *)

Lemma upsert_deleted (calendar : string) (m : EventMap) (e : EpitechEvent)
  (r : SyncResultDetails) (env : Env) :
  deleted (snd (fst (upsert calendar m e r env))) = deleted r.
Proof.
  unfold upsert. destruct (toGoogleEvent e) as [body|msg]; [|reflexivity].
  destruct (mapGet (id e) m) as [ex|].
  - destruct (updateRequest calendar (g_id ex) body env) as [[u|msg] env']; reflexivity.
  - destruct (insertRequest calendar body env) as [[u|msg] env']; reflexivity.
Qed.

Lemma upsertAll_deleted (calendar : string) (m : EventMap) (events : list EpitechEvent) :
  forall (r : SyncResultDetails) (env : Env),
    deleted (snd (fst (upsertAll calendar m events r env))) = deleted r.
Proof.
  induction events as [|e events IH]; intros r env; [reflexivity|].
  cbn [upsertAll]. pose proof (upsert_deleted calendar m e r env) as H.
  destruct (upsert calendar m e r env) as [[[u|msg] r'] env']; cbn [fst snd] in H.
  - rewrite IH. exact H.
  - exact H.
Qed.

Lemma reconcile_deleted (calendar : string) (events : list EpitechEvent) (env : Env) :
  deleted (snd (fst (reconcile calendar events env))) = 0%nat.
Proof.
  unfold reconcile.
  destruct (getExistingEvents calendar env) as [[m|msg] env1]; [|reflexivity].
  pose proof (upsertAll_deleted calendar m events emptyResult env1) as H.
  destruct (upsertAll calendar m events emptyResult env1) as [[[u|msg] r] env2];
    cbn [fst snd] in H; [|exact H].
  destruct (deleteAll_counts_nothing calendar (map id events) m r env2)
    as [r' [env' [-> [_ [_ Hd]]]]].
  cbn [fst snd]. rewrite Hd. exact H.
Qed.

(** X29. A pass reports no deletion.  [googleApiRequest] parses the body
    of every reply it accepts, and the reply to a delete has none: the
    entry is removed from the calendar, the call is rejected, and the pass
    records an error in place of the deletion.  Whatever the events and
    the calendar, the count of deletions a pass returns is zero. *)
Theorem syncToGoogleCalendar_reports_no_deletion
  (events : list EpitechEvent) (env : Env) (r : SyncResultDetails) :
  fst (syncToGoogleCalendar events env) = Return r -> deleted r = 0%nat.
Proof.
  unfold syncToGoogleCalendar, bind.
  destruct (getSettings env) as [[settings|msg] env0]; [|discriminate].
  destruct (calendarId (googleCalendar settings)) as [calendar|]; [|discriminate].
  destruct (JS.truthy calendar); [|discriminate].
  pose proof (reconcile_deleted calendar events env0) as H.
  destruct (reconcile calendar events env0) as [[[u|msg] r'] env']; cbn [fst snd] in *;
    intros E; injection E as <-; exact H.
Qed.

End Frames.

Lemma getExistingEvents_lists_no_mirrored_entry_witness :
  let env := Samples.world Samples.noFault in
  (forall t, faults env (Google (GList "cal-1" t)) = None)
  /\ mirroredIds (google env) = [Samples.idA; Samples.idB; Samples.idC]
  /\ exists m env',
       getExistingEvents "cal-1" env = (Return m, env')
       /\ (forall k, In k (map fst m) -> k = "epitech-")
       /\ (forall i, canonicalId i = true -> mapGet i m = None)
       /\ google env' = google env.
Proof.
  assert (Hlist : forall t, faults (Samples.world Samples.noFault)
                              (Google (GList "cal-1" t)) = None)
    by (intros t; reflexivity).
  split; [exact Hlist|]. split; [reflexivity|].
  apply (getExistingEvents_lists_no_mirrored_entry "cal-1"
           (Samples.world Samples.noFault) Hlist).
Defined.

Lemma syncToGoogleCalendar_creates_every_event_again_witness :
  let env := Samples.world Samples.noFault in
  Ready "cal-1" env
  /\ (forall r, faults env (Google r) = None)
  /\ Canonical Samples.canonicalBCD
  /\ filter matchesQuery (google env) = []
  /\ exists r1 env1 r2 env2,
       syncToGoogleCalendar Samples.canonicalBCD env = (Return r1, env1)
       /\ created r1 = 3%nat /\ errors r1 = []
       /\ syncToGoogleCalendar Samples.canonicalBCD env1 = (Return r2, env2)
       /\ created r2 = 3%nat /\ updated r2 = 0%nat /\ deleted r2 = 0%nat
       /\ errors r2 = []
       /\ mirroredIds (google env2)
          = (mirroredIds (google env) ++ map id Samples.canonicalBCD
             ++ map id Samples.canonicalBCD)%list.
Proof.
  split; [exact (world_ready Samples.noFault eq_refl)|].
  split; [intros r; reflexivity|].
  split; [exact canonicalBCD_canonical|]. split; [reflexivity|].
  apply (syncToGoogleCalendar_creates_every_event_again "cal-1" Samples.canonicalBCD
           (Samples.world Samples.noFault)
           (world_ready Samples.noFault eq_refl) (fun _ => eq_refl)
           canonicalBCD_canonical eq_refl).
Defined.

(** A calendar with an entry tagged with the value of the query itself:
    the pass deletes it and says it did not. *)
Lemma syncToGoogleCalendar_reports_no_deletion_witness :
  let env := Samples.withGoogle [Samples.mirrored "g9" "epitech-"]
               (Samples.world Samples.noFault) in
  fst (syncToGoogleCalendar Samples.canonicalBCD env)
  = Return {| created := 3; updated := 0; deleted := 0;
              errors := ["Delete epitech-: Unexpected end of JSON input"] |}
  /\ existsb (GoogleCalendar.hasId "g9")
       (google (snd (syncToGoogleCalendar Samples.canonicalBCD env))) = false
  /\ deleted {| created := 3; updated := 0; deleted := 0;
                errors := ["Delete epitech-: Unexpected end of JSON input"] |} = 0%nat.
Proof.
  intros env.
  assert (Hrun : fst (syncToGoogleCalendar Samples.canonicalBCD env)
                 = Return {| created := 3; updated := 0; deleted := 0;
                             errors := ["Delete epitech-: Unexpected end of JSON input"] |})
    by (vm_compute; reflexivity).
  split; [exact Hrun|]. split; [vm_compute; reflexivity|].
  exact (syncToGoogleCalendar_reports_no_deletion Samples.canonicalBCD env _ Hrun).
Defined.

(** ** The orchestrator *)

Section Orchestrator.
Context {zone : TimeZone}.
Import SyncManager.

Lemma keepsS_await {A : Type} (m : M A) : keeps m -> keepsS (await m).
Proof.
  intros H r env. unfold await. specialize (H env).
  destruct (m env) as [o env']. exact H.
Qed.

Lemma keepsS_modify (f : SyncResult -> SyncResult) : keepsS (modify f).
Proof. intros r env. reflexivity. Qed.

Lemma keepsS_getResult : keepsS getResult.
Proof. intros r env. reflexivity. Qed.

Lemma keepsS_stepBind {A B : Type} (m : Step A) (k : A -> Step B) :
  keepsS m -> (forall a, keepsS (k a)) -> keepsS (stepBind m k).
Proof.
  intros Hm Hk r env. unfold stepBind. specialize (Hm r env).
  destruct (m r env) as [[[a|msg] r1] env1]; cbn [snd] in Hm.
  - rewrite (Hk a r1 env1). exact Hm.
  - exact Hm.
Qed.

Lemma keepsS_stepTryCatch {A : Type} (m : Step A) (handler : string -> Step A) :
  keepsS m -> (forall message, keepsS (handler message)) -> keepsS (stepTryCatch m handler).
Proof.
  intros Hm Hh r env. unfold stepTryCatch. specialize (Hm r env).
  destruct (m r env) as [[[a|msg] r1] env1]; cbn [snd] in Hm.
  - exact Hm.
  - rewrite (Hh msg r1 env1). exact Hm.
Qed.

Lemma keepsS_syncService (label failure : string)
  (sync : list EpitechEvent -> M SyncResultDetails) (events : list EpitechEvent) :
  keeps (sync events) -> keepsS (syncService label failure sync events).
Proof.
  intros Hsync. apply keepsS_stepTryCatch.
  - apply keepsS_stepBind; [apply keepsS_await, Hsync|]. intros serviceResult.
    apply keepsS_stepBind; [apply keepsS_modify|]. intros _.
    destruct (_ <? _)%nat; apply keepsS_modify.
  - intros message. apply keepsS_modify.
Qed.

Lemma keepsS_tryBlock (manual : bool) : keepsS (tryBlock manual).
Proof.
  unfold tryBlock.
  apply keepsS_stepBind; [apply keepsS_await, keeps_checkAuthentication|]. intros authCheck.
  apply keepsS_stepBind.
  { destruct authCheck; [apply keepsS_modify|apply keepsS_await, keeps_throw]. }
  intros _.
  apply keepsS_stepBind; [apply keepsS_await, keeps_updateSyncStatus|]. intros _.
  apply keepsS_stepBind; [apply keepsS_await, keeps_getEventsForSync|]. intros events.
  apply keepsS_stepBind; [apply keepsS_modify|]. intros _.
  apply keepsS_stepBind; [apply keepsS_await, keeps_cacheEvents|]. intros _.
  apply keepsS_stepBind; [apply keepsS_await, keeps_getSettings|]. intros settings.
  apply keepsS_stepBind.
  { destruct (_ && _); [apply keepsS_syncService, keeps_syncToGoogleCalendar
                       |apply keepsS_modify]. }
  intros _.
  apply keepsS_stepBind.
  { destruct (_ && _); [apply keepsS_syncService, keeps_syncToOutlookCalendar
                       |apply keepsS_modify]. }
  intros _.
  apply keepsS_stepBind; [apply keepsS_await, keeps_markSyncCompleted|]. intros _.
  apply keepsS_stepBind; [apply keepsS_modify|]. intros _.
  apply keepsS_stepBind; [apply keepsS_getResult|]. intros result.
  destruct (_ && _); [apply keepsS_await, keeps_showNotification|apply keepsS_modify].
Qed.

Lemma getSyncStatus_returns (env : Env) :
  hostReliable env -> exists s, fst (getSyncStatus env) = Return s.
Proof.
  intros [Hget _]. unfold getSyncStatus. rewrite call_cases, Hget.
  cbn [logCall stored_status]. destruct (stored_status env); eexists; reflexivity.
Qed.

Lemma updateSyncStatus_returns (p : SyncStatusPatch) (env : Env) :
  hostReliable env -> fst (updateSyncStatus p env) = Return tt.
Proof.
  intros Hrel. unfold updateSyncStatus, bind.
  destruct (getSyncStatus_returns env Hrel) as [s Hs].
  pose proof (keeps_getSyncStatus env) as Hf.
  destruct (getSyncStatus env) as [o env1]. cbn [fst snd] in Hs, Hf. subst o.
  rewrite call_cases, Hf. destruct Hrel as [_ [Hset _]]. rewrite Hset. reflexivity.
Qed.

Lemma getSettings_returns (env : Env) :
  hostReliable env -> exists s, fst (getSettings env) = Return s.
Proof.
  intros [Hget _]. rewrite (getSettings_ok env (Hget _)). eexists. reflexivity.
Qed.

Lemma notificationsCreate_returns (title message : string) (env : Env) :
  hostReliable env -> fst (notificationsCreate title message env) = Return tt.
Proof.
  intros [_ [_ Hn]]. unfold notificationsCreate. rewrite call_cases, Hn. reflexivity.
Qed.

Lemma hostReliable_frame (env env' : Env) :
  faults env' = faults env -> hostReliable env -> hostReliable env'.
Proof. intros H. unfold hostReliable. rewrite H. tauto. Qed.

(** The [catch] block under a reliable host: it returns, with the error
    added to the result. *)
Lemma catchBlock_returns (errorMsg : string) (r : SyncResult) (env : Env) :
  hostReliable env ->
  exists env',
    catchBlock errorMsg r env = (Return tt, pushErrors [errorMsg] (setSuccess false r), env')
    /\ faults env' = faults env.
Proof.
  intros Hrel. unfold catchBlock, stepBind, modify, await.
  pose proof (updateSyncStatus_returns
                {| set_isConnected := None; set_isSyncing := None;
                   set_lastSync := None; set_lastError := Some (Some errorMsg) |}
                env Hrel) as Hu.
  pose proof (keeps_updateSyncStatus
                {| set_isConnected := None; set_isSyncing := None;
                   set_lastSync := None; set_lastError := Some (Some errorMsg) |} env) as Hf1.
  destruct (updateSyncStatus _ env) as [o1 env1]. cbn [fst snd] in Hu, Hf1. subst o1.
  assert (Hrel1 : hostReliable env1) by (apply (hostReliable_frame env); assumption).
  destruct (getSettings_returns env1 Hrel1) as [settings Hs].
  pose proof (keeps_getSettings env1) as Hf2.
  destruct (getSettings env1) as [o2 env2]. cbn [fst snd] in Hs, Hf2. subst o2.
  assert (Hrel2 : hostReliable env2) by (apply (hostReliable_frame env1); assumption).
  destruct (notificationsEnabled settings).
  - pose proof (notificationsCreate_returns "Epitech Calendar Sync - Error" errorMsg
                  env2 Hrel2) as Hn.
    pose proof (keeps_notificationsCreate "Epitech Calendar Sync - Error" errorMsg env2)
      as Hf3.
    destruct (notificationsCreate _ errorMsg env2) as [o3 env3].
    cbn [fst snd] in Hn, Hf3. subst o3.
    exists env3. split; [reflexivity|congruence].
  - exists env2. split; [reflexivity|congruence].
Qed.

Lemma post_stepBind {A B : Type} (m : Step A) (k : A -> Step B) (Q : SyncResult -> Prop) :
  (forall a, post (k a) Q) -> post (stepBind m k) Q.
Proof.
  intros Hk r env b r' env' H. unfold stepBind in H.
  destruct (m r env) as [[[a|msg] r1] env1]; [|discriminate].
  exact (Hk a r1 env1 b r' env' H).
Qed.

Lemma post_last {A : Type} (f : SyncResult -> SyncResult) (k : unit -> Step A)
  (Q : SyncResult -> Prop) :
  (forall u, keepsResult (k u)) -> (forall r, Q (f r)) -> post (stepBind (modify f) k) Q.
Proof.
  intros Hk HQ r env a r' env' H. unfold stepBind, modify in H.
  specialize (Hk tt (f r) env). rewrite H in Hk. cbn [fst snd] in Hk. subst r'. apply HQ.
Qed.

Lemma tryBlock_success (manual : bool) :
  post (tryBlock manual) (fun r => success r = isEmpty (errors r)).
Proof.
  unfold tryBlock.
  do 10 (apply post_stepBind; intros ?).
  apply post_last; [|reflexivity].
  intros _ r env. unfold stepBind, getResult.
  destruct (_ && _).
  - unfold await. destruct (showNotification r env) as [o env']. reflexivity.
  - reflexivity.
Qed.

(** X14. On a host whose storage and notifications do
    not fail, [performSync] never throws: whatever the intranet and the
    calendars answer, and whatever the guard, it returns a result, and the
    result says [success] exactly when its list of errors is empty. *)
Theorem performSync_never_throws (manual : bool) (st : State) :
  hostReliable (env st) ->
  exists r st',
    performSync manual st = (Return r, st')
    /\ success r = isEmpty (errors r).
Proof.
  intros Hrel. unfold performSync.
  destruct (isSyncing st).
  { eexists. eexists. split; reflexivity. }
  pose proof (updateSyncStatus_returns markSyncing (env st) Hrel) as Hu.
  pose proof (keeps_updateSyncStatus markSyncing (env st)) as Hf1.
  destruct (updateSyncStatus markSyncing (env st)) as [o1 env1].
  cbn [fst snd] in Hu, Hf1. subst o1.
  assert (Hrel1 : hostReliable env1) by (apply (hostReliable_frame (env st)); assumption).
  assert (Hbody : exists result env2,
             stepTryCatch (tryBlock manual) catchBlock (freshResult (now env1)) env1
             = (Return tt, result, env2)
             /\ success result = isEmpty (errors result)
             /\ hostReliable env2).
  { unfold stepTryCatch.
    pose proof (tryBlock_success manual (freshResult (now env1)) env1) as Hpost.
    pose proof (keepsS_tryBlock manual (freshResult (now env1)) env1) as Hf2.
    destruct (tryBlock manual (freshResult (now env1)) env1) as [[[u|msg] r1] env2];
      cbn [snd] in Hf2.
    - destruct u. exists r1, env2. split; [reflexivity|]. split.
      + exact (Hpost tt r1 env2 eq_refl).
      + apply (hostReliable_frame env1); assumption.
    - assert (Hrel2 : hostReliable env2) by (apply (hostReliable_frame env1); assumption).
      destruct (catchBlock_returns msg r1 env2 Hrel2) as [env3 [-> Hf3]].
      eexists. exists env3. split; [reflexivity|]. split.
      + cbn [success errors pushErrors setSuccess]. destruct (errors r1); reflexivity.
      + apply (hostReliable_frame env2); assumption. }
  destruct Hbody as [result [env2 [-> [Hsucc Hrel2]]]].
  pose proof (updateSyncStatus_returns markIdle env2 Hrel2) as Hu2.
  destruct (updateSyncStatus markIdle env2) as [o3 env3]. cbn [fst] in Hu2. subst o3.
  eexists. eexists. split; [reflexivity|exact Hsucc].
Qed.

Lemma updateSyncStatus_ok (p : SyncStatusPatch) (env : Env) :
  hostReliable env -> updateSyncStatus p env = (Return tt, afterStatus p env).
Proof.
  intros [Hget [Hset _]]. unfold updateSyncStatus, bind, getSyncStatus.
  rewrite call_cases, Hget. cbn [logCall stored_status].
  unfold afterStatus, currentStatus.
  destruct (stored_status env); rewrite call_cases; cbn [faults logCall];
    rewrite Hset; reflexivity.
Qed.

Lemma notificationsCreate_ok (title message : string) (env : Env) :
  hostReliable env ->
  notificationsCreate title message env
  = (Return tt, addNotification title message (logCall (NotificationsCreate title message) env)).
Proof.
  intros [_ [_ Hn]]. unfold notificationsCreate. rewrite call_cases, Hn. reflexivity.
Qed.

Lemma hostReliable_afterStatus (p : SyncStatusPatch) (env : Env) :
  hostReliable env -> hostReliable (afterStatus p env).
Proof. apply hostReliable_frame. reflexivity. Qed.

Lemma hostReliable_logCall (c : Call) (env : Env) :
  hostReliable env -> hostReliable (logCall c env).
Proof. apply hostReliable_frame. reflexivity. Qed.

Lemma catchBlock_ok (errorMsg : string) (r : SyncResult) (env : Env) :
  hostReliable env ->
  catchBlock errorMsg r env
  = (Return tt, pushErrors [errorMsg] (setSuccess false r), afterCatch errorMsg env).
Proof.
  intros Hrel. unfold catchBlock, stepBind, modify, await.
  change {| set_isConnected := None; set_isSyncing := None;
            set_lastSync := None; set_lastError := Some (Some errorMsg) |}
    with (lastErrorIs errorMsg).
  rewrite (updateSyncStatus_ok _ env Hrel).
  pose proof (hostReliable_afterStatus (lastErrorIs errorMsg) env Hrel) as Hrel1.
  rewrite (getSettings_ok _ (proj1 Hrel1 SETTINGS_KEY)).
  unfold afterCatch, storedSettings.
  change (stored_settings (afterStatus (lastErrorIs errorMsg) env))
    with (stored_settings env).
  destruct (notificationsEnabled _).
  - rewrite notificationsCreate_ok by (apply hostReliable_logCall, Hrel1). reflexivity.
  - reflexivity.
Qed.

Lemma checkAuthentication_false (env : Env) :
  authenticated env = false \/ faults env FetchUser <> None ->
  EpitechFetch.checkAuthentication env = (Return false, logCall FetchUser env).
Proof.
  intros H. unfold EpitechFetch.checkAuthentication, tryCatch. rewrite call_cases.
  destruct (faults env FetchUser); [reflexivity|].
  destruct H as [H|H]; [|contradiction].
  cbn [authenticated logCall]. rewrite H. reflexivity.
Qed.

Lemma checkAuthentication_true (env : Env) :
  authenticated env = true -> faults env FetchUser = None ->
  EpitechFetch.checkAuthentication env = (Return true, logCall FetchUser env).
Proof.
  intros H Hf. unfold EpitechFetch.checkAuthentication, tryCatch. rewrite call_cases, Hf.
  cbn [authenticated logCall]. rewrite H. reflexivity.
Qed.

Lemma tryBlock_not_authenticated (manual : bool) (r : SyncResult) (env : Env) :
  authenticated env = false \/ faults env FetchUser <> None ->
  tryBlock manual r env = (Throw notAuthenticated, r, logCall FetchUser env).
Proof.
  intros H. unfold tryBlock. unfold stepBind at 1. unfold await at 1.
  rewrite (checkAuthentication_false env H). reflexivity.
Qed.

(** X15. A pass started while the intranet session
    is not logged in, or while the request that checks the session fails,
    ends at the check: the result
    is a failure with the one error that asks to log in and all counts
    zero; the stored status carries that error and is no longer syncing;
    neither calendar nor the cache changes; the calls made are the
    status writes, the check, the read of the settings and, when
    notifications are enabled, the error notification: no planning
    request and no calendar request. *)
Theorem performSync_not_authenticated (manual : bool) (st : State) :
  isSyncing st = false ->
  hostReliable (env st) ->
  authenticated (env st) = false \/ faults (env st) FetchUser <> None ->
  exists r st',
    performSync manual st = (Return r, st')
    /\ r = {| success := false; timestamp := now (env st);
              eventsProcessed := 0; eventsCreated := 0;
              eventsUpdated := 0; eventsDeleted := 0;
              errors := [notAuthenticated]; details := [] |}
    /\ isSyncing st' = false
    /\ option_map lastError (stored_status (env st')) = Some (Some notAuthenticated)
    /\ option_map status_isSyncing (stored_status (env st')) = Some false
    /\ google (env st') = google (env st)
    /\ outlook (env st') = outlook (env st)
    /\ stored_events (env st') = stored_events (env st)
    /\ trace (env st')
       = (trace (env st)
            ++ [StorageGet SYNC_STATUS_KEY; StorageSet SYNC_STATUS_KEY; FetchUser;
                StorageGet SYNC_STATUS_KEY; StorageSet SYNC_STATUS_KEY;
                StorageGet SETTINGS_KEY]
            ++ (if notificationsEnabled (storedSettings (env st))
                then [NotificationsCreate errorTitle notAuthenticated] else [])
            ++ [StorageGet SYNC_STATUS_KEY; StorageSet SYNC_STATUS_KEY])%list.
Proof.
  intros Hidle Hrel Hauth. unfold performSync. rewrite Hidle.
  rewrite (updateSyncStatus_ok markSyncing (env st) Hrel).
  pose proof (hostReliable_afterStatus markSyncing (env st) Hrel) as Hrel1.
  unfold stepTryCatch.
  rewrite (tryBlock_not_authenticated manual _ (afterStatus markSyncing (env st)) Hauth).
  rewrite catchBlock_ok by (apply hostReliable_logCall, Hrel1).
  rewrite updateSyncStatus_ok.
  2:{ unfold afterCatch. destruct (notificationsEnabled _);
      (eapply hostReliable_frame; [|exact Hrel]); reflexivity. }
  eexists. eexists. split; [reflexivity|].
  unfold afterCatch, storedSettings.
  change (stored_settings (logCall FetchUser (afterStatus markSyncing (env st))))
    with (stored_settings (env st)).
  destruct (notificationsEnabled _);
    cbn; rewrite <- ?app_assoc; repeat split; reflexivity.
Qed.

Lemma stepBind_await_return {A B : Type} (m : M A) (k : A -> Step B)
  (r : SyncResult) (env env' : Env) (a : A) :
  m env = (Return a, env') -> stepBind (await m) k r env = k a r env'.
Proof. intros H. unfold stepBind, await. rewrite H. reflexivity. Qed.

Lemma stepBind_await_throw {A B : Type} (m : M A) (k : A -> Step B)
  (r : SyncResult) (env env' : Env) (message : string) :
  m env = (Throw message, env') -> stepBind (await m) k r env = (Throw message, r, env').
Proof. intros H. unfold stepBind, await. rewrite H. reflexivity. Qed.

Lemma stepBind_modify {B : Type} (f : SyncResult -> SyncResult) (k : unit -> Step B)
  (r : SyncResult) (env : Env) :
  stepBind (modify f) k r env = k tt (f r) env.
Proof. reflexivity. Qed.

Lemma serializeEvent_outcome (e : EpitechEvent) :
  if validDates e
  then exists s, serializeEvent e = Return s
  else serializeEvent e = Throw invalidTime.
Proof.
  unfold validDates, serializeEvent.
  destruct (startDate e) as [s|]; [|reflexivity].
  destruct (endDate e) as [t|]; [|reflexivity].
  eexists. reflexivity.
Qed.

Lemma serializeAll_outcome (events : list EpitechEvent) :
  if forallb validDates events
  then exists l, mapO serializeEvent events = Return l
  else mapO serializeEvent events = Throw invalidTime.
Proof.
  induction events as [|e events IH]; [eexists; reflexivity|].
  cbn [forallb mapO]. pose proof (serializeEvent_outcome e) as He.
  destruct (validDates e).
  - destruct He as [s ->]. cbn [bindO andb].
    destruct (forallb validDates events).
    + destruct IH as [l ->]. eexists. reflexivity.
    + rewrite IH. reflexivity.
  - rewrite He. reflexivity.
Qed.

Lemma cacheEvents_invalid (events : list EpitechEvent) (env : Env) :
  forallb validDates events = false ->
  cacheEvents events env = (Throw invalidTime, env).
Proof.
  intros H. unfold cacheEvents, bind, lift.
  pose proof (serializeAll_outcome events) as Hs. rewrite H in Hs. rewrite Hs.
  reflexivity.
Qed.

Lemma tryBlock_invalid_date (manual : bool) (r : SyncResult) (env : Env)
  (events : list EpitechEvent) :
  hostReliable env ->
  authenticated env = true ->
  faults env FetchUser = None ->
  faults env FetchPlanning = None ->
  normalized env = Return events ->
  forallb validDates events = false ->
  tryBlock manual r env
  = (Throw invalidTime, setProcessed (List.length events) r,
     logCall FetchPlanning
       (logCall (StorageGet SETTINGS_KEY)
          (afterStatus nowConnected (logCall FetchUser env)))).
Proof.
  intros Hrel Hauth Huser Hplan Hnorm Hbad. unfold tryBlock.
  erewrite stepBind_await_return by (apply checkAuthentication_true; assumption).
  cbv beta iota. rewrite stepBind_modify.
  change {| set_isConnected := Some true; set_isSyncing := None;
            set_lastSync := None; set_lastError := None |} with nowConnected.
  erewrite stepBind_await_return
    by (apply updateSyncStatus_ok, hostReliable_logCall, Hrel).
  erewrite stepBind_await_return.
  2:{ rewrite getEventsForSync_run.
      - unfold normalized in Hnorm. cbn [planning afterStatus setStatus logCall].
        change (storedSettings (afterStatus nowConnected (logCall FetchUser env)))
          with (storedSettings env).
        rewrite Hnorm. reflexivity.
      - apply (proj1 Hrel).
      - exact Hplan. }
  rewrite stepBind_modify.
  erewrite stepBind_await_throw by (apply cacheEvents_invalid, Hbad).
  reflexivity.
Qed.

(** X16. One event with an invalid date fails the whole
    pass before any calendar is contacted: [cacheEvents] throws on it, so
    the result is a failure with the error of [toISOString], the number
    of events fetched and no event created, updated or deleted; the cache
    is not written, the calendars are not changed, and no request is sent
    to them. *)
Theorem performSync_stops_on_an_invalid_date
  (manual : bool) (st : State) (events : list EpitechEvent) :
  isSyncing st = false ->
  hostReliable (env st) ->
  authenticated (env st) = true ->
  faults (env st) FetchUser = None ->
  faults (env st) FetchPlanning = None ->
  normalized (env st) = Return events ->
  forallb validDates events = false ->
  exists r st',
    performSync manual st = (Return r, st')
    /\ r = {| success := false; timestamp := now (env st);
              eventsProcessed := List.length events; eventsCreated := 0;
              eventsUpdated := 0; eventsDeleted := 0;
              errors := [invalidTime]; details := [] |}
    /\ google (env st') = google (env st)
    /\ outlook (env st') = outlook (env st)
    /\ stored_events (env st') = stored_events (env st)
    /\ trace (env st')
       = (trace (env st)
            ++ [StorageGet SYNC_STATUS_KEY; StorageSet SYNC_STATUS_KEY; FetchUser;
                StorageGet SYNC_STATUS_KEY; StorageSet SYNC_STATUS_KEY;
                StorageGet SETTINGS_KEY; FetchPlanning;
                StorageGet SYNC_STATUS_KEY; StorageSet SYNC_STATUS_KEY;
                StorageGet SETTINGS_KEY]
            ++ (if notificationsEnabled (storedSettings (env st))
                then [NotificationsCreate errorTitle invalidTime] else [])
            ++ [StorageGet SYNC_STATUS_KEY; StorageSet SYNC_STATUS_KEY])%list.
Proof.
  intros Hidle Hrel Hauth Huser Hplan Hnorm Hbad. unfold performSync. rewrite Hidle.
  rewrite (updateSyncStatus_ok markSyncing (env st) Hrel).
  pose proof (hostReliable_afterStatus markSyncing (env st) Hrel) as Hrel1.
  unfold stepTryCatch.
  rewrite (tryBlock_invalid_date manual _ (afterStatus markSyncing (env st)) events
             Hrel1 Hauth Huser Hplan Hnorm Hbad).
  rewrite catchBlock_ok by (eapply hostReliable_frame; [|exact Hrel]; reflexivity).
  rewrite updateSyncStatus_ok.
  2:{ unfold afterCatch. destruct (notificationsEnabled _);
      (eapply hostReliable_frame; [|exact Hrel]); reflexivity. }
  eexists. eexists. split; [reflexivity|].
  unfold afterCatch, storedSettings.
  match goal with
  | |- context [notificationsEnabled ?s] =>
      change s with (match stored_settings (env st) with
                     | Some stored => stored
                     | None => DEFAULT_SETTINGS
                     end)
  end.
  destruct (notificationsEnabled _);
    cbn; rewrite <- ?app_assoc; repeat split; reflexivity.
Qed.

End Orchestrator.

Section OrchestratorExamples.
Import SyncManager.

Lemma performSync_never_throws_witness :
  let st := {| isSyncing := false; env := Samples.world Samples.updateOfG2Fails |} in
  hostReliable (env st)
  /\ exists r st',
       performSync true st = (Return r, st')
       /\ success r = isEmpty (errors r).
Proof.
  assert (Hrel : hostReliable (Samples.world Samples.updateOfG2Fails))
    by (repeat split; intros; reflexivity).
  split; [exact Hrel|].
  apply (performSync_never_throws true
           {| isSyncing := false; env := Samples.world Samples.updateOfG2Fails |} Hrel).
Defined.

Lemma performSync_not_authenticated_witness :
  let st := {| isSyncing := false; env := Samples.world Samples.userRequestFails |} in
  isSyncing st = false
  /\ hostReliable (env st)
  /\ authenticated (env st) = true
  /\ (authenticated (env st) = false \/ faults (env st) FetchUser <> None)
  /\ exists r st',
       performSync true st = (Return r, st')
       /\ r = {| success := false; timestamp := now (env st);
                 eventsProcessed := 0; eventsCreated := 0;
                 eventsUpdated := 0; eventsDeleted := 0;
                 errors := [notAuthenticated]; details := [] |}
       /\ isSyncing st' = false
       /\ option_map lastError (stored_status (env st')) = Some (Some notAuthenticated)
       /\ option_map status_isSyncing (stored_status (env st')) = Some false
       /\ google (env st') = google (env st)
       /\ outlook (env st') = outlook (env st)
       /\ stored_events (env st') = stored_events (env st)
       /\ trace (env st')
          = (trace (env st)
               ++ [StorageGet SYNC_STATUS_KEY; StorageSet SYNC_STATUS_KEY; FetchUser;
                   StorageGet SYNC_STATUS_KEY; StorageSet SYNC_STATUS_KEY;
                   StorageGet SETTINGS_KEY]
               ++ (if notificationsEnabled (storedSettings (env st))
                   then [NotificationsCreate errorTitle notAuthenticated] else [])
               ++ [StorageGet SYNC_STATUS_KEY; StorageSet SYNC_STATUS_KEY])%list.
Proof.
  assert (Hrel : hostReliable (Samples.world Samples.userRequestFails))
    by (repeat split; intros; reflexivity).
  assert (Hfails : authenticated (Samples.world Samples.userRequestFails) = false
                   \/ faults (Samples.world Samples.userRequestFails) FetchUser <> None)
    by (right; discriminate).
  split; [reflexivity|]. split; [exact Hrel|]. split; [reflexivity|].
  split; [exact Hfails|].
  apply (performSync_not_authenticated (zone := Samples.cet) true
           {| isSyncing := false; env := Samples.world Samples.userRequestFails |}
           eq_refl Hrel Hfails).
Defined.

Lemma performSync_stops_on_an_invalid_date_witness :
  let st := {| isSyncing := false;
               env := Samples.withPlanning [Samples.rdvReserved; Samples.lectureUndated]
                        (Samples.world Samples.noFault) |} in
  let events := match normalized (env st) with Return l => l | Throw _ => [] end in
  isSyncing st = false
  /\ hostReliable (env st)
  /\ authenticated (env st) = true
  /\ faults (env st) FetchUser = None
  /\ faults (env st) FetchPlanning = None
  /\ normalized (env st) = Return events
  /\ forallb validDates events = false
  /\ exists r st',
       performSync true st = (Return r, st')
       /\ r = {| success := false; timestamp := now (env st);
                 eventsProcessed := List.length events; eventsCreated := 0;
                 eventsUpdated := 0; eventsDeleted := 0;
                 errors := [invalidTime]; details := [] |}
       /\ google (env st') = google (env st)
       /\ outlook (env st') = outlook (env st)
       /\ stored_events (env st') = stored_events (env st)
       /\ trace (env st')
          = (trace (env st)
               ++ [StorageGet SYNC_STATUS_KEY; StorageSet SYNC_STATUS_KEY; FetchUser;
                   StorageGet SYNC_STATUS_KEY; StorageSet SYNC_STATUS_KEY;
                   StorageGet SETTINGS_KEY; FetchPlanning;
                   StorageGet SYNC_STATUS_KEY; StorageSet SYNC_STATUS_KEY;
                   StorageGet SETTINGS_KEY]
               ++ (if notificationsEnabled (storedSettings (env st))
                   then [NotificationsCreate errorTitle invalidTime] else [])
               ++ [StorageGet SYNC_STATUS_KEY; StorageSet SYNC_STATUS_KEY])%list.
Proof.
  assert (Hrel : hostReliable
                   (Samples.withPlanning [Samples.rdvReserved; Samples.lectureUndated]
                      (Samples.world Samples.noFault)))
    by (repeat split; intros; reflexivity).
  split; [reflexivity|]. split; [exact Hrel|]. split; [reflexivity|].
  split; [reflexivity|]. split; [reflexivity|].
  assert (Hnorm : normalized
                    (Samples.withPlanning [Samples.rdvReserved; Samples.lectureUndated]
                       (Samples.world Samples.noFault))
                  = Return
                      match normalized
                              (Samples.withPlanning
                                 [Samples.rdvReserved; Samples.lectureUndated]
                                 (Samples.world Samples.noFault)) with
                      | Return l => l
                      | Throw _ => []
                      end) by (vm_compute; reflexivity).
  split; [exact Hnorm|].
  assert (Hbad : forallb validDates
                   match normalized
                           (Samples.withPlanning
                              [Samples.rdvReserved; Samples.lectureUndated]
                              (Samples.world Samples.noFault)) with
                   | Return l => l
                   | Throw _ => []
                   end = false) by (vm_compute; reflexivity).
  split; [exact Hbad|].
  apply (performSync_stops_on_an_invalid_date true
           {| isSyncing := false;
              env := Samples.withPlanning [Samples.rdvReserved; Samples.lectureUndated]
                       (Samples.world Samples.noFault) |}
           _ eq_refl Hrel eq_refl eq_refl eq_refl Hnorm Hbad).
Defined.

End OrchestratorExamples.

(** ** The daily automatic pass *)

Lemma isoDay_returns (t : Z) : isoDay t = Return (todayOf t).
Proof. unfold todayOf, isoDay, toISOString. reflexivity. Qed.

Lemma saveSettings_ok (update : ExtensionSettings -> ExtensionSettings) (env : Env) :
  hostReliable env ->
  saveSettings update env
  = (Return tt,
     setSettings (update (storedSettings env))
       (logCall (StorageSet SETTINGS_KEY) (logCall (StorageGet SETTINGS_KEY) env))).
Proof.
  intros [Hget [Hset _]]. unfold saveSettings, bind.
  rewrite (getSettings_ok env (Hget _)). rewrite call_cases. cbn [faults logCall].
  rewrite Hset. reflexivity.
Qed.

Lemma markSyncCompleted_ok (env : Env) :
  hostReliable env -> markSyncCompleted env = (Return tt, afterCompleted env).
Proof.
  intros Hrel. unfold markSyncCompleted, bind, dateNow, lift.
  rewrite isoDay_returns.
  rewrite saveSettings_ok by exact Hrel.
  rewrite updateSyncStatus_ok by (eapply hostReliable_frame; [|exact Hrel]; reflexivity).
  reflexivity.
Qed.

Lemma firstPart_before (sep : ascii) (a r1 r2 : string) :
  firstPart sep (a ++ String sep r1) = firstPart sep (a ++ String sep r2).
Proof.
  unfold firstPart. induction a as [|c a IH]; cbn [append JS.split].
  - rewrite Ascii.eqb_refl. reflexivity.
  - destruct (Ascii.eqb c sep); [reflexivity|].
    destruct (JS.split sep (a ++ String sep r1)) as [|p1 ps1] eqn:H1;
      [exfalso; exact (split_not_empty _ _ H1)|].
    destruct (JS.split sep (a ++ String sep r2)) as [|p2 ps2] eqn:H2;
      [exfalso; exact (split_not_empty _ _ H2)|].
    cbn [nth] in *. rewrite IH. reflexivity.
Qed.

Lemma toISOString_shape (t : Z) :
  exists r, toISOString (Some t) = Return (isoDatePart (Day t) ++ String "T" r).
Proof.
  unfold toISOString, isoDatePart, YearFromTime, MonthFromTime, DateFromTime. cbv zeta.
  eexists. f_equal.
  rewrite !append_associative. cbn [append]. reflexivity.
Qed.

Lemma todayOf_same_day (t1 t2 : Z) : Day t1 = Day t2 -> todayOf t1 = todayOf t2.
Proof.
  intros H. unfold todayOf, isoDay.
  destruct (toISOString_shape t1) as [r1 ->].
  destruct (toISOString_shape t2) as [r2 ->].
  cbn [bindO]. rewrite H. apply firstPart_before.
Qed.

Lemma shouldAutoSync_done_today (env : Env) (s : ExtensionSettings) :
  faults env (StorageGet SETTINGS_KEY) = None ->
  stored_settings env = Some s ->
  lastSyncDate s = Some (todayOf (now env)) ->
  frequency (autoSync s) <> every_visit ->
  shouldAutoSync env = (Return false, logCall (StorageGet SETTINGS_KEY) env).
Proof.
  intros Hget Hs Hdate Hfreq. unfold shouldAutoSync, bind.
  rewrite (getSettings_ok env Hget), Hs.
  destruct (autoSync_enabled (autoSync s)); [|reflexivity].
  cbn [negb]. destruct (frequency (autoSync s)); [contradiction| |reflexivity].
  unfold dateNow, lift. cbn [now logCall].
  rewrite isoDay_returns, Hdate, String.eqb_refl. reflexivity.
Qed.

Section AutoSync.
Context {zone : TimeZone}.
Import SyncManager.

(** X18. Once [markSyncCompleted] has run, the automatic
    pass of the same day (UTC) is skipped unless the frequency is "every
    visit": [checkAndSync] reads the settings and does nothing else,
    whether automatic synchronization is enabled or not. *)
Theorem checkAndSync_skips_after_a_sync_of_the_day (env0 : Env) (st : State) :
  hostReliable env0 ->
  frequency (autoSync (storedSettings env0)) <> every_visit ->
  stored_settings (env st) = stored_settings (snd (markSyncCompleted env0)) ->
  faults (env st) (StorageGet SETTINGS_KEY) = None ->
  Day (now (env st)) = Day (now env0) ->
  checkAndSync st
  = (Return tt, {| isSyncing := isSyncing st;
                   env := logCall (StorageGet SETTINGS_KEY) (env st) |}).
Proof.
  intros Hrel Hfreq Hsettings Hget Hday.
  rewrite (markSyncCompleted_ok env0 Hrel) in Hsettings.
  cbn [snd afterCompleted afterStatus setStatus setSettings stored_settings logCall]
    in Hsettings.
  unfold checkAndSync.
  rewrite (shouldAutoSync_done_today (env st) _ Hget Hsettings).
  - reflexivity.
  - cbn [lastSyncDate completedAt]. f_equal. apply todayOf_same_day. symmetry. exact Hday.
  - exact Hfreq.
Qed.

End AutoSync.

Section AutoSyncExamples.
Import SyncManager.

Lemma checkAndSync_skips_after_a_sync_of_the_day_witness :
  let env0 := Samples.withSettings Samples.dailySettings (Samples.world Samples.noFault) in
  let st := {| isSyncing := false; env := snd (markSyncCompleted env0) |} in
  hostReliable env0
  /\ frequency (autoSync (storedSettings env0)) <> every_visit
  /\ stored_settings (env st) = stored_settings (snd (markSyncCompleted env0))
  /\ faults (env st) (StorageGet SETTINGS_KEY) = None
  /\ Day (now (env st)) = Day (now env0)
  /\ checkAndSync st
     = (Return tt, {| isSyncing := isSyncing st;
                      env := logCall (StorageGet SETTINGS_KEY) (env st) |}).
Proof.
  assert (Hrel : hostReliable
                   (Samples.withSettings Samples.dailySettings
                      (Samples.world Samples.noFault)))
    by (repeat split; intros; reflexivity).
  assert (Hfreq : frequency
                    (autoSync
                       (storedSettings
                          (Samples.withSettings Samples.dailySettings
                             (Samples.world Samples.noFault)))) <> every_visit)
    by discriminate.
  split; [exact Hrel|]. split; [exact Hfreq|]. split; [reflexivity|].
  split; [reflexivity|]. split; [reflexivity|].
  apply (checkAndSync_skips_after_a_sync_of_the_day
           (Samples.withSettings Samples.dailySettings (Samples.world Samples.noFault))
           {| isSyncing := false;
              env := snd (markSyncCompleted
                            (Samples.withSettings Samples.dailySettings
                               (Samples.world Samples.noFault))) |}
           Hrel Hfreq eq_refl eq_refl eq_refl).
Defined.

End AutoSyncExamples.

(** ** A pass with a calendar error *)

Section Completed.
Context {zone : TimeZone}.
Import SyncManager.

Lemma cacheEvents_ok (events : list EpitechEvent) (env : Env) :
  forallb validDates events = true ->
  hostReliable env ->
  exists serialized,
    cacheEvents events env
    = (Return tt, setEvents serialized (logCall (StorageSet CACHED_EVENTS_KEY) env)).
Proof.
  intros Hvalid [_ [Hset _]]. unfold cacheEvents, bind, lift.
  pose proof (serializeAll_outcome events) as Hs. rewrite Hvalid in Hs.
  destruct Hs as [l ->]. exists l. rewrite call_cases, Hset. reflexivity.
Qed.

Lemma stepBind_return {A B : Type} (m : Step A) (k : A -> Step B)
  (r r' : SyncResult) (env env' : Env) (a : A) :
  m r env = (Return a, r', env') -> stepBind m k r env = k a r' env'.
Proof. intros H. unfold stepBind. rewrite H. reflexivity. Qed.

Lemma syncService_returns (label failure : string)
  (sync : list EpitechEvent -> M SyncResultDetails) (events : list EpitechEvent)
  (r : SyncResult) (env env' : Env) (d : SyncResultDetails) :
  sync events env = (Return d, env') ->
  syncService label failure sync events r env
  = (Return tt,
     (if (0 <? List.length (GoogleCalendar.errors d))%nat
      then pushErrors (map (fun e => label ++ e) (GoogleCalendar.errors d)) (addCounts d r)
      else addCounts d r),
     env').
Proof.
  intros H. unfold syncService, stepTryCatch, stepBind, await, modify. rewrite H.
  destruct (0 <? _)%nat; reflexivity.
Qed.

(** X19. A pass in which the Google listing
    fails is a failure, and is still marked as completed: the result
    carries the error under the label "Google: " and says no success, yet
    [markSyncCompleted] has run, so the settings hold today as the day of
    the last sync and the stored status holds the time as [lastSync] and
    no [lastError].  (With [checkAndSync_skips_after_a_sync_of_the_day]:
    the daily automatic pass does not try again that day.) *)
Theorem performSync_completes_despite_a_calendar_error
  (manual : bool) (st : State) (events : list EpitechEvent) (calendar msg : string) :
  isSyncing st = false ->
  hostReliable (env st) ->
  authenticated (env st) = true ->
  faults (env st) FetchUser = None ->
  faults (env st) FetchPlanning = None ->
  normalized (env st) = Return events ->
  forallb validDates events = true ->
  enabled (googleCalendar (storedSettings (env st)))
  && connected (googleCalendar (storedSettings (env st))) = true ->
  calendarId (googleCalendar (storedSettings (env st))) = Some calendar ->
  JS.truthy calendar = true ->
  faults (env st) (Google (GList calendar None)) = Some msg ->
  enabled (outlookCalendar (storedSettings (env st)))
  && connected (outlookCalendar (storedSettings (env st))) = false ->
  exists r st',
    performSync manual st = (Return r, st')
    /\ r = {| success := false; timestamp := now (env st);
              eventsProcessed := List.length events; eventsCreated := 0;
              eventsUpdated := 0; eventsDeleted := 0;
              errors := ["Google: " ++ msg]; details := [] |}
    /\ option_map lastSyncDate (stored_settings (env st'))
       = Some (Some (todayOf (now (env st))))
    /\ option_map lastSyncTimestamp (stored_settings (env st'))
       = Some (Some (now (env st)))
    /\ option_map lastSync (stored_status (env st')) = Some (Some (now (env st)))
    /\ option_map lastError (stored_status (env st')) = Some None
    /\ google (env st') = google (env st).
Proof.
  intros Hidle Hrel Hauth Huser Hplan Hnorm Hvalid Hgoogle Hcal Htruthy Hlist Houtlook.
  unfold performSync. rewrite Hidle.
  rewrite (updateSyncStatus_ok markSyncing (env st) Hrel).
  set (env1 := afterStatus markSyncing (env st)).
  assert (Hrel1 : hostReliable env1) by (apply hostReliable_afterStatus, Hrel).
  unfold stepTryCatch, tryBlock.
  erewrite stepBind_await_return by (apply checkAuthentication_true; assumption).
  cbv beta iota. rewrite stepBind_modify.
  change {| set_isConnected := Some true; set_isSyncing := None;
            set_lastSync := None; set_lastError := None |} with nowConnected.
  erewrite stepBind_await_return
    by (apply updateSyncStatus_ok, hostReliable_logCall, Hrel1).
  set (env2 := afterStatus nowConnected (logCall FetchUser env1)).
  assert (Hrel2 : hostReliable env2)
    by (eapply hostReliable_frame; [|exact Hrel]; reflexivity).
  erewrite stepBind_await_return.
  2:{ rewrite getEventsForSync_run.
      - unfold normalized in Hnorm.
        change (planning env2) with (planning (env st)).
        change (storedSettings env2) with (storedSettings (env st)).
        rewrite Hnorm. reflexivity.
      - apply (proj1 Hrel2).
      - exact Hplan. }
  rewrite stepBind_modify.
  set (env3 := logCall FetchPlanning (logCall (StorageGet SETTINGS_KEY) env2)).
  assert (Hrel3 : hostReliable env3)
    by (eapply hostReliable_frame; [|exact Hrel]; reflexivity).
  destruct (cacheEvents_ok events env3 Hvalid Hrel3) as [serialized Hcache].
  erewrite stepBind_await_return by exact Hcache.
  set (env4 := setEvents serialized (logCall (StorageSet CACHED_EVENTS_KEY) env3)).
  assert (Hrel4 : hostReliable env4)
    by (eapply hostReliable_frame; [|exact Hrel]; reflexivity).
  erewrite stepBind_await_return by (apply getSettings_ok, (proj1 Hrel4)).
  change (match stored_settings env4 with
          | Some stored => stored
          | None => DEFAULT_SETTINGS
          end) with (storedSettings (env st)).
  rewrite Hgoogle, Houtlook.
  set (env5 := logCall (StorageGet SETTINGS_KEY) env4).
  erewrite stepBind_return.
  2:{ apply syncService_returns.
      apply (syncToGoogleCalendar_listing_fails events env5 calendar msg).
      - apply (proj1 Hrel).
      - unfold connectedCalendar. unfold storedSettings in Hcal.
        change (stored_settings env5) with (stored_settings (env st)).
        destruct (stored_settings (env st)); exact Hcal.
      - exact Htruthy.
      - exact Hlist. }
  cbn [GoogleCalendar.errors List.length Nat.ltb Nat.leb map].
  rewrite stepBind_modify.
  set (env6 := logCall (Google (GList calendar None))
                 (logCall (StorageGet SETTINGS_KEY) env5)).
  assert (Hrel6 : hostReliable env6)
    by (eapply hostReliable_frame; [|exact Hrel]; reflexivity).
  erewrite stepBind_await_return by (apply markSyncCompleted_ok, Hrel6).
  rewrite stepBind_modify.
  unfold stepBind at 1. unfold getResult at 1.
  set (env7 := afterCompleted env6).
  assert (Hrel7 : hostReliable env7)
    by (eapply hostReliable_frame; [|exact Hrel]; reflexivity).
  destruct (notificationsEnabled (storedSettings (env st)) && manual).
  - unfold await, showNotification.
    rewrite notificationsCreate_ok by exact Hrel7.
    rewrite updateSyncStatus_ok
      by (eapply hostReliable_frame; [|exact Hrel]; reflexivity).
    eexists. eexists. split; [reflexivity|]. repeat split; reflexivity.
  - unfold modify.
    rewrite updateSyncStatus_ok by exact Hrel7.
    eexists. eexists. split; [reflexivity|]. repeat split; reflexivity.
Qed.

End Completed.

Section CompletedExamples.
Import SyncManager.

Lemma performSync_completes_despite_a_calendar_error_witness :
  let st := {| isSyncing := false; env := Samples.world Samples.listingFails |} in
  let events := match normalized (env st) with Return l => l | Throw _ => [] end in
  isSyncing st = false
  /\ hostReliable (env st)
  /\ authenticated (env st) = true
  /\ faults (env st) FetchUser = None
  /\ faults (env st) FetchPlanning = None
  /\ normalized (env st) = Return events
  /\ forallb validDates events = true
  /\ enabled (googleCalendar (storedSettings (env st)))
     && connected (googleCalendar (storedSettings (env st))) = true
  /\ calendarId (googleCalendar (storedSettings (env st))) = Some "cal-1"
  /\ JS.truthy "cal-1" = true
  /\ faults (env st) (Google (GList "cal-1" None))
     = Some "Google API error: 503 - Service Unavailable"
  /\ enabled (outlookCalendar (storedSettings (env st)))
     && connected (outlookCalendar (storedSettings (env st))) = false
  /\ exists r st',
       performSync true st = (Return r, st')
       /\ r = {| success := false; timestamp := now (env st);
                 eventsProcessed := List.length events; eventsCreated := 0;
                 eventsUpdated := 0; eventsDeleted := 0;
                 errors := ["Google: " ++ "Google API error: 503 - Service Unavailable"];
                 details := [] |}
       /\ option_map lastSyncDate (stored_settings (env st'))
          = Some (Some (todayOf (now (env st))))
       /\ option_map lastSyncTimestamp (stored_settings (env st'))
          = Some (Some (now (env st)))
       /\ option_map lastSync (stored_status (env st')) = Some (Some (now (env st)))
       /\ option_map lastError (stored_status (env st')) = Some None
       /\ google (env st') = google (env st).
Proof.
  assert (Hrel : hostReliable (Samples.world Samples.listingFails))
    by (repeat split; intros; reflexivity).
  assert (Hnorm : normalized (Samples.world Samples.listingFails)
                  = Return
                      match normalized (Samples.world Samples.listingFails) with
                      | Return l => l
                      | Throw _ => []
                      end) by (vm_compute; reflexivity).
  assert (Hvalid : forallb validDates
                     match normalized (Samples.world Samples.listingFails) with
                     | Return l => l
                     | Throw _ => []
                     end = true) by (vm_compute; reflexivity).
  split; [reflexivity|]. split; [exact Hrel|]. split; [reflexivity|].
  split; [reflexivity|]. split; [reflexivity|]. split; [exact Hnorm|].
  split; [exact Hvalid|]. split; [reflexivity|]. split; [reflexivity|].
  split; [reflexivity|]. split; [reflexivity|]. split; [reflexivity|].
  apply (performSync_completes_despite_a_calendar_error true
           {| isSyncing := false; env := Samples.world Samples.listingFails |}
           _ "cal-1" "Google API error: 503 - Service Unavailable"
           eq_refl Hrel eq_refl eq_refl eq_refl Hnorm Hvalid
           eq_refl eq_refl eq_refl eq_refl eq_refl).
Defined.

End CompletedExamples.

(** ** The Outlook adapter: an expired token *)

(** X20. Once the stored token is past its expiry, a pass
    to Outlook sends nothing: the token is checked before the first
    request, the pass returns a result with the one error that asks to
    reconnect and counts of zero, and the only calls made are two reads
    of the settings. *)
Theorem syncToOutlookCalendar_token_expired
  (events : list EpitechEvent) (env : Env) (calendar token : string) (expiry : Z) :
  faults env (StorageGet SETTINGS_KEY) = None ->
  calendarId (outlookCalendar (storedSettings env)) = Some calendar ->
  JS.truthy calendar = true ->
  accessToken (outlookCalendar (storedSettings env)) = Some token ->
  JS.truthy token = true ->
  tokenExpiry (outlookCalendar (storedSettings env)) = Some expiry ->
  expiry <> 0 ->
  expiry < now env ->
  OutlookCalendar.syncToOutlookCalendar events env
  = (Return {| created := 0; updated := 0; deleted := 0; errors := [tokenExpired] |},
     logCall (StorageGet SETTINGS_KEY) (logCall (StorageGet SETTINGS_KEY) env)).
Proof.
  intros Hget Hcal Hc Htoken Ht Hexpiry Hnz Hlate.
  unfold OutlookCalendar.syncToOutlookCalendar, bind.
  rewrite (getSettings_ok env Hget).
  fold (storedSettings env). rewrite Hcal, Hc.
  unfold OutlookCalendar.reconcile, OutlookCalendar.getExistingEvents.
  cbn [OutlookCalendar.listPages].
  unfold bind, OutlookCalendar.listRequest, OutlookCalendar.graphApiRequest, bind,
    OutlookCalendar.getAccessToken, bind.
  rewrite getSettings_ok by exact Hget.
  change (match stored_settings (logCall (StorageGet SETTINGS_KEY) env) with
          | Some stored => stored
          | None => DEFAULT_SETTINGS
          end) with (storedSettings env).
  rewrite Htoken, Ht. unfold dateNow. cbn [now logCall]. rewrite Hexpiry.
  assert (Hcond : negb (expiry =? 0) && (now env >? expiry) = true).
  { apply andb_true_iff. split.
    - apply negb_true_iff, Z.eqb_neq, Hnz.
    - rewrite Z.gtb_ltb. apply Z.ltb_lt, Hlate. }
  rewrite Hcond. reflexivity.
Qed.

Lemma syncToOutlookCalendar_token_expired_witness :
  let env := Samples.withSettings Samples.outlookStale (Samples.world Samples.noFault) in
  faults env (StorageGet SETTINGS_KEY) = None
  /\ calendarId (outlookCalendar (storedSettings env)) = Some "AAMkAGI2"
  /\ JS.truthy "AAMkAGI2" = true
  /\ accessToken (outlookCalendar (storedSettings env)) = Some "EwBwA8l6"
  /\ JS.truthy "EwBwA8l6" = true
  /\ tokenExpiry (outlookCalendar (storedSettings env)) = Some 1740816000000
  /\ 1740816000000 <> 0
  /\ 1740816000000 < now env
  /\ OutlookCalendar.syncToOutlookCalendar Samples.canonicalBCD env
     = (Return {| created := 0; updated := 0; deleted := 0; errors := [tokenExpired] |},
        logCall (StorageGet SETTINGS_KEY) (logCall (StorageGet SETTINGS_KEY) env)).
Proof.
  split; [reflexivity|]. split; [reflexivity|]. split; [reflexivity|].
  split; [reflexivity|]. split; [reflexivity|]. split; [reflexivity|].
  split; [discriminate|]. split; [reflexivity|].
  apply (syncToOutlookCalendar_token_expired Samples.canonicalBCD
           (Samples.withSettings Samples.outlookStale (Samples.world Samples.noFault))
           "AAMkAGI2" "EwBwA8l6" 1740816000000);
    try reflexivity. discriminate.
Defined.

(** ** The Outlook adapter: what a pass leaves alone *)

Section OutlookEntries.
Import OutlookCalendar.

Lemma getAccessToken_keeps_outlook : keepsOutlook getAccessToken.
Proof.
  intros env. unfold getAccessToken, bind, getSettings. rewrite call_cases.
  destruct (faults env (StorageGet SETTINGS_KEY)); [reflexivity|].
  cbn [stored_settings logCall].
  assert (Hk : forall settings : ExtensionSettings,
             outlook (snd (match accessToken (outlookCalendar settings) with
                           | Some token =>
                               if JS.truthy token
                               then bind dateNow (fun t =>
                                      match tokenExpiry (outlookCalendar settings) with
                                      | Some expiry =>
                                          if negb (expiry =? 0) && (t >? expiry)
                                          then throw "Outlook token expired. Please reconnect."
                                          else ret token
                                      | None => ret token
                                      end)
                               else throw "Not connected to Outlook Calendar"
                           | None => throw "Not connected to Outlook Calendar"
                           end (logCall (StorageGet SETTINGS_KEY) env)))
             = outlook env).
  { intros settings.
    destruct (accessToken (outlookCalendar settings)) as [token|]; [|reflexivity].
    destruct (JS.truthy token); [|reflexivity].
    unfold bind, dateNow.
    destruct (tokenExpiry (outlookCalendar settings)) as [expiry|]; [|reflexivity].
    destruct (negb (expiry =? 0) && (_ >? expiry)); reflexivity. }
  destruct (stored_settings env); apply Hk.
Qed.

(** A Graph request: the token first; when there is none the request is
    not sent and the calendar stays as it is. *)
Lemma graphApiRequest_cases {A : Type} (r : GraphRequest)
  (effect : Env -> Outcome A * Env) (env : Env) :
  (exists msg env1,
      graphApiRequest r effect env = (Throw msg, env1) /\ outlook env1 = outlook env)
  \/ (exists env1,
         outlook env1 = outlook env
         /\ graphApiRequest r effect env = effect (logCall (Graph r) env1)).
Proof.
  unfold graphApiRequest, bind.
  pose proof (getAccessToken_keeps_outlook env) as Hk.
  destruct (getAccessToken env) as [[token|msg] env1]; cbn [snd] in Hk.
  - rewrite call_cases. destruct (faults env1 (Graph r)) as [msg|].
    + left. exists msg, (logCall (Graph r) env1). split; [reflexivity|exact Hk].
    + right. exists env1. split; [exact Hk|reflexivity].
  - left. exists msg, env1. split; [reflexivity|exact Hk].
Qed.

Lemma outlook_mapSet_In (k : string) (v : OutlookCalendarEvent) (m : EventMap)
  (k' : string) (v' : OutlookCalendarEvent) :
  In (k', v') (mapSet k v m) -> In (k', v') m \/ v' = v.
Proof.
  induction m as [|[k0 v0] m IH]; cbn [mapSet]; intros H.
  - destruct H as [H|[]]. injection H as _ <-. right. reflexivity.
  - destruct (String.eqb k0 k).
    + destruct H as [H|H].
      * injection H as _ <-. right. reflexivity.
      * left. right. exact H.
    + destruct H as [H|H].
      * left. left. exact H.
      * destruct (IH H) as [H'|H']; [left; right; exact H'|right; exact H'].
Qed.

Lemma outlook_collect_values (page : list OutlookCalendarEvent) :
  forall (acc : EventMap) (k : string) (ex : OutlookCalendarEvent),
    In (k, ex) (collect acc page) -> In (k, ex) acc \/ In ex page.
Proof.
  induction page as [|ev page IH]; intros acc k ex H; [left; exact H|].
  unfold collect in *. cbn [fold_left] in H.
  apply IH in H. destruct H as [H|H]; [|right; right; exact H].
  destruct (o_epitechId (o_body ev)) as [t|]; [|left; exact H].
  apply outlook_mapSet_In in H.
  destruct H as [H| ->]; [left; exact H|right; left; reflexivity].
Qed.

Lemma outlook_listPages_values (calendar : string) (fuel : nat) :
  forall (skip : nat) (acc : EventMap) (env : Env),
    outlook (snd (listPages fuel calendar skip acc env)) = outlook env
    /\ match fst (listPages fuel calendar skip acc env) with
       | Return m =>
           forall k ex, In (k, ex) m ->
                        In (k, ex) acc \/ (In ex (outlook env) /\ matchesFilter ex = true)
       | Throw _ => True
       end.
Proof.
  induction fuel as [|fuel IH]; intros skip acc env.
  - cbn. split; [reflexivity|]. intros k ex H. left. exact H.
  - cbn [listPages]. unfold bind, listRequest.
    match goal with
    | |- context [graphApiRequest ?r ?effect env] =>
        destruct (graphApiRequest_cases r effect env)
          as [[msg [env1 [Hrun Hout]]]|[env1 [Hout Hrun]]]; rewrite Hrun
    end.
    + cbn. split; [exact Hout|exact I].
    + cbn [value nextLink outlook logCall].
      set (page := firstn top _).
      assert (Hpage : forall ex, In ex page -> In ex (outlook env) /\ matchesFilter ex = true).
      { intros ex Hex. apply page_of_listing in Hex. apply filter_In in Hex.
        rewrite <- Hout. exact Hex. }
      destruct (_ <? _)%nat.
      * specialize (IH (skip + top)%nat (collect acc page) (logCall (Graph (OList calendar skip)) env1)).
        destruct IH as [Hg Hm]. cbn [outlook logCall] in Hg, Hm. rewrite Hout in Hg, Hm.
        split; [exact Hg|].
        destruct (fst (listPages fuel calendar _ (collect acc page) _)); [|exact I].
        intros k ex H. apply Hm in H. destruct H as [H|H]; [|right; exact H].
        apply outlook_collect_values in H. destruct H as [H|H]; [left; exact H|right; auto].
      * cbn. split; [exact Hout|].
        intros k ex H. apply outlook_collect_values in H.
        destruct H as [H|H]; [left; exact H|right; auto].
Qed.

Lemma patchRequest_keeps (calendar g : string) (body : OutlookEventBody) (env : Env)
  (ev : OutlookCalendarEvent) :
  o_id ev <> g -> In ev (outlook env) ->
  In ev (outlook (snd (patchRequest calendar g body env))).
Proof.
  intros Hne Hin. unfold patchRequest.
  match goal with
  | |- context [graphApiRequest ?r ?effect env] =>
      destruct (graphApiRequest_cases r effect env)
        as [[msg [env1 [Hrun Hout]]]|[env1 [Hout Hrun]]]; rewrite Hrun
  end.
  - cbn [snd]. rewrite Hout. exact Hin.
  - clear Hrun. cbn [outlook logCall]. rewrite Hout.
    destruct (existsb (hasId g) (outlook env));
      cbn [snd outlook setOutlook logCall]; [|rewrite Hout; exact Hin].
    apply in_map_iff. exists ev. split; [|exact Hin].
    destruct (hasId g ev) eqn:Hid; [|reflexivity].
    unfold hasId in Hid. apply String.eqb_eq in Hid. contradiction.
Qed.

Lemma createRequest_keeps (calendar : string) (body : OutlookEventBody) (env : Env)
  (ev : OutlookCalendarEvent) :
  In ev (outlook env) -> In ev (outlook (snd (createRequest calendar body env))).
Proof.
  intros Hin. unfold createRequest.
  match goal with
  | |- context [graphApiRequest ?r ?effect env] =>
      destruct (graphApiRequest_cases r effect env)
        as [[msg [env1 [Hrun Hout]]]|[env1 [Hout Hrun]]]; rewrite Hrun
  end.
  - cbn [snd]. rewrite Hout. exact Hin.
  - cbn [snd outlook setOutlook logCall]. rewrite Hout. apply in_or_app. left. exact Hin.
Qed.

Lemma outlook_deleteRequest_keeps (calendar g : string) (env : Env)
  (ev : OutlookCalendarEvent) :
  o_id ev <> g -> In ev (outlook env) ->
  In ev (outlook (snd (deleteRequest calendar g env))).
Proof.
  intros Hne Hin. unfold deleteRequest.
  match goal with
  | |- context [graphApiRequest ?r ?effect env] =>
      destruct (graphApiRequest_cases r effect env)
        as [[msg [env1 [Hrun Hout]]]|[env1 [Hout Hrun]]]; rewrite Hrun
  end.
  - cbn [snd]. rewrite Hout. exact Hin.
  - clear Hrun. cbn [outlook logCall]. rewrite Hout.
    destruct (existsb (hasId g) (outlook env));
      cbn [snd outlook setOutlook logCall]; [|rewrite Hout; exact Hin].
    apply filter_In. split; [exact Hin|].
    apply negb_true_iff. unfold hasId. apply String.eqb_neq. exact Hne.
Qed.

Lemma outlook_mapGet_In (k : string) (v : OutlookCalendarEvent) (m : EventMap) :
  mapGet k m = Some v -> exists k', In (k', v) m.
Proof.
  induction m as [|[k0 v0] m IH]; cbn [mapGet]; [discriminate|].
  destruct (String.eqb k0 k).
  - intros H. injection H as ->. exists k0. left. reflexivity.
  - intros H. destruct (IH H) as [k' Hk']. exists k'. right. exact Hk'.
Qed.

Lemma outlook_upsert_keeps (calendar : string) (m : EventMap) (e : EpitechEvent)
  (r : SyncResultDetails) (env : Env) (ev : OutlookCalendarEvent) :
  ~ In (o_id ev) (outlookIds m) -> In ev (outlook env) ->
  In ev (outlook (snd (upsert calendar m e r env))).
Proof.
  intros Hout Hin. unfold upsert.
  destruct (toOutlookEvent e) as [body|msg]; [|exact Hin].
  destruct (mapGet (id e) m) as [ex|] eqn:Hget.
  - assert (Hne : o_id ev <> o_id ex).
    { intros Heq. apply Hout. rewrite Heq.
      destruct (outlook_mapGet_In _ _ _ Hget) as [k' Hk'].
      unfold outlookIds. apply in_map_iff. exists (k', ex). split; [reflexivity|exact Hk']. }
    pose proof (patchRequest_keeps calendar (o_id ex) body env ev Hne Hin) as H.
    destruct (patchRequest calendar (o_id ex) body env) as [[u|msg] env']; exact H.
  - pose proof (createRequest_keeps calendar body env ev Hin) as H.
    destruct (createRequest calendar body env) as [[u|msg] env']; exact H.
Qed.

Lemma outlook_upsertAll_keeps (calendar : string) (m : EventMap)
  (ev : OutlookCalendarEvent) (events : list EpitechEvent) :
  forall (r : SyncResultDetails) (env : Env),
    ~ In (o_id ev) (outlookIds m) -> In ev (outlook env) ->
    In ev (outlook (snd (upsertAll calendar m events r env))).
Proof.
  induction events as [|e events IH]; intros r env Hout Hin; [exact Hin|].
  cbn [upsertAll].
  pose proof (outlook_upsert_keeps calendar m e r env ev Hout Hin) as H.
  destruct (upsert calendar m e r env) as [[[u|msg] r'] env']; cbn [snd] in H.
  - apply IH; assumption.
  - exact H.
Qed.

Lemma outlook_deleteAll_keeps (calendar : string) (processedIds : list string)
  (ev : OutlookCalendarEvent) (entries : EventMap) :
  forall (r : SyncResultDetails) (env : Env),
    ~ In (o_id ev) (outlookIds entries) -> In ev (outlook env) ->
    In ev (outlook (snd (deleteAll calendar processedIds entries r env))).
Proof.
  induction entries as [|[k ex] entries IH]; intros r env Hout Hin; [exact Hin|].
  cbn [deleteAll].
  assert (Hrest : ~ In (o_id ev) (outlookIds entries)).
  { intros H. apply Hout. right. exact H. }
  destruct (existsb (String.eqb k) processedIds); [apply IH; assumption|].
  assert (Hne : o_id ev <> o_id ex).
  { intros Heq. apply Hout. left. symmetry. exact Heq. }
  pose proof (outlook_deleteRequest_keeps calendar (o_id ex) env ev Hne Hin) as H.
  destruct (deleteRequest calendar (o_id ex) env) as [[u|msg] env']; cbn [snd] in H;
    apply IH; assumption.
Qed.

Lemma outlook_reconcile_keeps (calendar : string) (events : list EpitechEvent) (env : Env)
  (ev : OutlookCalendarEvent) :
  NoDup (map o_id (outlook env)) ->
  In ev (outlook env) -> matchesFilter ev = false ->
  In ev (outlook (snd (reconcile calendar events env))).
Proof.
  intros Hids Hin Hother. unfold reconcile, getExistingEvents.
  destruct (outlook_listPages_values calendar (S (List.length (outlook env))) O [] env)
    as [Hg Hm].
  destruct (listPages (S (List.length (outlook env))) calendar O [] env)
    as [[m|msg] env1]; cbn [fst snd] in Hg, Hm.
  - assert (Hout : ~ In (o_id ev) (outlookIds m)).
    { intros H. unfold outlookIds in H. apply in_map_iff in H.
      destruct H as [[k ex] [Hid Hex]]. cbn [snd] in Hid.
      destruct (Hm k ex Hex) as [[]|[Hex' Hq]].
      assert (ex = ev) by (apply (NoDup_map_inj o_id (outlook env)); assumption).
      subst ex. congruence. }
    assert (Hin1 : In ev (outlook env1)) by (rewrite Hg; exact Hin).
    pose proof (outlook_upsertAll_keeps calendar m ev events emptyResult env1 Hout Hin1) as H.
    destruct (upsertAll calendar m events emptyResult env1) as [[[u|msg] r] env2];
      cbn [snd] in H.
    + apply outlook_deleteAll_keeps; assumption.
    + exact H.
  - cbn [snd]. rewrite Hg. exact Hin.
Qed.

(** X21. A pass to Outlook never touches an entry that the
    listing filter does not match: when the identifiers of the calendar
    are unique, every such entry is in the calendar afterwards, as it was,
    for every list of events, whatever the settings and the token, and
    whichever requests fail. *)
Theorem syncToOutlookCalendar_leaves_other_entries
  (events : list EpitechEvent) (env : Env) (ev : OutlookCalendarEvent) :
  NoDup (map o_id (outlook env)) ->
  In ev (outlook env) -> matchesFilter ev = false ->
  In ev (outlook (snd (syncToOutlookCalendar events env))).
Proof.
  intros Hids Hin Hother. unfold syncToOutlookCalendar, bind, getSettings.
  rewrite call_cases.
  destruct (faults env (StorageGet SETTINGS_KEY)); [exact Hin|].
  set (env0 := logCall (StorageGet SETTINGS_KEY) env).
  assert (Hrun : forall calendar,
             In ev (outlook (snd (match reconcile calendar events env0 with
                                  | (Return _, result, env') => (Return result, env')
                                  | (Throw errorMsg, result, env') =>
                                      (Return (pushError errorMsg result), env')
                                  end)))).
  { intros calendar.
    pose proof (outlook_reconcile_keeps calendar events env0 ev Hids Hin Hother) as H0.
    destruct (reconcile calendar events env0) as [[[u|msg] r] env']; exact H0. }
  destruct (stored_settings _) as [s|]; cbn [logCall stored_settings].
  - destruct (calendarId (outlookCalendar s)) as [calendar|]; [|exact Hin].
    destruct (JS.truthy calendar); [apply Hrun|exact Hin].
  - cbn. exact Hin.
Qed.


Lemma syncToOutlookCalendar_leaves_other_entries_witness :
  let env := Samples.withOutlook
               [Samples.mirroredOutlook "o1" Samples.idA; Samples.ownOutlookEntry "o2"]
               (Samples.withSettings Samples.outlookFresh (Samples.world Samples.noFault)) in
  NoDup (map o_id (outlook env))
  /\ In (Samples.ownOutlookEntry "o2") (outlook env)
  /\ matchesFilter (Samples.ownOutlookEntry "o2") = false
  /\ In (Samples.ownOutlookEntry "o2")
       (outlook (snd (syncToOutlookCalendar Samples.canonicalBCD env))).
Proof.
  assert (Hids : NoDup (map o_id
                          (outlook
                             (Samples.withOutlook
                                [Samples.mirroredOutlook "o1" Samples.idA;
                                 Samples.ownOutlookEntry "o2"]
                                (Samples.withSettings Samples.outlookFresh
                                   (Samples.world Samples.noFault))))))
    by (apply distinct_NoDup; reflexivity).
  assert (Hin : In (Samples.ownOutlookEntry "o2")
                  (outlook
                     (Samples.withOutlook
                        [Samples.mirroredOutlook "o1" Samples.idA;
                         Samples.ownOutlookEntry "o2"]
                        (Samples.withSettings Samples.outlookFresh
                           (Samples.world Samples.noFault)))))
    by (right; left; reflexivity).
  split; [exact Hids|]. split; [exact Hin|]. split; [reflexivity|].
  apply (syncToOutlookCalendar_leaves_other_entries Samples.canonicalBCD
           (Samples.withOutlook
              [Samples.mirroredOutlook "o1" Samples.idA; Samples.ownOutlookEntry "o2"]
              (Samples.withSettings Samples.outlookFresh (Samples.world Samples.noFault)))
           (Samples.ownOutlookEntry "o2") Hids Hin).
  reflexivity.
Defined.

End OutlookEntries.

(** ** The cache of events *)

Lemma fieldReads_spec (width : nat) (digits : string) (n : Z) :
  fieldReads width digits n = true ->
  String.length digits = width /\ JS.digitsValue 0 digits = Some n.
Proof.
  unfold fieldReads. intros H. apply andb_true_iff in H. destruct H as [Hl Hv].
  apply Nat.eqb_eq in Hl. split; [exact Hl|].
  destruct (JS.digitsValue 0 digits) as [v|]; [|discriminate].
  apply Z.eqb_eq in Hv. subst v. reflexivity.
Qed.

(** A check made for each number of a range, counting in [Z], holds of
    every number of the range. *)
Lemma checkedFrom_spec (check : Z -> bool) (count : nat) :
  forall first, checkedFrom check first count = true ->
  forall n, first <= n < first + Z.of_nat count -> check n = true.
Proof.
  induction count as [|count IH]; intros first Hall n Hn; [lia|].
  cbn [checkedFrom] in Hall. apply andb_true_iff in Hall. destruct Hall as [Hfirst Hrest].
  destruct (Z.eq_dec n first) as [->|Hne]; [exact Hfirst|].
  apply (IH (first + 1) Hrest). lia.
Qed.

Lemma below_bound (format : Z -> string) (width : nat) (bound : Z) :
  checkedFrom (fun k => fieldReads width (format k) k) 0 (Z.to_nat bound) = true ->
  forall n, 0 <= n < bound -> fieldReads width (format n) n = true.
Proof.
  intros Hall n Hn.
  apply (checkedFrom_spec (fun k => fieldReads width (format k) k) _ 0 Hall). lia.
Qed.

Lemma pad_reads (n : Z) : 0 <= n < 100 -> fieldReads 2 (pad n) n = true.
Proof. apply (below_bound pad 2 100). vm_compute. reflexivity. Qed.

Lemma pad3_reads (n : Z) : 0 <= n < 1000 -> fieldReads 3 (pad3 n) n = true.
Proof. apply (below_bound pad3 3 1000). vm_compute. reflexivity. Qed.

Lemma padYear_reads (n : Z) : 0 <= n < 10000 -> fieldReads 4 (padYear 4 n) n = true.
Proof. apply (below_bound (padYear 4) 4 10000). vm_compute. reflexivity. Qed.

Lemma take_app_exact (a b : string) : JS.take (String.length a) (a ++ b) = a.
Proof. induction a as [|c a IH]; [destruct b; reflexivity|]. cbn. rewrite IH. reflexivity. Qed.

Lemma drop_app_exact (a b : string) : JS.drop (String.length a) (a ++ b) = b.
Proof. induction a as [|c a IH]; [reflexivity|]. cbn. exact IH. Qed.

Lemma isoField_app (width : nat) (digits rest : string) (n : Z) :
  fieldReads width digits n = true ->
  isoField width (digits ++ rest) = Some (n, rest).
Proof.
  intros H. apply fieldReads_spec in H. destruct H as [Hl Hv].
  unfold isoField. subst width.
  rewrite take_app_exact, drop_app_exact, Nat.eqb_refl, Hv. reflexivity.
Qed.

Lemma DaysInMonth_daysInMonth (y mo : Z) :
  1 <= mo <= 12 -> DaysInMonth y (mo - 1) = daysInMonth y mo.
Proof.
  intros H. month_cases mo; reflexivity.
Qed.

Lemma time_of_day (t : Z) :
  0 <= HourFromTime t <= 23 /\ 0 <= MinFromTime t <= 59 /\ 0 <= SecFromTime t <= 59
  /\ 0 <= msFromTime t <= 999
  /\ MakeDate (Day t)
       (MakeTime (HourFromTime t) (MinFromTime t) (SecFromTime t) (msFromTime t)) = t.
Proof.
  unfold HourFromTime, MinFromTime, SecFromTime, msFromTime, MakeDate, MakeTime, Day, msPerDay.
  repeat split; Z.div_mod_to_equations; lia.
Qed.

Lemma year_bounds_time (t : Z) :
  0 <= YearFromTime t <= 9999 -> Z.abs t <= 8640000000000000.
Proof.
  intros Hy. unfold YearFromTime in Hy.
  destruct (civilFromDay_spec (Day t)) as [Hday [Hm Hd]].
  set (y := fst (fst (civilFromDay (Day t)))) in *.
  set (m := snd (fst (civilFromDay (Day t)))) in *.
  set (d := snd (civilFromDay (Day t))) in *.
  replace m with (m + 1 - 1) in Hday by lia.
  rewrite MakeDay_valid in Hday by lia.
  pose proof (day_within_year y (m + 1) d ltac:(lia) Hd) as Hw.
  assert (Hdfy : -720000 <= DayFromYear y <= 2940000).
  { unfold DayFromYear. Z.div_mod_to_equations. lia. }
  assert (HD : -720000 <= Day t <= 2940366).
  { destruct (InLeapYear y); lia. }
  unfold Day, msPerDay in HD. Z.div_mod_to_equations. lia.
Qed.

Lemma fromISOString_of_toISOString (t : Z) (iso : string) :
  0 <= YearFromTime t <= 9999 ->
  toISOString (Some t) = Return iso ->
  fromISOString iso = Some t.
Proof.
  intros Hy Hiso. unfold toISOString in Hiso. cbv zeta in Hiso.
  assert (Hin : (0 <=? YearFromTime t) && (YearFromTime t <=? 9999) = true).
  { apply andb_true_iff. split; apply Z.leb_le; lia. }
  rewrite Hin in Hiso. injection Hiso as <-.
  destruct (civilFromDay_spec (Day t)) as [Hday [Hm Hd]].
  fold (YearFromTime t) (MonthFromTime t) (DateFromTime t) in Hday, Hm, Hd.
  destruct (time_of_day t) as [Hh [Hmi [Hs [Hms Ht]]]].
  assert (Hdm : DateFromTime t <= 31).
  { unfold daysInMonth in Hd.
    destruct (_ || _); [lia|]. destruct (_ =? 2); [destruct (InLeapYear _); lia|lia]. }
  unfold fromISOString.
  rewrite (isoField_app 4 _ _ _ (padYear_reads (YearFromTime t) ltac:(lia))).
  cbn [andThen isoMark append]. rewrite Ascii.eqb_refl. cbn [andThen].
  rewrite (isoField_app 2 _ _ _ (pad_reads (MonthFromTime t + 1) ltac:(lia))).
  cbn [andThen isoMark append]. rewrite Ascii.eqb_refl. cbn [andThen].
  rewrite (isoField_app 2 _ _ _ (pad_reads (DateFromTime t) ltac:(lia))).
  cbn [andThen isoMark append]. rewrite Ascii.eqb_refl. cbn [andThen].
  rewrite (isoField_app 2 _ _ _ (pad_reads (HourFromTime t) ltac:(lia))).
  cbn [andThen isoMark append]. rewrite Ascii.eqb_refl. cbn [andThen].
  rewrite (isoField_app 2 _ _ _ (pad_reads (MinFromTime t) ltac:(lia))).
  cbn [andThen isoMark append]. rewrite Ascii.eqb_refl. cbn [andThen].
  rewrite (isoField_app 2 _ _ _ (pad_reads (SecFromTime t) ltac:(lia))).
  cbn [andThen isoMark append]. rewrite Ascii.eqb_refl. cbn [andThen].
  change (pad3 (msFromTime t) ++ "Z") with (pad3 (msFromTime t) ++ String "Z" EmptyString).
  rewrite (isoField_app 3 _ _ _ (pad3_reads (msFromTime t) ltac:(lia))).
  cbn [andThen isoMark]. rewrite Ascii.eqb_refl. cbn [andThen].
  replace (MonthFromTime t + 1 - 1) with (MonthFromTime t) by lia.
  assert (Hlegal : (1 <=? MonthFromTime t + 1) && (MonthFromTime t + 1 <=? 12)
                   && (1 <=? DateFromTime t)
                   && (DateFromTime t <=? DaysInMonth (YearFromTime t) (MonthFromTime t))
                   && (HourFromTime t <=? 23) && (MinFromTime t <=? 59)
                   && (SecFromTime t <=? 59) = true).
  { replace (MonthFromTime t) with (MonthFromTime t + 1 - 1) at 3 by lia.
    rewrite DaysInMonth_daysInMonth by lia.
    repeat (apply andb_true_iff; split); apply Z.leb_le; lia. }
  rewrite Hlegal, Hday, Ht. unfold TimeClip.
  pose proof (year_bounds_time t Hy) as Hb.
  destruct (Z.abs t >? 8640000000000000) eqn:Hc; [|reflexivity].
  rewrite Z.gtb_ltb in Hc. apply Z.ltb_lt in Hc. lia.
Qed.

Lemma date_through_the_cache (d : Date) :
  fourDigitYear d = true ->
  exists iso, toISOString d = Return iso /\ fromISOString iso = d.
Proof.
  destruct d as [t|]; [|discriminate]. intros H. cbn [fourDigitYear] in H.
  apply andb_true_iff in H. destruct H as [H0 H1].
  apply Z.leb_le in H0. apply Z.leb_le in H1.
  assert (Hret : exists iso, toISOString (Some t) = Return iso) by (eexists; reflexivity).
  destruct Hret as [iso Hiso]. exists iso. split; [exact Hiso|].
  apply (fromISOString_of_toISOString t iso); [lia|exact Hiso].
Qed.

Lemma event_through_the_cache (e : EpitechEvent) :
  cacheable e = true ->
  exists c, serializeEvent e = Return c /\ deserializeEvent c = e.
Proof.
  unfold cacheable. intros H. apply andb_true_iff in H. destruct H as [Hs He].
  destruct (date_through_the_cache _ Hs) as [isoS [HisoS HbackS]].
  destruct (date_through_the_cache _ He) as [isoE [HisoE HbackE]].
  unfold serializeEvent. rewrite HisoS, HisoE. cbn [bindO].
  eexists. split; [reflexivity|].
  unfold deserializeEvent. cbn [ser_event ser_startDate ser_endDate].
  rewrite HbackS, HbackE. destruct e; reflexivity.
Qed.

Lemma events_through_the_cache (events : list EpitechEvent) :
  forallb cacheable events = true ->
  exists l, mapO serializeEvent events = Return l /\ map deserializeEvent l = events.
Proof.
  induction events as [|e events IH]; intros H.
  - exists []. split; reflexivity.
  - cbn [forallb] in H. apply andb_true_iff in H. destruct H as [He Hrest].
    destruct (event_through_the_cache e He) as [c [Hc Hback]].
    destruct (IH Hrest) as [l [Hl Hbackl]].
    exists (c :: l). cbn [mapO map]. rewrite Hc, Hl, Hback, Hbackl. split; reflexivity.
Qed.

(** X22. What [cacheEvents] stores, [getCachedEvents]
    gives back: for events whose dates are valid and have a year from 0
    to 9999, the events read from the cache are the events that were
    cached, dates included, to the millisecond. *)
Theorem getCachedEvents_after_cacheEvents (events : list EpitechEvent) (env : Env) :
  faults env (StorageSet CACHED_EVENTS_KEY) = None ->
  forallb cacheable events = true ->
  exists env1,
    cacheEvents events env = (Return tt, env1)
    /\ forall env2,
         stored_events env2 = stored_events env1 ->
         faults env2 (StorageGet CACHED_EVENTS_KEY) = None ->
         getCachedEvents env2
         = (Return (Some events), logCall (StorageGet CACHED_EVENTS_KEY) env2).
Proof.
  intros Hset Hall.
  destruct (events_through_the_cache events Hall) as [l [Hl Hback]].
  unfold cacheEvents, bind, lift. rewrite Hl, call_cases, Hset.
  eexists. split; [reflexivity|].
  intros env2 Hstored Hget. unfold getCachedEvents. rewrite call_cases, Hget.
  cbn [stored_events logCall]. rewrite Hstored. cbn [stored_events setEvents].
  rewrite Hback. reflexivity.
Qed.

Lemma getCachedEvents_after_cacheEvents_witness :
  faults (Samples.world Samples.noFault) (StorageSet CACHED_EVENTS_KEY) = None
  /\ forallb cacheable Samples.canonicalBCD = true
  /\ exists env1,
       cacheEvents Samples.canonicalBCD (Samples.world Samples.noFault) = (Return tt, env1)
       /\ forall env2,
            stored_events env2 = stored_events env1 ->
            faults env2 (StorageGet CACHED_EVENTS_KEY) = None ->
            getCachedEvents env2
            = (Return (Some Samples.canonicalBCD),
               logCall (StorageGet CACHED_EVENTS_KEY) env2).
Proof.
  assert (Hall : forallb cacheable Samples.canonicalBCD = true)
    by (vm_compute; reflexivity).
  split; [reflexivity|]. split; [exact Hall|].
  apply (getCachedEvents_after_cacheEvents Samples.canonicalBCD
           (Samples.world Samples.noFault) eq_refl Hall).
Defined.

Section IcsExport.
Context {zone : TimeZone}.
Import SyncManager.

(** X23. Once events are cached, [exportToIcs] makes no
    request: it reads the cache and returns the document of the events
    that were cached (the completion of [generateIcsContent] on them); the
    read of the cache is its only call. *)
Theorem exportToIcs_reads_the_cache
  (clock : nat -> Z) (event : EpitechEvent) (rest : list EpitechEvent) (env : Env) :
  faults env (StorageSet CACHED_EVENTS_KEY) = None ->
  forallb cacheable (event :: rest) = true ->
  forall env2,
    stored_events env2 = stored_events (snd (cacheEvents (event :: rest) env)) ->
    faults env2 (StorageGet CACHED_EVENTS_KEY) = None ->
    exportToIcs clock env2
    = (generateIcsContent clock (event :: rest),
       logCall (StorageGet CACHED_EVENTS_KEY) env2).
Proof.
  intros Hset Hall env2 Hstored Hget.
  destruct (events_through_the_cache (event :: rest) Hall) as [l [Hl Hback]].
  assert (Hrun : cacheEvents (event :: rest) env
                 = (Return tt, setEvents l (logCall (StorageSet CACHED_EVENTS_KEY) env))).
  { unfold cacheEvents, bind, lift. rewrite Hl, call_cases, Hset. reflexivity. }
  rewrite Hrun in Hstored. cbn [snd stored_events setEvents] in Hstored.
  unfold exportToIcs, bind at 1. unfold getCachedEvents. rewrite call_cases, Hget.
  cbn [stored_events logCall]. rewrite Hstored, Hback.
  unfold bind, ret, lift. reflexivity.
Qed.

End IcsExport.

Section IcsExportExamples.
Import SyncManager.

Lemma exportToIcs_reads_the_cache_witness :
  let env := Samples.world Samples.noFault in
  let event := Samples.eventWithId Samples.idB in
  let rest := [Samples.eventWithId Samples.idC; Samples.eventWithId Samples.idD] in
  let env2 := snd (cacheEvents (event :: rest) env) in
  faults env (StorageSet CACHED_EVENTS_KEY) = None
  /\ forallb cacheable (event :: rest) = true
  /\ stored_events env2 = stored_events (snd (cacheEvents (event :: rest) env))
  /\ faults env2 (StorageGet CACHED_EVENTS_KEY) = None
  /\ exportToIcs (fun _ => 1740819600000) env2
     = (generateIcsContent (fun _ => 1740819600000) (event :: rest),
        logCall (StorageGet CACHED_EVENTS_KEY) env2).
Proof.
  assert (Hall : forallb cacheable
                   (Samples.eventWithId Samples.idB
                    :: [Samples.eventWithId Samples.idC; Samples.eventWithId Samples.idD])
                 = true) by (vm_compute; reflexivity).
  split; [reflexivity|]. split; [exact Hall|]. split; [reflexivity|].
  split; [reflexivity|].
  apply (exportToIcs_reads_the_cache (fun _ => 1740819600000)
           (Samples.eventWithId Samples.idB)
           [Samples.eventWithId Samples.idC; Samples.eventWithId Samples.idD]
           (Samples.world Samples.noFault) eq_refl Hall
           (snd (cacheEvents
                   (Samples.eventWithId Samples.idB
                    :: [Samples.eventWithId Samples.idC; Samples.eventWithId Samples.idD])
                   (Samples.world Samples.noFault)))
           eq_refl eq_refl).
Defined.

End IcsExportExamples.
